(** * qto_categorizer_ml: a shallow embedding of the job pipeline

    The development follows the layout of the Python package:
    [schemas] (core/schemas.py), [models] (core/models.py),
    [splitters] (utils/splitters.py), [signers] (utils/signers.py),
    [services] (io/services.py), [jobs] (jobs/base.py, jobs/training.py).

    Python exceptions are values of type [exn]; a call that may raise
    returns a [Result].  Objects that are mutated in place (a Model, the
    process-wide services, the tracking server) are threaded explicitly:
    a method is a function from the state before the call to an outcome
    and the state after it, and the state is kept when the call raises.

    External libraries (scikit-learn's estimators and [train_test_split],
    the readers, MLflow) are not part of the package; they enter as the
    fields of a type class or as section variables. *)

From Stdlib Require Import ZArith String Ascii PrimFloat.
From Stdlib Require Import Floats.
From Stdlib Require OrderedTypeEx.
From stdpp Require Import gmap strings list fin_maps.

Open Scope string_scope.
Open Scope Z_scope.
Open Scope list_scope.

(** ** Exceptions and results *)

(** The exception classes that the package or its collaborators raise. *)
Inductive exn_class :=
| CException
| CValueError
| CLookupError
| CKeyError
| CIndexError
| CAttributeError
| CTypeError
| CRuntimeError
| CValidationError   (* pydantic_core.ValidationError, a ValueError *)
| CNotFittedError    (* sklearn.exceptions.NotFittedError(ValueError, AttributeError) *)
| CSchemaError       (* pandera.errors.SchemaError *)
| CMlflowException.  (* mlflow.exceptions.MlflowException *)

#[global] Instance exn_class_eq_dec : EqDecision exn_class.
Proof. solve_decision. Defined.

Record exn := Exn { exn_type : exn_class; exn_msg : string }.

#[global] Instance exn_eq_dec : EqDecision exn.
Proof. solve_decision. Defined.

(** [subclass c d]: class [c] is [d] or derives from it. *)
Definition subclass (c d : exn_class) : bool :=
  match c, d with
  | _, CException => true
  | CValueError, CValueError => true
  | CLookupError, CLookupError => true
  | CKeyError, (CKeyError | CLookupError) => true
  | CIndexError, (CIndexError | CLookupError) => true
  | CAttributeError, CAttributeError => true
  | CTypeError, CTypeError => true
  | CRuntimeError, CRuntimeError => true
  | CValidationError, (CValidationError | CValueError) => true
  | CNotFittedError, (CNotFittedError | CValueError | CAttributeError) => true
  | CSchemaError, CSchemaError => true
  | CMlflowException, CMlflowException => true
  | _, _ => false
  end.

(** What [except d] and [pytest.raises(d)] test. *)
Definition isinstance (e : exn) (d : exn_class) : bool := subclass (exn_type e) d.

Inductive Result (A : Type) :=
| Ok (a : A)
| Raise (e : exn).
Arguments Ok {A} a.
Arguments Raise {A} e.

Definition raises {A} (r : Result A) (d : exn_class) : Prop :=
  exists e, r = Raise e /\ isinstance e d = true.

Definition rbind {A B} (r : Result A) (k : A -> Result B) : Result B :=
  match r with
  | Ok a => k a
  | Raise e => Raise e
  end.

Notation "x <~ c ; k" := (rbind c (fun x => k))
  (at level 20, c at level 100, k at level 200, only parsing).

(** A method of a mutable object with state [S]: the state after the call
    is returned also when the call raises. *)
Definition M (S A : Type) : Type := S -> Result A * S.

Definition ret {S A} (a : A) : M S A := fun s => (Ok a, s).
Definition throw {S A} (e : exn) : M S A := fun s => (Raise e, s).
Definition lift {S A} (r : Result A) : M S A := fun s => (r, s).
Definition bind {S A B} (c : M S A) (k : A -> M S B) : M S B :=
  fun s =>
    match c s with
    | (Ok a, s') => k a s'
    | (Raise e, s') => (Raise e, s')
    end.
Definition get {S} : M S S := fun s => (Ok s, s).
Definition put {S} (s : S) : M S unit := fun _ => (Ok tt, s).

Notation "x <- c ; k" := (bind c (fun x => k))
  (at level 20, c at level 100, k at level 200, only parsing).
Notation "c >> k" := (bind c (fun _ => k))
  (at level 100, k at level 200, right associativity, only parsing).

(** ** Python string predicates used by [Model.get_params] *)

(** [str.isupper] and [str.startswith] on ASCII identifiers (every field
    name of the package is ASCII). *)
Definition is_upper_char (c : ascii) : bool :=
  let n := nat_of_ascii c in (65 <=? n)%nat && (n <=? 90)%nat.
Definition is_lower_char (c : ascii) : bool :=
  let n := nat_of_ascii c in (97 <=? n)%nat && (n <=? 122)%nat.

(** True when there is at least one cased character and no lowercase one. *)
Definition isupper (s : string) : bool :=
  let cs := list_ascii_of_string s in
  existsb is_upper_char cs && negb (existsb is_lower_char cs).

Definition startswith (s p : string) : bool := String.prefix p s.

(** ** core/schemas.py *)

Module schemas.

(** A row of [InputsSchema].  Nullable columns are options; AMOUNT is a
    float, and a missing amount is NaN. *)
Module InputsSchema.
Record row := Row {
    TRANSACTION_ID : string;
    DATE_EMITTED : Z;
    AMOUNT : float;
    TYPE_OF_PAYMENT : option string;
    MERCHANT_NAME : option string;
    DESCRIPTION : option string;
    SIDE : Z;
    CATEGORY : string
}.
End InputsSchema.

(** A row of [FeatInputsSchema]. *)
Module FeatInputsSchema.
Record row := Row {
    AMOUNT : float;
    TYPE_OF_PAYMENT : option string;
    MERCHANT_NAME : option string;
    DESCRIPTION : option string
}.

(** The only value constraint: [AMOUNT: Series[Float] = Field(gt=0)],
      not nullable (NaN fails [0 < x] as well). *)
Definition row_ok (r : row) : bool := PrimFloat.ltb 0%float (AMOUNT r).

(** [Schema.check]: the validated frame is the frame itself. *)
Definition check (data : list row) : Result (list row) :=
    if forallb row_ok data then Ok data
    else Raise (Exn CSchemaError "AMOUNT: greater_than(0)").
End FeatInputsSchema.

Definition Inputs := list FeatInputsSchema.row.
Definition Targets := list string.
Definition Outputs := list string.

End schemas.

Abbreviation FeatRow := schemas.FeatInputsSchema.row.

(** ** core/models.py *)

Module models.

(** The values a field of a Model holds at run time: the declared
    hyperparameters are ints and strings, [pipeline] and [le] start as
    [None] and hold the fitted estimator and the label encoder after [fit].
    Assignment is not validated (pydantic's [validate_assignment] is off),
    so any field can hold any value. *)
(** What a scikit-learn pipeline has been through: it was created, it was
    fitted on data, or a [fit] on data raised and left it as it was then. *)
Inductive FitState :=
| Unfitted
| Fitted (X : list FeatRow) (y : list Z)
| FitFailed (X : list FeatRow) (y : list Z).

#[local] Unset Elimination Schemes.
Inductive Value :=
| VNone
| VInt (z : Z)
| VStr (s : string)
(* sklearn.preprocessing.LabelEncoder; [classes_] exists once fitted *)
| VLabelEncoder (classes_ : option (list string))
(* Pipeline([("merchant_category_encoder", MostFrequentCategoryByMerchant())]) *)
| VBaselinePipeline (merchant_to_category_ : gmap string Z)
(* the Pipeline of [_create_pipeline]: its hyperparameters and the data
   it was fitted on (the estimator is seeded, so its state is a function
   of both) *)
| VSklearnPipeline (hp : list Value) (state : FitState).
#[local] Set Elimination Schemes.

Definition type_name (v : Value) : string :=
  match v with
  | VNone => "NoneType"
  | VInt _ => "int"
  | VStr _ => "str"
  | VLabelEncoder _ => "LabelEncoder"
  | VBaselinePipeline _ | VSklearnPipeline _ _ => "Pipeline"
  end.

Definition no_attribute {A} (v : Value) (attr : string) : Result A :=
  Raise (Exn CAttributeError
    (String.append "'" (String.append (type_name v)
      (String.append "' object has no attribute '" (String.append attr "'"))))).

(** The libraries under the models.  scikit-learn's part of
    [SKLearnPipelineModel]: fitting the column transformer and the random
    forest, and predicting with the pipeline in the state it is in (the
    codes, or the library's error, also for a pipeline that is not
    fitted).  numpy's part of [MostFrequentCategoryByMerchant]: pandas
    sorts with numpy's quicksort, which is not stable; [quicksort_ranks]
    gives, for the column that is sorted, the rank that decides between
    positions of equal key. *)
Class Estimators := {
  sklearn_fit : list Value -> list FeatRow -> list Z -> Result unit;
  sklearn_predict : list Value -> FitState -> list FeatRow -> Result (list Z);
  quicksort_ranks : list nat -> list Z
}.

(** *** sklearn.preprocessing.LabelEncoder *)

Module LabelEncoder.

Fixpoint insert_unique (s : string) (l : list string) : list string :=
  match l with
  | [] => [s]
  | x :: l' =>
      match String.compare s x with
      | Lt => s :: x :: l'
      | Eq => x :: l'
      | Gt => x :: insert_unique s l'
      end
  end.

(** [np.unique]: the distinct labels in increasing order. *)
Definition unique (y : list string) : list string := foldr insert_unique [] y.

Fixpoint index_of (s : string) (classes : list string) : option Z :=
  match classes with
  | [] => None
  | x :: l => if String.eqb s x then Some 0 else Z.succ <$> index_of s l
  end.

Fixpoint transform (classes : list string) (y : list string) : Result (list Z) :=
  match y with
  | [] => Ok []
  | s :: y' =>
      match index_of s classes with
      | Some c => cs <~ transform classes y' ; Ok (c :: cs)
      | None => Raise (Exn CValueError "y contains previously unseen labels")
      end
  end.

Definition known (classes : list string) (c : Z) : bool :=
  (0 <=? c) && (c <? Z.of_nat (length classes)).

Definition inverse_transform (classes : list string) (y : list Z)
  : Result (list string) :=
  match y with
  | [] => Ok []
  | _ =>
      if forallb (known classes) y
      then Ok (map (fun c => nth (Z.to_nat c) classes "") y)
      else Raise (Exn CValueError "y contains previously unseen labels")
  end.

End LabelEncoder.

(** *** MostFrequentCategoryByMerchant *)

Module MostFrequentCategoryByMerchant.

(** A line of [merchant_label_counts]: (MERCHANT_NAME, CATEGORY), count. *)
Definition line : Type := (string * Z) * nat.

Definition key_eqb (a b : string * Z) : bool :=
  String.eqb a.1 b.1 && (a.2 =? b.2).

Definition key_ltb (a b : string * Z) : bool :=
  match String.compare a.1 b.1 with
  | Lt => true
  | Eq => a.2 <? b.2
  | Gt => false
  end.

Fixpoint count_insert (k : string * Z) (t : list line) : list line :=
  match t with
  | [] => [(k, 1%nat)]
  | (k', n) :: t' =>
      if key_eqb k k' then (k', S n) :: t'
      else if key_ltb k k' then (k, 1%nat) :: (k', n) :: t'
      else (k', n) :: count_insert k t'
  end.

(** [df.groupby(["MERCHANT_NAME", "CATEGORY"]).size().reset_index(name="count")]:
    one line per observed pair, in increasing key order; rows whose
    merchant is missing belong to no group. *)
Definition groupby_size (merchants : list (option string)) (y : list Z)
  : list line :=
  foldl (fun t my =>
           match my.1 with
           | Some mch => count_insert (mch, my.2) t
           | None => t
           end) [] (zip merchants y).

Section Sort.
Context `{!Estimators}.

(** The lines with the ranks that the sort gives their positions. *)
Definition ranked (t : list line) : list (line * Z) :=
  let ranks := quicksort_ranks (snd <$> t) in
  imap (fun i l => (l, default 0 (ranks !! i))) t.

(** [a] is sorted before [b]: its count is greater, or the counts are
    equal and its rank is smaller. *)
Definition precedes (a b : line * Z) : bool :=
  (b.1.2 <? a.1.2)%nat || ((a.1.2 =? b.1.2)%nat && (a.2 <? b.2)).

Fixpoint insert_desc (x : line * Z) (l : list (line * Z)) : list (line * Z) :=
  match l with
  | [] => [x]
  | y :: l' => if precedes y x then y :: insert_desc x l' else x :: y :: l'
  end.

(** [sort_values("count", ascending=False)]: by decreasing count, the
    lines of equal count in the order of their ranks. *)
Definition sort_values_count (t : list line) : list line :=
  fst <$> foldr insert_desc [] (ranked t).

End Sort.

(** [drop_duplicates("MERCHANT_NAME")]: the first line of each merchant. *)
Fixpoint drop_duplicates_merchant (seen : list string) (t : list line)
  : list line :=
  match t with
  | [] => []
  | ((mch, c), n) :: t' =>
      if existsb (String.eqb mch) seen then drop_duplicates_merchant seen t'
      else ((mch, c), n) :: drop_duplicates_merchant (mch :: seen) t'
  end.

(** [dict(zip(most_frequent["MERCHANT_NAME"], most_frequent["CATEGORY"]))] *)
Definition to_dict (t : list line) : gmap string Z :=
  foldl (fun d l => <[l.1.1 := l.1.2]> d) ∅ t.

Definition fit `{!Estimators} (X : list FeatRow) (y : list Z)
  : Result (gmap string Z) :=
  (* df["CATEGORY"] = y *)
  if (length X =? length y)%nat then
    let merchant_label_counts :=
      groupby_size (schemas.FeatInputsSchema.MERCHANT_NAME <$> X) y in
    let most_frequent :=
      drop_duplicates_merchant [] (sort_values_count merchant_label_counts) in
    Ok (to_dict most_frequent)
  else Raise (Exn CValueError "Length of values does not match length of index").

(** [np.nan_to_num(outputs, nan=25.0).astype(int)]: a merchant that the
    table does not know (or a missing one) maps to NaN, hence to 25. *)
Definition transform (merchant_to_category_ : gmap string Z) (X : list FeatRow)
  : list Z :=
  map (fun r =>
         match schemas.FeatInputsSchema.MERCHANT_NAME r with
         | Some mch => default 25 (merchant_to_category_ !! mch)
         | None => 25
         end) X.

End MostFrequentCategoryByMerchant.

(** *** Method calls on the objects held by [pipeline] and [le] *)

Section Dispatch.
Context `{!Estimators}.

(** [pipeline.fit(inputs, targets_)] works on the pipeline object in place:
    the outcome of the call, and the object after it. *)
Definition call_fit (p : Value) (X : list FeatRow) (y : list Z)
  : Result unit * Value :=
  match p with
  | VBaselinePipeline _ =>
      match MostFrequentCategoryByMerchant.fit X y with
      | Ok d => (Ok tt, VBaselinePipeline d)
      | Raise e => (Raise e, p)
      end
  | VSklearnPipeline hp _ =>
      match sklearn_fit hp X y with
      | Ok _ => (Ok tt, VSklearnPipeline hp (Fitted X y))
      | Raise e => (Raise e, VSklearnPipeline hp (FitFailed X y))
      end
  | _ => (no_attribute p "fit", p)
  end.

(** [pipeline.transform(inputs)]; a pipeline that ends in a classifier has
    no [transform]. *)
Definition call_transform (p : Value) (X : list FeatRow) : Result (list Z) :=
  match p with
  | VBaselinePipeline d => Ok (MostFrequentCategoryByMerchant.transform d X)
  | _ => no_attribute p "transform"
  end.

(** [pipeline.predict(inputs)]; a pipeline that ends in a transformer has
    no [predict]. *)
Definition call_predict (p : Value) (X : list FeatRow) : Result (list Z) :=
  match p with
  | VSklearnPipeline hp state => sklearn_predict hp state X
  | _ => no_attribute p "predict"
  end.

Definition call_le_transform (le : Value) (y : list string) : Result (list Z) :=
  match le with
  | VLabelEncoder (Some classes) => LabelEncoder.transform classes y
  | VLabelEncoder None =>
      Raise (Exn CNotFittedError "This LabelEncoder instance is not fitted yet")
  | _ => no_attribute le "transform"
  end.

Definition call_le_inverse_transform (le : Value) (y : list Z)
  : Result (list string) :=
  match le with
  | VLabelEncoder (Some classes) => LabelEncoder.inverse_transform classes y
  | VLabelEncoder None =>
      Raise (Exn CNotFittedError "This LabelEncoder instance is not fitted yet")
  | _ => no_attribute le "inverse_transform"
  end.

End Dispatch.

(** *** class Model(pdt.BaseModel, strict=True, frozen=False, extra="forbid") *)

Inductive ModelClass := CBaselineModel | CSKLearnPipelineModel.

Definition class_name (c : ModelClass) : string :=
  match c with
  | CBaselineModel => "BaselineModel"
  | CSKLearnPipelineModel => "SKLearnPipelineModel"
  end.

(** The annotations of the declared fields. *)
Inductive FieldType := TInt | TStr | TNone | TLiteral (s : string).

(** Strict validation: no coercion between types. *)
Definition type_ok (ty : FieldType) (v : Value) : bool :=
  match ty, v with
  | TInt, VInt _ => true
  | TStr, VStr _ => true
  | TNone, VNone => true
  | TLiteral s, VStr s' => String.eqb s s'
  | _, _ => false
  end.

(** The fields of each class, in declaration order, with their defaults. *)
Definition model_fields (c : ModelClass) : list (string * (FieldType * Value)) :=
  match c with
  | CBaselineModel =>
      [ ("KIND", (TLiteral "BaselineModel", VStr "BaselineModel"));
        ("corespondance_table_path", (TStr, VStr "data/corespondance_table.csv"));
        ("pipeline", (TNone, VNone));
        ("le", (TNone, VNone)) ]
  | CSKLearnPipelineModel =>
      [ ("KIND", (TLiteral "SKLearnPipelineModel", VStr "SKLearnPipelineModel"));
        ("max_features_desc", (TInt, VInt 1000));
        ("n_components_desc", (TInt, VInt 50));
        ("max_features_merch", (TInt, VInt 500));
        ("n_components_merch", (TInt, VInt 30));
        ("random_state", (TInt, VInt 42));
        ("n_estimators", (TInt, VInt 200));
        ("max_depth", (TInt, VInt 30));
        ("n_jobs", (TInt, VInt (-1)));
        ("pipeline", (TNone, VNone));
        ("le", (TNone, VNone)) ]
  end.

Definition declared (c : ModelClass) : gmap string (FieldType * Value) :=
  list_to_map (model_fields c).

Definition defaults (c : ModelClass) : gmap string Value := snd <$> declared c.

(** An instance: its class (which selects the methods), its fields and,
    in [others], the instance attributes that are not fields: what
    [setattr] stored under names that start with an underscore. *)
Record Model := MkModel {
  class_of : ModelClass;
  fields : gmap string Value;
  others : gmap string Value
}.

Definition field_ok (c : ModelClass) (k : string) (v : Value) : bool :=
  match declared c !! k with
  | Some (ty, _) => type_ok ty v
  | None => false   (* extra="forbid" *)
  end.

(** [cls(k1=v1, ...)]: every keyword must name a declared field and carry a
    value of its type; the other fields take their defaults. *)
Definition init (c : ModelClass) (kwargs : gmap string Value) : Result Model :=
  if bool_decide (map_Forall (fun k v => field_ok c k v = true) kwargs)
  then Ok (MkModel c (kwargs ∪ defaults c) ∅)
  else Raise (Exn CValidationError (class_name c)).

(** [self.name] for a data attribute: a field, or an attribute that was
    stored beside the fields. *)
Definition getattr (name : string) : M Model Value :=
  fun m =>
    match fields m !! name, others m !! name with
    | Some v, _ => (Ok v, m)
    | None, Some v => (Ok v, m)
    | None, None =>
        (Raise (Exn CAttributeError
           (String.append "object has no attribute " name)), m)
    end.

(** In-place update of what a field holds. *)
Definition assign (name : string) (v : Value) : M Model unit :=
  fun m => (Ok tt, MkModel (class_of m) (<[name := v]> (fields m)) (others m)).

(** The error of [setattr] for a name that is neither a field nor starts
    with an underscore: [model_extra] and [model_fields_set] are
    properties without a setter, any other name is an extra field, which
    the class forbids. *)
Definition refusal (name : string) : exn :=
  if bool_decide (name ∈ ["model_extra"; "model_fields_set"])
  then Exn CAttributeError (String.append "property has no setter: " name)
  else Exn CValueError (String.append "object has no field " name).

(** [setattr(self, name, value)] on a pydantic model that is not frozen,
    does not validate assignments and forbids extra fields.  The value
    of a field is replaced as it is.  A name that starts with an
    underscore is no field name for pydantic (no declared field starts
    with one), which hands it to [object.__setattr__]: the value becomes
    an instance attribute, unless the name is [__class__] or [__dict__],
    which take a class and a dictionary only. *)
Definition setattr (name : string) (v : Value) : M Model unit :=
  fun m =>
    match fields m !! name with
    | Some _ => assign name v m
    | None =>
        if startswith name "_" then
          if bool_decide (name ∈ ["__class__"; "__dict__"])
          then (Raise (Exn CTypeError
                         (String.append name " must be set to a class or a dictionary")),
                m)
          else (Ok tt, MkModel (class_of m) (fields m) (<[name := v]> (others m)))
        else (Raise (refusal name), m)
    end.

(** [self.name(...)] for a method that the class defines: an instance
    attribute of this name hides the method, and none of the values an
    attribute holds here can be called. *)
Definition call_method {A} (name : string) (body : M Model A) : M Model A :=
  fun m =>
    match others m !! name with
    | Some v =>
        (Raise (Exn CTypeError
                  (String.append "'" (String.append (type_name v)
                     "' object is not callable"))), m)
    | None => body m
    end.

(** [self.model_dump()]: the fields hold no nested pydantic model, so the
    dump is the field dictionary. *)
Definition model_dump (m : Model) : gmap string Value := fields m.

Definition is_param (key : string) : bool :=
  negb (startswith key "_") && negb (isupper key).

Definition get_params (m : Model) (deep : bool) : gmap string Value :=
  filter (fun kv => is_param kv.1 = true) (model_dump m).

(** What a method hands back to its caller: [None] or the receiver. *)
Inductive Ref := RNone | RSelf.

Fixpoint set_params_loop (params : list (string * Value)) : M Model unit :=
  match params with
  | [] => ret tt
  | (key, value) :: rest => setattr key value >> set_params_loop rest
  end.

(** [set_params], its keywords in the order of [params.items()]. *)
Definition set_params (params : list (string * Value)) : M Model Ref :=
  set_params_loop params >> ret RSelf.

(** [set_params] applied to an unpacked dictionary. *)
Definition set_params_dict (params : gmap string Value) : M Model Ref :=
  set_params (map_to_list params).

Section Methods.
Context `{!Estimators}.

(** [self.le.fit_transform(targets)]: fits the encoder held by [le] and
    returns the codes of the targets. *)
Definition le_fit_transform (targets : list string) : M Model (list Z) :=
  le <- getattr "le" ;
  match le with
  | VLabelEncoder _ =>
      let classes := LabelEncoder.unique targets in
      assign "le" (VLabelEncoder (Some classes)) >>
      lift (LabelEncoder.transform classes targets)
  | _ => lift (no_attribute le "fit_transform")
  end.

(** [self.pipeline.fit(inputs, targets_)] *)
Definition pipeline_fit (inputs : list FeatRow) (targets_ : list Z) : M Model unit :=
  p <- getattr "pipeline" ;
  let '(outcome, p') := call_fit p inputs targets_ in
  assign "pipeline" p' >>
  lift outcome.

Definition _encode_target (outputs : list string) : M Model (list Z) :=
  le <- getattr "le" ;
  lift (call_le_transform le outputs).

Definition _decode_target (outputs_encoded : list Z) : M Model (list string) :=
  le <- getattr "le" ;
  lift (call_le_inverse_transform le outputs_encoded).

Definition BaselineModel_fit (inputs : list FeatRow) (targets : list string)
  : M Model Ref :=
  setattr "le" (VLabelEncoder None) >>
  targets_ <- le_fit_transform targets ;
  setattr "pipeline" (VBaselinePipeline ∅) >>
  pipeline_fit inputs targets_ >>
  ret RNone.

Definition BaselineModel_predict (inputs : list FeatRow) : M Model (list string) :=
  p <- getattr "pipeline" ;
  outputs <- lift (call_transform p inputs) ;
  call_method "_decode_target" (_decode_target outputs).

(** The hyperparameters that [_create_pipeline] passes to the estimators. *)
Definition _create_pipeline : M Model Value :=
  max_features_desc <- getattr "max_features_desc" ;
  n_components_desc <- getattr "n_components_desc" ;
  random_state <- getattr "random_state" ;
  max_features_merch <- getattr "max_features_merch" ;
  n_components_merch <- getattr "n_components_merch" ;
  n_estimators <- getattr "n_estimators" ;
  max_depth <- getattr "max_depth" ;
  n_jobs <- getattr "n_jobs" ;
  ret (VSklearnPipeline
         [max_features_desc; n_components_desc; max_features_merch;
          n_components_merch; n_estimators; max_depth; n_jobs; random_state]
         Unfitted).

Definition SKLearnPipelineModel_fit (inputs : list FeatRow) (targets : list string)
  : M Model Ref :=
  setattr "le" (VLabelEncoder None) >>
  targets_ <- le_fit_transform targets ;
  pipeline <- call_method "_create_pipeline" _create_pipeline ;
  setattr "pipeline" pipeline >>
  pipeline_fit inputs targets_ >>
  ret RNone.

Definition SKLearnPipelineModel_predict (inputs : list FeatRow)
  : M Model (list string) :=
  p <- getattr "pipeline" ;
  outputs <- lift (call_predict p inputs) ;
  call_method "_decode_target" (_decode_target outputs).

(** Method resolution by the class of the receiver. *)
Definition fit (inputs : list FeatRow) (targets : list string) : M Model Ref :=
  fun m =>
    match class_of m with
    | CBaselineModel => BaselineModel_fit inputs targets m
    | CSKLearnPipelineModel => SKLearnPipelineModel_fit inputs targets m
    end.

Definition predict (inputs : list FeatRow) : M Model (list string) :=
  fun m =>
    match class_of m with
    | CBaselineModel => BaselineModel_predict inputs m
    | CSKLearnPipelineModel => SKLearnPipelineModel_predict inputs m
    end.

(** [r.predict(inputs)] where [r] is what an earlier call returned. *)
Definition predict_on (r : Ref) (inputs : list FeatRow) : M Model (list string) :=
  match r with
  | RSelf => predict inputs
  | RNone => lift (no_attribute VNone "predict")
  end.

End Methods.

End models.

(** ** Generators *)

(** A generator that has been run to its end: the values it yielded, and
    the exception that ended it, if any. *)
Record Generator (A : Type) := MkGen { yielded : list A; ended_by : option exn }.
Arguments MkGen {A} yielded ended_by.
Arguments yielded {A} g.
Arguments ended_by {A} g.

(** [next(g)] on a fresh generator. *)
Definition next {A} (g : Generator A) : Result A :=
  match yielded g, ended_by g with
  | x :: _, _ => Ok x
  | [], Some e => Raise e
  | [], None => Raise (Exn CException "StopIteration")
  end.

(** ** utils/splitters.py *)

Module splitters.

(** [test_size: int | float] *)
Inductive Size := SizeInt (n : Z) | SizeFloat (x : float).

Definition Index : Type := list Z.
Definition TrainTestIndex : Type := Index * Index.

(** [sklearn.model_selection.train_test_split(index, test_size=...,
    random_state=..., stratify=...)]: the two parts, or the library's
    error. *)
Class ModelSelection := {
  train_test_split :
    Index -> Size -> Z -> option (list string) -> Result TrainTestIndex
}.

(** What scikit-learn documents of a split that it returns: the two parts
    together are a rearrangement of the array that was given. *)
Definition partitions `{!ModelSelection} : Prop :=
  forall index test_size random_state stratify train test,
    train_test_split index test_size random_state stratify = Ok (train, test) ->
    train ++ test ≡ₚ index.

Record TrainTestSplitter := MkTrainTestSplitter {
  test_size : Size;
  random_state : Z;
  stratify : bool
}.

Definition default : TrainTestSplitter :=
  MkTrainTestSplitter (SizeFloat 0x1.999999999999ap-3%float) 42 true.

(** [np.arange(n)] *)
Definition arange (n : nat) : Index := Z.of_nat <$> seq 0 n.

Section Split.
Context `{!ModelSelection}.

Definition split {A} (self : TrainTestSplitter) (inputs : list A)
    (targets : list string) (groups : option Index)
  : Generator TrainTestIndex :=
  let index := arange (length inputs) in
  match train_test_split index (test_size self) (random_state self)
          (if stratify self then Some targets else None) with
  | Ok (train_index, test_index) => MkGen [(train_index, test_index)] None
  | Raise e => MkGen [] (Some e)
  end.

Definition get_n_splits {A} (self : TrainTestSplitter) (inputs : list A)
    (targets : list string) (groups : option Index) : Z := 1.

End Split.

End splitters.

(** ** utils/signers.py *)

Module signers.

(** What a name of the module [schemas] is bound to: one of the schema
    classes, another class, or an object that is not a class (an imported
    module, the type variable [TSchema], the aliases [Inputs], [Targets],
    [Outputs]). *)
Inductive Attr := SchemaClass | OtherClass | NotAClass.

Section Names.
(** What the interpreter itself binds on a module object under the names
    that start with two underscores ([__name__], [__doc__], [__class__],
    ...); the list depends on the version of Python. *)
Variable dunder : string -> option Attr.

(** [getattr(schemas, value, None)]: the names that schemas.py binds, then
    those of the interpreter. *)
Definition schemas_getattr (value : string) : option Attr :=
  if bool_decide (value ∈ ["Schema"; "InputsSchema"; "FeatInputsSchema";
                           "TargetsSchema"; "OutputsSchema"])
  then Some SchemaClass
  else if bool_decide (value ∈ ["datetime"; "T"; "pd"; "pa"; "papd"; "padt";
                                "TSchema"; "Inputs"; "Targets"; "Outputs"])
  then Some NotAClass
  else if startswith value "__" then dunder value
  else None.

(** [check_schema_name], as the caller of the constructor sees it: the
    validator's [ValueError] reaches the caller as pydantic's
    [ValidationError]; [issubclass] rejects an argument that is not a
    class with a [TypeError], which pydantic lets through. *)
Definition check_schema_name (value : string) : Result string :=
  match schemas_getattr value with
  | None | Some OtherClass =>
      Raise (Exn CValidationError
        (String.append "Schema name was not found in module. Got: "
           (String.append value ".")))
  | Some NotAClass => Raise (Exn CTypeError "issubclass() arg 1 must be a class")
  | Some SchemaClass => Ok value
  end.

End Names.

Definition PANDERA_MLFLOW_MAPPING : gmap string string :=
  list_to_map
    [ ("bool", "boolean"); ("int", "long"); ("int8", "integer");
      ("int16", "integer"); ("int32", "integer"); ("int64", "long");
      ("uint", "long"); ("uint8", "integer"); ("uint16", "integer");
      ("uint32", "integer"); ("uint64", "long"); ("float", "float");
      ("float16", "float"); ("float32", "float"); ("float64", "double");
      ("category", "string"); ("string", "string"); ("date", "datetime");
      ("timestamp", "datetime"); ("datetime", "datetime");
      ("binary", "binary") ].

Record PanderaSigner := MkPanderaSigner {
  inputs_schema_name : string;
  outputs_schema_name : string;
  mapping : gmap string string      (* the field PANDERA_MLFLOW_MAPPING *)
}.

(** [PanderaSigner(inputs_schema_name=..., outputs_schema_name=...)]; a
    name that is not given keeps its default and is not validated.
    pydantic validates the fields in the order of their declaration and
    goes on after a validation error, to report them together (here under
    the message of the first); an exception of another kind leaves the
    validation at once. *)
Definition init (dunder : string -> option Attr)
    (inputs_name outputs_name : option string) : Result PanderaSigner :=
  let i := from_option (check_schema_name dunder) (Ok "InputsSchema") inputs_name in
  let o := from_option (check_schema_name dunder) (Ok "OutputsSchema") outputs_name in
  match i, o with
  | Ok i, Ok o => Ok (MkPanderaSigner i o PANDERA_MLFLOW_MAPPING)
  | Ok _, Raise e => Raise e
  | Raise e, Ok _ => Raise e
  | Raise e, Raise e' =>
      if isinstance e CValidationError && negb (isinstance e' CValidationError)
      then Raise e'
      else Raise e
  end.

(** A column of [pandera_schema.to_schema().columns]. *)
Record PanderaColumn := MkPanderaColumn {
  col_name : string;
  col_required : bool;
  col_dtype : string        (* str(pandera_col_spec.dtype) *)
}.

(** [mlflow.types.schema.ColSpec] *)
Record ColSpec := MkColSpec {
  spec_name : string;
  spec_optional : bool;
  spec_type : string
}.

(** The names of the members of [mlflow.types.DataType]. *)
Definition DataType : list string :=
  ["boolean"; "integer"; "long"; "float"; "double"; "string"; "binary"; "datetime"].

(** [mlflow_schemas.ColSpec(name=..., optional=..., type=...)]: a type
    that is given as a string has to name a member of [DataType]. *)
Definition ColSpec_ (name : string) (optional : bool) (type : string)
  : Result ColSpec :=
  if bool_decide (type ∈ DataType) then Ok (MkColSpec name optional type)
  else Raise (Exn CMlflowException (String.append "Unsupported type " type)).

(** [mlflow_schemas.Schema(inputs)]: MLflow refuses to create a schema
    without columns.  A schema is kept as the list of its columns. *)
Definition Schema_ (inputs : list ColSpec) : Result (list ColSpec) :=
  match inputs with
  | [] =>
      Raise (Exn CMlflowException
               "Creating Schema with empty inputs is not allowed.")
  | _ => Ok inputs
  end.

(** [d[key]] on a Python dict. *)
Definition getitem (d : gmap string string) (key : string) : Result string :=
  match d !! key with
  | Some v => Ok v
  | None => Raise (Exn CKeyError key)
  end.

(** The loop over the columns, from the specs collected so far. *)
Fixpoint convert_columns (self : PanderaSigner) (cols : list PanderaColumn)
    (mlflow_col_specs : list ColSpec) : Result (list ColSpec) :=
  match cols with
  | [] => Ok mlflow_col_specs
  | c :: rest =>
      let optional := negb (col_required c) in
      let pandera_dtype_name := col_dtype c in
      mlflow_dtype_name <~ getitem (mapping self) pandera_dtype_name ;
      mlflow_col_spec <~ ColSpec_ (col_name c) optional mlflow_dtype_name ;
      convert_columns self rest (mlflow_col_specs ++ [mlflow_col_spec])
  end.

Definition _convert_pandera_to_mlflow (self : PanderaSigner)
    (pandera_col_specs : list PanderaColumn) : Result (list ColSpec) :=
  mlflow_col_specs <~ convert_columns self pandera_col_specs [] ;
  Schema_ mlflow_col_specs.

(** [Signature(inputs=..., outputs=...)] *)
Record Signature := MkSignature { sig_inputs : list ColSpec; sig_outputs : list ColSpec }.

(** [PanderaSigner.sign]; [to_schema] gives the columns of the schema class
    of a given name. *)
Definition sign (to_schema : string -> list PanderaColumn) (self : PanderaSigner)
  : Result Signature :=
  let pandera_inputs_schema := to_schema (inputs_schema_name self) in
  let pandera_outputs_schema := to_schema (outputs_schema_name self) in
  mlflow_inputs_schema <~ _convert_pandera_to_mlflow self pandera_inputs_schema ;
  mlflow_outputs_schema <~ _convert_pandera_to_mlflow self pandera_outputs_schema ;
  Ok (MkSignature mlflow_inputs_schema mlflow_outputs_schema).

End signers.

(** ** core/metrics.py *)

Module metrics.

Record SklearnMetric := MkSklearnMetric {
  name : string;
  greater_is_better : bool
}.

Definition default : SklearnMetric := MkSklearnMetric "accuracy_score" true.

(** [score]; [sklearn_metric] is [getattr(sklearn.metrics, name)]. *)
Definition score
    (sklearn_metric : string -> option (list Z -> list Z -> Result float))
    (self : SklearnMetric) (targets outputs : list Z) : Result float :=
  match sklearn_metric (name self) with
  | None =>
      Raise (Exn CAttributeError
        (String.append "module 'sklearn.metrics' has no attribute " (name self)))
  | Some metric =>
      let sign := if greater_is_better self then 1%float else (-1)%float in
      score <~ metric outputs targets ;
      Ok (PrimFloat.mul score sign)
  end.

End metrics.

(** ** io/services.py *)

Module services.

Record AWSService := MkAWSService {
  region_name : string;
  profile_name : option string
}.

Record LoggerService := MkLoggerService {
  sink : string;
  level : string;
  colorize : bool;
  serialize : bool;
  backtrace : bool;
  diagnose : bool;
  catch : bool
}.

Record RunConfig := MkRunConfig {
  run_name : string;
  description : option string;
  log_system_metrics : option bool
}.

Record MlflowService := MkMlflowService {
  tracking_uri : string;
  registry_uri : string;
  experiment_name : string;
  registry_name : string
}.

Definition default_aws : AWSService := MkAWSService "eu-west-1" None.
Definition default_logger : LoggerService :=
  MkLoggerService "stderr" "DEBUG" true false true false true.
Definition default_mlflow : MlflowService :=
  MkMlflowService "databricks" "databricks"
    "/experiments/qto-categorizer/qto-categorizer-xp-tracking-ml"
    "qto-categorizer-ml".

End services.

(** ** io/datasets.py and the signer, saver and register configurations *)

Module datasets.
Inductive ReaderKind :=
| ParquetReader (path : string)
| GlueReader (database table : string)
| DeltalakeReader (path : string)
| CSVReader (path : string).
End datasets.

Inductive SignerKind :=
| InferSigner
| ManualSigner (inputs_specs outputs_specs : list (string * string))
| PanderaSigner (s : signers.PanderaSigner).

(** ** The process and its collaborators *)

Inductive service := Logger | AWS | Mlflow.

#[global] Instance service_eq_dec : EqDecision service.
Proof. solve_decision. Defined.

(** The calls that leave the package, in the order they are made. *)
Inductive event :=
| Start (s : service)
| Stop (s : service)
| Log (level message : string)
| StartRun (config : services.RunConfig)
| EndRun (status : string)
| Read (reader : datasets.ReaderKind)
| Check (data : list FeatRow)
| Split (n : nat) (targets : list string)
| Fit (inputs : list FeatRow) (targets : list string)
| Predict (inputs : list FeatRow)
| Score (metric : string) (targets outputs : list Z)
| LogMetric (run_id key : string) (value : float)
| Sign (inputs : list FeatRow) (outputs : list string)
| Save (model : models.Model) (signature : signers.Signature)
       (input_example : list FeatRow)
| Register (name model_uri : string).

(** The world a job runs in: the calls made so far, and the Model object
    that the job configuration refers to. *)
Record World := MkWorld { trace : list event; model : models.Model }.

(** The collaborators outside the package.  What a call returns may depend
    on everything that happened before it. *)
Class Platform := {
  loguru_add : list event -> services.LoggerService -> Result unit;
  boto3_setup_default_session : list event -> services.AWSService -> Result unit;
  mlflow_setup : list event -> services.MlflowService -> Result unit;
  mlflow_start_run : list event -> services.RunConfig -> Result string;
  reader_read :
    list event -> datasets.ReaderKind -> Result (list schemas.InputsSchema.row);
  sklearn_metric : string -> option (list Z -> list Z -> Result float);
  client_log_metric : list event -> string -> string -> float -> Result unit;
  mlflow_infer_signature :
    list FeatRow -> list string -> Result signers.Signature;
  mlflow_signature_from_dict :
    list (string * string) -> list (string * string) -> Result signers.Signature;
  pandera_to_schema : string -> list signers.PanderaColumn;
  (* io/registries.py: Saver.save returns the model URI, Register.register
     the version number *)
  saver_save :
    list event -> models.Model -> signers.Signature -> list FeatRow -> Result string;
  registry_register : list event -> string -> string -> Result Z
}.

Definition emit (e : event) : M World unit :=
  fun w => (Ok tt, MkWorld (trace w ++ [e]) (model w)).

(** An outside call: recorded, then answered from the history before it. *)
Definition call {A} (e : event) (answer : list event -> Result A) : M World A :=
  fun w => (answer (trace w), MkWorld (trace w ++ [e]) (model w)).

(** A method of the job's Model. *)
Definition on_model {A} (c : M models.Model A) : M World A :=
  fun w => let '(r, m) := c (model w) in (r, MkWorld (trace w) m).

(** [logger.debug], [logger.info]: loguru writes the record to its sink. *)
Definition log (level message : string) : M World unit := emit (Log level message).

(** [with enter as r: body]: [exit_] runs whenever [enter] returned; what it
    returns decides whether the exception of the body is suppressed. *)
Definition with_ {W R A} (enter : M W R) (exit_ : option exn -> M W bool)
    (body : R -> M W A) : M W (option A) :=
  fun w =>
    match enter w with
    | (Raise e, w1) => (Raise e, w1)
    | (Ok r, w1) =>
        match body r w1 with
        | (Ok a, w2) =>
            match exit_ None w2 with
            | (Ok _, w3) => (Ok (Some a), w3)
            | (Raise e', w3) => (Raise e', w3)
            end
        | (Raise e, w2) =>
            match exit_ (Some e) w2 with
            | (Ok true, w3) => (Ok None, w3)
            | (Ok false, w3) => (Raise e, w3)
            | (Raise e', w3) => (Raise e', w3)
            end
        end
    end.

Section Services.
Context `{!Platform}.

Definition LoggerService_start (self : services.LoggerService) : M World unit :=
  call (Start Logger) (fun h => loguru_add h self).

Definition AWSService_start (self : services.AWSService) : M World unit :=
  call (Start AWS) (fun h => boto3_setup_default_session h self).

Definition MlflowService_start (self : services.MlflowService) : M World unit :=
  call (Start Mlflow) (fun h => mlflow_setup h self).

(** [Service.stop]: "does nothing by default", and no service overrides it. *)
Definition Service_stop (s : service) : M World unit := emit (Stop s).

(** [MlflowService.run_context]: the scope of [mlflow.start_run], which
    ends the run as FINISHED or FAILED and suppresses nothing. *)
Definition run_context_enter (config : services.RunConfig) : M World string :=
  call (StartRun config) (fun h => mlflow_start_run h config).

Definition run_context_exit (exc : option exn) : M World bool :=
  emit (EndRun (match exc with Some _ => "FAILED" | None => "FINISHED" end)) >>
  ret (bool_decide (exc = None)).

End Services.

(** ** jobs/base.py *)

Module base.

Inductive JobKind := TuningJob | TrainingJob | TransitionJob | InferenceJob.

Record Job := MkJob {
  KIND : JobKind;
  aws_service : services.AWSService;
  logger_service : services.LoggerService;
  mlflow_service : services.MlflowService
}.

Section Context_.
Context `{!Platform}.

Definition __enter__ (self : Job) : M World Job :=
  LoggerService_start (logger_service self) >>
  log "DEBUG" "[START] Logger service: {}" >>
  log "DEBUG" "[START] AWS service: {}" >>
  AWSService_start (aws_service self) >>
  log "DEBUG" "[START] Mlflow service: {}" >>
  MlflowService_start (mlflow_service self) >>
  ret self.

Definition __exit__ (self : Job) (exc_value : option exn) : M World bool :=
  log "DEBUG" "[STOP] Mlflow service: {}" >>
  Service_stop Mlflow >>
  log "DEBUG" "[STOP] AWS service: {}" >>
  Service_stop AWS >>
  log "DEBUG" "[STOP] Logger service: {}" >>
  Service_stop Logger >>
  ret false.

(** [with job as runner: body] *)
Definition with_job {A} (job : Job) (body : Job -> M World A) : M World (option A) :=
  with_ (__enter__ job) (__exit__ job) body.

End Context_.

End base.

(** ** jobs/training.py *)

Module training.

(** A row of [inputs_[features + [target]]]. *)
Definition select (r : schemas.InputsSchema.row) : FeatRow * string :=
  (schemas.FeatInputsSchema.Row
     (schemas.InputsSchema.AMOUNT r)
     (schemas.InputsSchema.TYPE_OF_PAYMENT r)
     (schemas.InputsSchema.MERCHANT_NAME r)
     (schemas.InputsSchema.DESCRIPTION r),
   schemas.InputsSchema.CATEGORY r).

(** Equality of cells as pandas sees it: two missing values are equal. *)
Definition float_eqb (x y : float) : bool :=
  PrimFloat.eqb x y || (PrimFloat.is_nan x && PrimFloat.is_nan y).

Definition cell_eqb (x y : option string) : bool :=
  match x, y with
  | Some a, Some b => String.eqb a b
  | None, None => true
  | _, _ => false
  end.

Definition row_eqb (a b : FeatRow * string) : bool :=
  float_eqb (schemas.FeatInputsSchema.AMOUNT a.1) (schemas.FeatInputsSchema.AMOUNT b.1)
  && cell_eqb (schemas.FeatInputsSchema.TYPE_OF_PAYMENT a.1)
              (schemas.FeatInputsSchema.TYPE_OF_PAYMENT b.1)
  && cell_eqb (schemas.FeatInputsSchema.MERCHANT_NAME a.1)
              (schemas.FeatInputsSchema.MERCHANT_NAME b.1)
  && cell_eqb (schemas.FeatInputsSchema.DESCRIPTION a.1)
              (schemas.FeatInputsSchema.DESCRIPTION b.1)
  && String.eqb a.2 b.2.

Fixpoint drop_duplicates_from (seen rows : list (FeatRow * string))
  : list (FeatRow * string) :=
  match rows with
  | [] => []
  | r :: rest =>
      if existsb (row_eqb r) seen then drop_duplicates_from seen rest
      else r :: drop_duplicates_from (r :: seen) rest
  end.

(** [DataFrame.drop_duplicates()]: the first occurrence of each row. *)
Definition drop_duplicates (rows : list (FeatRow * string)) : list (FeatRow * string) :=
  drop_duplicates_from [] rows.

(** [Series.fillna(value)] *)
Definition fillna (value : string) (cell : option string) : option string :=
  match cell with
  | Some s => Some s
  | None => Some value
  end.

(** The three assignments of "missing values cleaning". *)
Definition impute (r : FeatRow) : FeatRow :=
  schemas.FeatInputsSchema.Row
    (schemas.FeatInputsSchema.AMOUNT r)
    (fillna "No type payment" (schemas.FeatInputsSchema.TYPE_OF_PAYMENT r))
    (fillna "No marchant" (schemas.FeatInputsSchema.MERCHANT_NAME r))
    (fillna "No Description" (schemas.FeatInputsSchema.DESCRIPTION r)).

(** A position of [iloc]: negative positions count from the end. *)
Definition at_position {A} (rows : list A) (i : Z) : Result A :=
  let n := Z.of_nat (length rows) in
  let j := if i <? 0 then n + i else i in
  match (if (0 <=? j) && (j <? n) then rows !! Z.to_nat j else None) with
  | Some r => Ok r
  | None => Raise (Exn CIndexError "positional indexers are out-of-bounds")
  end.

Fixpoint iloc {A} (rows : list A) (index : list Z) : Result (list A) :=
  match index with
  | [] => Ok []
  | i :: rest =>
      r <~ at_position rows i ;
      rs <~ iloc rows rest ;
      Ok (r :: rs)
  end.

Definition complete (r : FeatRow) : bool :=
  negb (PrimFloat.is_nan (schemas.FeatInputsSchema.AMOUNT r))
  && bool_decide (is_Some (schemas.FeatInputsSchema.TYPE_OF_PAYMENT r))
  && bool_decide (is_Some (schemas.FeatInputsSchema.MERCHANT_NAME r))
  && bool_decide (is_Some (schemas.FeatInputsSchema.DESCRIPTION r)).

(** [DataFrame.dropna()] *)
Definition dropna (rows : list FeatRow) : list FeatRow := List.filter complete rows.

Record TrainingJob := MkTrainingJob {
  job : base.Job;
  run_config : services.RunConfig;
  inputs : datasets.ReaderKind;
  scorers : list metrics.SklearnMetric;
  splitter : splitters.TrainTestSplitter;
  signer : SignerKind
}.

(** The variables of [run] that the body binds. *)
Record Locals := MkLocals {
  inputs_ : list schemas.InputsSchema.row;
  l_inputs : list FeatRow;
  l_targets : list string;
  train_index : list Z;
  test_index : list Z;
  inputs_train : list FeatRow;
  inputs_test : list FeatRow;
  targets_train : list string;
  targets_test : list string;
  outputs_test : list string;
  model_signature : signers.Signature;
  model_uri : string;
  model_version : Z
}.

Section Run.
Context `{!Platform} `{!models.Estimators} `{!splitters.ModelSelection}.

Definition Signer_sign (self : SignerKind) (inputs : list FeatRow)
    (outputs : list string) : Result signers.Signature :=
  match self with
  | InferSigner => mlflow_infer_signature inputs outputs
  | ManualSigner inputs_specs outputs_specs =>
      mlflow_signature_from_dict inputs_specs outputs_specs
  | PanderaSigner s => signers.sign pandera_to_schema s
  end.

Definition model_fit (inputs : list FeatRow) (targets : list string)
  : M World models.Ref :=
  emit (Fit inputs targets) >> on_model (models.fit inputs targets).

Definition model_predict (inputs : list FeatRow) : M World (list string) :=
  emit (Predict inputs) >> on_model (models.predict inputs).

Definition score_one (run_id : string) (targets_test outputs_test : list string)
    (scorer : metrics.SklearnMetric) : M World unit :=
  log "INFO" "Compute metric: {}" >>
  targets_test_encoded <-
    on_model (models.call_method "_encode_target"
                (models._encode_target targets_test)) ;
  outputs_test_encoded <-
    on_model (models.call_method "_encode_target"
                (models._encode_target outputs_test)) ;
  score <- call (Score (metrics.name scorer) targets_test_encoded outputs_test_encoded)
             (fun _ => metrics.score sklearn_metric scorer
                         targets_test_encoded outputs_test_encoded) ;
  call (LogMetric run_id (metrics.name scorer) score)
       (fun h => client_log_metric h run_id (metrics.name scorer) score) >>
  log "DEBUG" "- Metric score: {}".

(** [for scorer in self.scorers: ...] *)
Fixpoint score_all (run_id : string) (targets_test outputs_test : list string)
    (scorers : list metrics.SklearnMetric) : M World unit :=
  match scorers with
  | [] => ret tt
  | scorer :: rest =>
      score_one run_id targets_test outputs_test scorer >>
      score_all run_id targets_test outputs_test rest
  end.

(** The block under [with self.mlflow_service.run_context(...) as run]. *)
Definition body (self : TrainingJob) (run_id : string) : M World Locals :=
  log "INFO" "With Mlflow Run: {}" >>
  log "INFO" "Read inputs: {}" >>
  inputs_ <- call (Read (inputs self)) (fun h => reader_read h (inputs self)) ;
  let selected := drop_duplicates (select <$> inputs_) in
  let targets := selected.*2 in
  let features := selected.*1 in
  checked <- call (Check features)
               (fun _ => schemas.FeatInputsSchema.check features) ;
  log "DEBUG" "- Inputs shape: {}" >>
  let inputs := impute <$> checked in
  log "INFO" "With splitter: {}" >>
  index <- call (Split (length inputs) targets)
             (fun _ => next (splitters.split (splitter self) inputs targets None)) ;
  let train_index := index.1 in
  let test_index := index.2 in
  inputs_train <- lift (iloc inputs train_index) ;
  inputs_test <- lift (iloc inputs test_index) ;
  log "DEBUG" "- Inputs train shape: {}" >>
  log "DEBUG" "- Inputs test shape: {}" >>
  targets_train <- lift (iloc targets train_index) ;
  targets_test <- lift (iloc targets test_index) ;
  log "DEBUG" "- Targets train shape: {}" >>
  log "DEBUG" "- Targets test shape: {}" >>
  log "INFO" "Fit model: {}" >>
  model_fit inputs_train targets_train >>
  log "INFO" "Predict outputs: {}" >>
  outputs_test <- model_predict inputs_test ;
  log "DEBUG" "- Outputs test shape: {}" >>
  score_all run_id targets_test outputs_test (scorers self) >>
  log "INFO" "Train model on entire dataset.." >>
  model_fit inputs targets >>
  log "INFO" "Sign model: {}" >>
  model_signature <- call (Sign (dropna inputs_test) outputs_test)
      (fun _ => Signer_sign (signer self) (dropna inputs_test) outputs_test) ;
  log "DEBUG" "- Model signature: {}" >>
  log "INFO" "Save model: {}" >>
  w <- get ;
  model_uri <- call (Save (model w) model_signature inputs)
      (fun h => saver_save h (model w) model_signature inputs) ;
  log "DEBUG" "- Model URI: {}" >>
  log "INFO" "Register model: {}" >>
  let registry_name := services.registry_name (base.mlflow_service (job self)) in
  model_version <- call (Register registry_name model_uri)
      (fun h => registry_register h registry_name model_uri) ;
  log "DEBUG" "- Model version: {}" >>
  ret (MkLocals inputs_ inputs targets train_index test_index
         inputs_train inputs_test targets_train targets_test
         outputs_test model_signature model_uri model_version).

(** [TrainingJob.run]; what it returns carries the variables of the body
    when the body ran to its end. *)
Definition run (self : TrainingJob) : M World (option Locals) :=
  log "INFO" "With logger: {}" >>
  log "INFO" "With client: {}" >>
  with_ (run_context_enter (run_config self)) run_context_exit (body self).

End Run.

End training.

(** ** Sample collaborators

    Concrete collaborators on which the statements below are exercised. *)

Module samples.

(** A classifier that accepts any data and, once fitted, predicts the
    first class; a sort that leaves equal counts in their order. *)
Definition constant_classifier : models.Estimators := {|
  models.sklearn_fit := fun _ _ _ => Ok tt;
  models.sklearn_predict := fun _ state X =>
    match state with
    | models.Fitted _ _ => Ok (map (fun _ => 0) X)
    | _ => Raise (Exn CNotFittedError "This Pipeline instance is not fitted yet")
    end;
  models.quicksort_ranks := fun _ => []
|}.

Definition row (merchant : string) : FeatRow :=
  schemas.FeatInputsSchema.Row 1%float None (Some merchant) None.

(** The training rows (merchant, label): (A, X), (A, X), (A, Y), (B, Z). *)
Definition train_inputs : list FeatRow := [row "A"; row "A"; row "A"; row "B"].
Definition train_targets : list string := ["X"; "X"; "Y"; "Z"].

(** [cls()] for a class whose defaults validate. *)
Definition construct (c : models.ModelClass) : models.Model :=
  models.MkModel c (models.defaults c) ∅.

End samples.

(** ** Views of a trace *)

Definition is_service_call (e : event) : bool :=
  match e with
  | Start _ | Stop _ => true
  | _ => false
  end.

(** The starts and stops of services, in the order they happened. *)
Definition service_calls (t : list event) : list event := List.filter is_service_call t.

Definition is_call (e : event) : bool :=
  match e with
  | Log _ _ => false
  | _ => true
  end.

(** The trace without the records written to the logger. *)
Definition calls (t : list event) : list event := List.filter is_call t.

(** The steps of the training job. *)
Inductive step :=
| SRead | SCheck | SSplit | SFit | SPredict | SScore | SLogMetric
| SSign | SSave | SRegister.

#[global] Instance step_eq_dec : EqDecision step.
Proof. solve_decision. Defined.

Definition step_of (e : event) : option step :=
  match e with
  | Read _ => Some SRead
  | Check _ => Some SCheck
  | Split _ _ => Some SSplit
  | Fit _ _ => Some SFit
  | Predict _ => Some SPredict
  | Score _ _ _ => Some SScore
  | LogMetric _ _ _ => Some SLogMetric
  | Sign _ _ => Some SSign
  | Save _ _ _ => Some SSave
  | Register _ _ => Some SRegister
  | _ => None
  end.

Definition steps (t : list event) : list step := omap step_of t.

(** One score and one logged metric per configured scorer. *)
Definition scoring (k : nat) : list step := concat (replicate k [SScore; SLogMetric]).

(** The order of the steps of a training run with [k] scorers. *)
Definition plan (k : nat) : list step :=
  [SRead; SCheck; SSplit; SFit; SPredict] ++ scoring k
    ++ [SFit; SSign; SSave; SRegister].

(** What [__exit__] appends to the trace. *)
Definition teardown : list event :=
  [ Log "DEBUG" "[STOP] Mlflow service: {}"; Stop Mlflow;
    Log "DEBUG" "[STOP] AWS service: {}"; Stop AWS;
    Log "DEBUG" "[STOP] Logger service: {}"; Stop Logger ].

(** A platform on which every call succeeds. *)
Definition quiet_platform : Platform := {|
  loguru_add := fun _ _ => Ok tt;
  boto3_setup_default_session := fun _ _ => Ok tt;
  mlflow_setup := fun _ _ => Ok tt;
  mlflow_start_run := fun _ _ => Ok "run-1";
  reader_read := fun _ _ => Ok [];
  sklearn_metric := fun _ => None;
  client_log_metric := fun _ _ _ _ => Ok tt;
  mlflow_infer_signature := fun _ _ => Ok (signers.MkSignature [] []);
  mlflow_signature_from_dict := fun _ _ => Ok (signers.MkSignature [] []);
  pandera_to_schema := fun _ => [];
  saver_save := fun _ _ _ _ => Ok "models:/m/1";
  registry_register := fun _ _ _ => Ok 1
|}.

Definition sample_job : base.Job :=
  base.MkJob base.TrainingJob services.default_aws services.default_logger
    services.default_mlflow.

Definition empty_world : World :=
  MkWorld [] (samples.construct models.CBaselineModel).

(** [PanderaSigner()] *)
Definition default_signer : signers.PanderaSigner :=
  signers.MkPanderaSigner "InputsSchema" "OutputsSchema" signers.PANDERA_MLFLOW_MAPPING.

(** A feature row in which the three categorical values are missing. *)
Definition missing_row : FeatRow := schemas.FeatInputsSchema.Row 1%float None None None.

(** A cell is present. *)
Definition filled (cell : option string) : bool :=
  match cell with
  | Some _ => true
  | None => false
  end.

(** No categorical value of the row is missing. *)
Definition categorical_filled (r : FeatRow) : bool :=
  filled (schemas.FeatInputsSchema.TYPE_OF_PAYMENT r)
  && filled (schemas.FeatInputsSchema.MERCHANT_NAME r)
  && filled (schemas.FeatInputsSchema.DESCRIPTION r).

(** A stand-in for [train_test_split], for a test size given as a count:
    like scikit-learn it rejects a count that is not positive or not
    smaller than the number of samples; it holds out the last [test_size]
    positions, where scikit-learn draws them. *)
Definition holdout_tail : splitters.ModelSelection := {|
  splitters.train_test_split := fun index test_size _ _ =>
    match test_size with
    | splitters.SizeInt k =>
        if (0 <? k) && (k <? Z.of_nat (length index))
        then let n_train := (length index - Z.to_nat k)%nat in
             Ok (take n_train index, drop n_train index)
        else Raise (Exn CValueError "test_size is out of range")
    | splitters.SizeFloat _ =>
        Raise (Exn CValueError "test_size is not a count")
    end
|}.

(** ** Reasoning about traces *)

(** [traces c Φ w]: run from [w], [c] only appends to the trace, and its
    outcome, the world it leaves and the calls it appended satisfy [Φ]. *)
Definition traces {A} (c : M World A)
    (Φ : Result A -> World -> list event -> Prop) (w : World) : Prop :=
  exists new, trace (c w).2 = trace w ++ new /\ Φ (c w).1 (c w).2 new.

(** The rows that reach the model, the signer and the saver carry no
    missing categorical value. *)
Definition imputed_event (e : event) : bool :=
  match e with
  | Fit X _ | Predict X | Sign X _ | Save _ _ X => forallb categorical_filled X
  | _ => true
  end.

(** The codes of the labels [y] under the label encoder of the Model. *)
Definition encoded (m : models.Model) (y : list string) : list Z :=
  match (models._encode_target y m).1 with
  | Ok codes => codes
  | Raise _ => []
  end.

(** The calls of the scoring loop: for each scorer its score, then the
    metric logged under its name. *)
Definition score_calls (run_id : string) (targets outputs : list Z)
    (scorers : list metrics.SklearnMetric) (values : list float) : list event :=
  concat (zip_with
            (fun s v => [ Score (metrics.name s) targets outputs;
                          LogMetric run_id (metrics.name s) v ])
            scorers values).

(** What a run of the body that reached its end has done: [l] are the
    variables it bound, [w] and [w'] the worlds before and after, [new]
    the calls it made. *)
Definition trained `{!models.Estimators} `{!splitters.ModelSelection}
    (self : training.TrainingJob) (run_id : string) (w w' : World)
    (l : training.Locals) (new : list event) : Prop :=
  let selected := training.drop_duplicates (training.select <$> training.inputs_ l) in
  let inputs := training.l_inputs l in
  let targets := training.l_targets l in
  let m1 := (models.fit (training.inputs_train l) (training.targets_train l)
               (model w)).2 in
  targets = selected.*2
  /\ inputs = training.impute <$> selected.*1
  /\ next (splitters.split (training.splitter self) inputs targets None)
     = Ok (training.train_index l, training.test_index l)
  /\ training.iloc inputs (training.train_index l) = Ok (training.inputs_train l)
  /\ training.iloc inputs (training.test_index l) = Ok (training.inputs_test l)
  /\ training.iloc targets (training.train_index l) = Ok (training.targets_train l)
  /\ training.iloc targets (training.test_index l) = Ok (training.targets_test l)
  /\ (exists r, (models.fit (training.inputs_train l) (training.targets_train l)
                  (model w)).1 = Ok r)
  /\ models.predict (training.inputs_test l) m1 = (Ok (training.outputs_test l), m1)
  /\ (exists r, models.fit inputs targets m1 = (Ok r, model w'))
  /\ exists values,
       length values = length (training.scorers self)
       /\ calls new
          = [ Read (training.inputs self);
              Check selected.*1;
              Split (length inputs) targets;
              Fit (training.inputs_train l) (training.targets_train l);
              Predict (training.inputs_test l) ]
            ++ score_calls run_id
                 (encoded m1 (training.targets_test l))
                 (encoded m1 (training.outputs_test l))
                 (training.scorers self) values
            ++ [ Fit inputs targets;
                 Sign (training.dropna (training.inputs_test l))
                      (training.outputs_test l);
                 Save (model w') (training.model_signature l) inputs;
                 Register
                   (services.registry_name
                      (base.mlflow_service (training.job self)))
                   (training.model_uri l) ].

(** A small training run: four transactions of one merchant, the last one
    held out; every outside call succeeds and the metric is 1. *)
Definition demo_rows : list schemas.InputsSchema.row :=
  [ schemas.InputsSchema.Row "t1" 0 10%float None (Some "A") None 1 "X";
    schemas.InputsSchema.Row "t2" 0 20%float None (Some "A") None 1 "X";
    schemas.InputsSchema.Row "t3" 0 30%float None None None 1 "Y";
    schemas.InputsSchema.Row "t4" 0 40%float None (Some "A") None 1 "X" ].

Definition demo_platform : Platform := {|
  loguru_add := fun _ _ => Ok tt;
  boto3_setup_default_session := fun _ _ => Ok tt;
  mlflow_setup := fun _ _ => Ok tt;
  mlflow_start_run := fun _ _ => Ok "run-1";
  reader_read := fun _ _ => Ok demo_rows;
  sklearn_metric := fun _ => Some (fun _ _ => Ok 1%float);
  client_log_metric := fun _ _ _ _ => Ok tt;
  mlflow_infer_signature := fun _ _ => Ok (signers.MkSignature [] []);
  mlflow_signature_from_dict := fun _ _ => Ok (signers.MkSignature [] []);
  pandera_to_schema := fun _ => [];
  saver_save := fun _ _ _ _ => Ok "models:/m/1";
  registry_register := fun _ _ _ => Ok 1
|}.

Definition demo_job : training.TrainingJob :=
  training.MkTrainingJob sample_job
    (services.MkRunConfig "Training" None None)
    (datasets.CSVReader "inputs.csv")
    [metrics.default]
    (splitters.MkTrainTestSplitter (splitters.SizeInt 1) 0 false)
    InferSigner.

Definition demo_run : Result (option training.Locals) * World :=
  training.run (H := demo_platform) (H0 := samples.constant_classifier)
    (H1 := holdout_tail) demo_job empty_world.

(** The same run on data that the schema rejects: the amount of the one
    transaction read is not greater than zero. *)
Definition rejected_rows : list schemas.InputsSchema.row :=
  [ schemas.InputsSchema.Row "t1" 0 (-1)%float None (Some "A") None 1 "X" ].

Definition rejected_platform : Platform := {|
  loguru_add := fun _ _ => Ok tt;
  boto3_setup_default_session := fun _ _ => Ok tt;
  mlflow_setup := fun _ _ => Ok tt;
  mlflow_start_run := fun _ _ => Ok "run-1";
  reader_read := fun _ _ => Ok rejected_rows;
  sklearn_metric := fun _ => Some (fun _ _ => Ok 1%float);
  client_log_metric := fun _ _ _ _ => Ok tt;
  mlflow_infer_signature := fun _ _ => Ok (signers.MkSignature [] []);
  mlflow_signature_from_dict := fun _ _ => Ok (signers.MkSignature [] []);
  pandera_to_schema := fun _ => [];
  saver_save := fun _ _ _ _ => Ok "models:/m/1";
  registry_register := fun _ _ _ => Ok 1
|}.

Definition rejected_run : Result (option training.Locals) * World :=
  training.run (H := rejected_platform) (H0 := samples.constant_classifier)
    (H1 := holdout_tail) demo_job empty_world.

(** How often a step occurs among the steps of a trace. *)
Definition count_step (s : step) (t : list event) : nat :=
  length (List.filter (fun s' => bool_decide (s' = s)) (steps t)).

(** ** jobs/transition.py *)

Module transition.

(** [mlflow.entities.model_registry.ModelVersion]: the attributes that
    identify a version; MLflow gives the version number as a string. *)
Record ModelVersion := MkModelVersion {
  mv_name : string;
  version : string;
  current_stage : string
}.

(** The calls that leave the job, in the order they are made. *)
Inductive call_ :=
| LogRecord (level message : string)
| GetLatestVersions (name : string) (stages : option (list string))
| GetModelVersion (name : string) (version : Z)
| TransitionModelVersionStage (name stage version : string)
    (archive_existing_versions : bool).

(** [mlflow.tracking.MlflowClient]: what a call returns may depend on the
    calls made before it. *)
Class Client := {
  get_latest_versions :
    list call_ -> string -> option (list string) -> Result (list ModelVersion);
  get_model_version : list call_ -> string -> Z -> Result ModelVersion;
  transition_model_version_stage :
    list call_ -> string -> string -> string -> bool -> Result ModelVersion
}.

Record TransitionJob := MkTransitionJob {
  job : base.Job;
  stage : string;
  version_ : option Z;
  archive_existing_versions : bool;
  latest_version_stages : option (list string)
}.

(** [TransitionJob()] with the defaults of the declaration. *)
Definition default (job : base.Job) : TransitionJob :=
  MkTransitionJob job "Production" None true None.

Record Locals := MkLocals {
  from_version : ModelVersion;
  to_version : ModelVersion
}.

(** The loop of the builtin [max(iterable, key=...)]: the key of every
    item is computed, in order, and an item replaces the current one only
    when its key is greater. *)
Fixpoint max_loop {A} (key : A -> Result Z) (maxitem : A) (maxval : Z)
    (rest : list A) : Result A :=
  match rest with
  | [] => Ok maxitem
  | item :: rest' =>
      val <~ key item ;
      if maxval <? val then max_loop key item val rest'
      else max_loop key maxitem maxval rest'
  end.

Definition max_ {A} (key : A -> Result Z) (iterable : list A) : Result A :=
  match iterable with
  | [] => Raise (Exn CValueError "max() arg is an empty sequence")
  | item :: rest => val <~ key item ; max_loop key item val rest
  end.

Definition tell (c : call_) : M (list call_) unit :=
  fun h => (Ok tt, h ++ [c]).

Definition ask {A} (c : call_) (answer : list call_ -> Result A)
  : M (list call_) A :=
  fun h => (answer h, h ++ [c]).

Section Run.
Context `{!Client}.
(** The builtin [int] on a string. *)
Variable int_ : string -> Result Z.

Definition run (self : TransitionJob) : M (list call_) Locals :=
  tell (LogRecord "INFO" "With logger: {}") >>
  tell (LogRecord "INFO" "With client: {}") >>
  let name := services.registry_name (base.mlflow_service (job self)) in
  from_version <-
    match version_ self with
    | None =>
        versions <- ask (GetLatestVersions name (latest_version_stages self))
                      (fun h => get_latest_versions h name
                                  (latest_version_stages self)) ;
        lift (max_ (fun v => int_ (version v)) versions)
    | Some n =>
        ask (GetModelVersion name n) (fun h => get_model_version h name n)
    end ;
  tell (LogRecord "INFO" "From version: {}") >>
  tell (LogRecord "INFO" "Transition model: {}") >>
  to_version <-
    ask (TransitionModelVersionStage name (stage self) (version from_version)
           (archive_existing_versions self))
        (fun h => transition_model_version_stage h name (stage self)
                    (version from_version) (archive_existing_versions self)) ;
  tell (LogRecord "DEBUG" "- To version: {}") >>
  ret (MkLocals from_version to_version).

End Run.

End transition.

(** The calls of a transition job to the registry, without the log
    records. *)
Definition registry_calls (t : list transition.call_) : list transition.call_ :=
  List.filter (fun c => match c with transition.LogRecord _ _ => false | _ => true end) t.

(** A registry with three versions of one model, two of them the latest
    of their stage, and a decimal reader for the version numbers. *)
Definition sample_versions : list transition.ModelVersion :=
  [ transition.MkModelVersion "m" "2" "Staging";
    transition.MkModelVersion "m" "10" "None";
    transition.MkModelVersion "m" "9" "Production" ].

Definition sample_client : transition.Client := {|
  transition.get_latest_versions := fun _ _ _ => Ok sample_versions;
  transition.get_model_version := fun _ name n =>
    Ok (transition.MkModelVersion name (if n =? 2 then "2" else "9") "None");
  transition.transition_model_version_stage := fun _ name stage version _ =>
    Ok (transition.MkModelVersion name version stage)
|}.

Definition sample_int (s : string) : Result Z :=
  if String.eqb s "2" then Ok 2
  else if String.eqb s "9" then Ok 9
  else if String.eqb s "10" then Ok 10
  else Raise (Exn CValueError "invalid literal for int() with base 10").

(** ** Views and sample collaborators of the further properties *)

(** The calls of a training run that returned, in terms of the variables
    [l] it bound: [w] and [w'] are the worlds before and after, [run_id]
    the tracking run and [values] the scores. *)
Definition run_calls `{!models.Estimators} (self : training.TrainingJob)
    (run_id : string) (w w' : World) (l : training.Locals)
    (values : list float) : list event :=
  let selected := training.drop_duplicates (training.select <$> training.inputs_ l) in
  let m1 := (models.fit (training.inputs_train l) (training.targets_train l)
               (model w)).2 in
  [ StartRun (training.run_config self);
    Read (training.inputs self);
    Check selected.*1;
    Split (length (training.l_inputs l)) (training.l_targets l);
    Fit (training.inputs_train l) (training.targets_train l);
    Predict (training.inputs_test l) ]
  ++ score_calls run_id (encoded m1 (training.targets_test l))
       (encoded m1 (training.outputs_test l)) (training.scorers self) values
  ++ [ Fit (training.l_inputs l) (training.l_targets l);
       Sign (training.dropna (training.inputs_test l)) (training.outputs_test l);
       Save (model w') (training.model_signature l) (training.l_inputs l);
       Register (services.registry_name (base.mlflow_service (training.job self)))
         (training.model_uri l);
       EndRun "FINISHED" ].

(** The events that start or stop a service or a tracking run. *)
Definition is_lifecycle (e : event) : bool :=
  match e with
  | Start _ | Stop _ | StartRun _ | EndRun _ => true
  | _ => false
  end.

Definition lifecycle (t : list event) : list event := List.filter is_lifecycle t.

(** The events of the body of a training run: no service and no tracking
    run is started or stopped there. *)
Definition is_work (e : event) : bool := negb (is_lifecycle e).

(** [with job as runner: runner.run()] for a training job, as the command
    line runs it. *)
Definition run_job `{!Platform} `{!models.Estimators} `{!splitters.ModelSelection}
    (self : training.TrainingJob) : M World (option (option training.Locals)) :=
  base.with_job (training.job self) (fun _ => training.run self).

(** A Model that holds exactly the fields its class declares. *)
Definition well_formed (m : models.Model) : Prop :=
  dom (models.fields m) = dom (models.declared (models.class_of m)).

(** The values that [_create_pipeline] reads, in the order in which it
    hands them to the estimators. *)
Definition hyperparameters (m : models.Model) : list models.Value :=
  (fun k => default models.VNone (models.fields m !! k))
    <$> [ "max_features_desc"; "n_components_desc"; "max_features_merch";
          "n_components_merch"; "n_estimators"; "max_depth"; "n_jobs";
          "random_state" ].

(** The Model with its label encoder fitted on [targets] and [p] as its
    pipeline. *)
Definition fitted_with (m : models.Model) (targets : list string)
    (p : models.Value) : models.Model :=
  models.MkModel (models.class_of m)
    (<["pipeline" := p]>
       (<["le" := models.VLabelEncoder
                    (Some (models.LabelEncoder.unique targets))]>
          (models.fields m)))
    (models.others m).

(** No instance attribute hides the method [_create_pipeline]. *)
Definition creates (m : models.Model) : Prop :=
  models.others m !! "_create_pipeline" = None.

(** The labels of a list increase strictly. *)
Fixpoint labels_increase (l : list string) : Prop :=
  match l with
  | [] => True
  | x :: l' => Forall (fun z => String.compare x z = Lt) l' /\ labels_increase l'
  end.

(** The codes of the labels a fitted encoder was fitted on. *)
Definition codes_of (targets : list string) : list Z :=
  match models.LabelEncoder.transform (models.LabelEncoder.unique targets) targets with
  | Ok codes => codes
  | Raise _ => []
  end.

(** A call of a method on a Model. *)
Inductive model_call :=
| FitCall (inputs : list FeatRow) (targets : list string)
| PredictCall (inputs : list FeatRow)
| SetParamsCall (params : list (string * models.Value))
| EncodeCall (outputs : list string)
| DecodeCall (outputs_encoded : list Z).

(** The Model after a call, whether the call returned or raised. *)
Definition after_call `{!models.Estimators} (m : models.Model) (c : model_call)
  : models.Model :=
  match c with
  | FitCall inputs targets => (models.fit inputs targets m).2
  | PredictCall inputs => (models.predict inputs m).2
  | SetParamsCall params => (models.set_params params m).2
  | EncodeCall outputs => (models._encode_target outputs m).2
  | DecodeCall outputs_encoded => (models._decode_target outputs_encoded m).2
  end.

(** A classifier that accepts any data and, once fitted, predicts for
    every row the code of the last training row; it sorts equal counts in
    the reverse of their order. *)
Definition last_code_classifier : models.Estimators := {|
  models.sklearn_fit := fun _ _ _ => Ok tt;
  models.sklearn_predict := fun _ state X =>
    match state with
    | models.Fitted _ y => Ok (map (fun _ => List.last y 0) X)
    | _ => Raise (Exn CAttributeError "'Pipeline' object is not fitted")
    end;
  models.quicksort_ranks := fun column =>
    (fun i => - Z.of_nat i) <$> seq 0 (length column)
|}.

Module mf := models.MostFrequentCategoryByMerchant.

(** The count that a table of counts gives for a key. *)
Fixpoint count_of (t : list mf.line) (k : string * Z) : nat :=
  match t with
  | [] => 0
  | (k', n) :: t' => if mf.key_eqb k k' then n else count_of t' k
  end.

(** The keys of a table of counts increase strictly. *)
Fixpoint keys_increase (t : list mf.line) : Prop :=
  match t with
  | [] => True
  | l :: t' => Forall (fun l' => mf.key_ltb l.1 l'.1 = true) t' /\ keys_increase t'
  end.

(** How often the pair of a merchant and a label occurs. *)
Definition occurrences {B} `{EqDecision B} (k : string * B)
    (pairs : list (option string * B)) : nat :=
  length (List.filter (fun p => bool_decide (p = (Some k.1, k.2))) pairs).

(** The loop of [groupby_size] from a table [acc]. *)
Definition grouped (acc : list mf.line) (pairs : list (option string * Z))
  : list mf.line :=
  foldl (fun t my =>
           match my.1 with
           | Some mch => mf.count_insert (mch, my.2) t
           | None => t
           end) acc pairs.

(** The counts of a sorted table decrease (weakly). *)
Fixpoint counts_decrease (s : list mf.line) : Prop :=
  match s with
  | [] => True
  | l :: s' => Forall (fun l' => (l'.2 <= l.2)%nat) s' /\ counts_decrease s'
  end.

Definition merchant_of (l : mf.line) : string := l.1.1.

(** What the body of the conversion loop makes of a column: the column of
    the MLflow schema, or the error that ends the conversion. *)
Definition converted (self : signers.PanderaSigner) (c : signers.PanderaColumn)
  : Result signers.ColSpec :=
  rbind (signers.getitem (signers.mapping self) (signers.col_dtype c))
    (signers.ColSpec_ (signers.col_name c) (negb (signers.col_required c))).

(** * Properties *)

(** ** The state monad *)

Lemma bind_ok {S A B} (c : M S A) (k : A -> M S B) s a s' :
  c s = (Ok a, s') -> bind c k s = k a s'.
Proof. intros H. unfold bind. by rewrite H. Qed.

Lemma bind_raise {S A B} (c : M S A) (k : A -> M S B) s e s' :
  c s = (Raise e, s') -> bind c k s = (Raise e, s').
Proof. intros H. unfold bind. by rewrite H. Qed.

(** [stable R c]: the state after [c] is related by [R] to the state
    before it, whatever [c] returns. *)
Definition stable {S A} (R : S -> S -> Prop) (c : M S A) : Prop :=
  forall s, R s (c s).2.

(** [keeps P c]: a state that satisfies [P] still does after [c],
    whatever [c] returns. *)
Definition keeps {S A} (P : S -> Prop) (c : M S A) : Prop :=
  forall s, P s -> P (c s).2.

Lemma stable_bind {S A B} (R : S -> S -> Prop) `{!Transitive R}
    (c : M S A) (k : A -> M S B) :
  stable R c -> (forall a, stable R (k a)) -> stable R (bind c k).
Proof.
  intros Hc Hk s. unfold bind. specialize (Hc s).
  destruct (c s) as [[a|e] s1]; simpl in *; [|done].
  etrans; [exact Hc|apply Hk].
Qed.

Lemma stable_ret {S A} (R : S -> S -> Prop) `{!Reflexive R} (a : A) :
  stable R (ret a).
Proof. intros s. simpl. reflexivity. Qed.

Lemma stable_lift {S A} (R : S -> S -> Prop) `{!Reflexive R} (r : Result A) :
  stable R (lift r).
Proof. intros s. simpl. reflexivity. Qed.

(** ** core/models.py *)

Module models_facts.
Import models.

(** Two states of a Model that differ at most in [pipeline] and [le]. *)
Definition same_hyperparameters (m m' : Model) : Prop :=
  class_of m' = class_of m /\
  forall k, k <> "le" -> k <> "pipeline" -> fields m' !! k = fields m !! k.

#[export] Instance same_hyperparameters_refl : Reflexive same_hyperparameters.
Proof. by intros m; split. Qed.

#[export] Instance same_hyperparameters_trans : Transitive same_hyperparameters.
Proof.
  intros m1 m2 m3 [Hc1 H1] [Hc2 H2]. split; [congruence|].
  intros k ??. rewrite H2, H1; done.
Qed.

(** Two states of a Model with the same class, the same names of fields
    and the same attributes beside the fields. *)
Definition same_shape (m m' : Model) : Prop :=
  class_of m' = class_of m
  /\ dom (fields m') = dom (fields m)
  /\ others m' = others m.

#[export] Instance same_shape_refl : Reflexive same_shape.
Proof. by intros m. Qed.

#[export] Instance same_shape_trans : Transitive same_shape.
Proof.
  intros m1 m2 m3 (Hc1 & Hd1 & Ho1) (Hc2 & Hd2 & Ho2).
  split; [congruence|]. split; congruence.
Qed.

Lemma stable_getattr (R : Model -> Model -> Prop) `{!Reflexive R} name :
  stable R (getattr name).
Proof.
  intros m. unfold getattr.
  destruct (fields m !! name), (others m !! name); simpl; reflexivity.
Qed.

Lemma stable_call_method {A} (R : Model -> Model -> Prop) `{!Reflexive R}
    name (body : M Model A) :
  stable R body -> stable R (call_method name body).
Proof.
  intros Hbody m. unfold call_method.
  destruct (others m !! name); [simpl; reflexivity|apply Hbody].
Qed.

Lemma stable_assign name v :
  name = "le" \/ name = "pipeline" ->
  stable same_hyperparameters (assign name v).
Proof.
  intros Hn m. split; [done|]. intros k ??. simpl.
  apply lookup_insert_ne. destruct Hn; congruence.
Qed.

Lemma stable_setattr name v :
  name = "le" \/ name = "pipeline" ->
  stable same_hyperparameters (setattr name v).
Proof.
  intros Hn m. unfold setattr. destruct (fields m !! name).
  - by apply stable_assign.
  - destruct (startswith name "_"); [|simpl; reflexivity].
    case_bool_decide; simpl; [reflexivity|by split].
Qed.

(** Assigning to a field that exists keeps the shape. *)
Lemma shape_assign name v m :
  is_Some (fields m !! name) -> same_shape m (assign name v m).2.
Proof.
  intros Hk. split; [done|]. split; [|done]. simpl.
  by apply dom_insert_lookup_L.
Qed.

Lemma shape_setattr_field name v :
  startswith name "_" = false -> stable same_shape (setattr name v).
Proof.
  intros Hn m. unfold setattr. destruct (fields m !! name) eqn:Hk.
  - apply shape_assign. by eexists.
  - rewrite Hn. simpl. reflexivity.
Qed.

Section Facts.
Context `{!Estimators}.

Lemma stable_le_fit_transform targets :
  stable same_hyperparameters (le_fit_transform targets).
Proof.
  apply stable_bind; [apply _|apply stable_getattr, _|].
  intros le. destruct le; try apply stable_lift, _.
  apply stable_bind; [apply _|apply stable_assign; auto|].
  intros _. apply stable_lift, _.
Qed.

Lemma stable_pipeline_fit inputs targets_ :
  stable same_hyperparameters (pipeline_fit inputs targets_).
Proof.
  apply stable_bind; [apply _|apply stable_getattr, _|]. intros p.
  destruct (call_fit p inputs targets_) as [outcome p'].
  apply stable_bind; [apply _|apply stable_assign; auto|]. intros _.
  apply stable_lift, _.
Qed.

Lemma stable_create_pipeline : stable same_hyperparameters _create_pipeline.
Proof.
  unfold _create_pipeline.
  repeat (apply stable_bind; [apply _|apply stable_getattr, _|]; intros ?).
  apply stable_ret, _.
Qed.

Lemma stable_fit inputs targets : stable same_hyperparameters (fit inputs targets).
Proof.
  intros m. unfold fit. destruct (class_of m).
  - revert m. unfold BaselineModel_fit.
    apply stable_bind; [apply _|apply stable_setattr; auto|]; intros _.
    apply stable_bind; [apply _|apply stable_le_fit_transform|]; intros ?.
    apply stable_bind; [apply _|apply stable_setattr; auto|]; intros _.
    apply stable_bind; [apply _|apply stable_pipeline_fit|]; intros _.
    apply stable_ret, _.
  - revert m. unfold SKLearnPipelineModel_fit.
    apply stable_bind; [apply _|apply stable_setattr; auto|]; intros _.
    apply stable_bind; [apply _|apply stable_le_fit_transform|]; intros ?.
    apply stable_bind;
      [apply _|apply stable_call_method, stable_create_pipeline; apply _|];
      intros ?.
    apply stable_bind; [apply _|apply stable_setattr; auto|]; intros _.
    apply stable_bind; [apply _|apply stable_pipeline_fit|]; intros _.
    apply stable_ret, _.
Qed.

Lemma stable_decode_target outputs : stable eq (_decode_target outputs).
Proof.
  apply stable_bind; [apply _|apply stable_getattr, _|]; intros ?.
  apply stable_lift, _.
Qed.

Lemma stable_encode_target outputs : stable eq (_encode_target outputs).
Proof.
  apply stable_bind; [apply _|apply stable_getattr, _|]; intros ?.
  apply stable_lift, _.
Qed.

(** [predict] leaves the Model as it is. *)
Lemma stable_predict inputs : stable eq (predict inputs).
Proof.
  intros m. unfold predict. destruct (class_of m); revert m.
  - apply stable_bind; [apply _|apply stable_getattr, _|]; intros ?.
    apply stable_bind; [apply _|apply stable_lift, _|]; intros ?.
    apply stable_call_method; [apply _|apply stable_decode_target].
  - apply stable_bind; [apply _|apply stable_getattr, _|]; intros ?.
    apply stable_bind; [apply _|apply stable_lift, _|]; intros ?.
    apply stable_call_method; [apply _|apply stable_decode_target].
Qed.

(** [fit] keeps the shape of a Model that has the fields [le] and
    [pipeline]: it assigns to these two fields only. *)
Definition shaped (c : ModelClass) (D : gset string) (O : gmap string Value)
    (m : Model) : Prop :=
  class_of m = c /\ dom (fields m) = D /\ others m = O.

Lemma keeps_bind {A B} (P : Model -> Prop) (c : M Model A) (k : A -> M Model B) :
  keeps P c -> (forall a, keeps P (k a)) -> keeps P (bind c k).
Proof.
  intros Hc Hk m Hm. unfold bind. specialize (Hc m Hm).
  destruct (c m) as [[a|e] m1]; simpl in *; [|done].
  by apply Hk.
Qed.

Lemma keeps_pure {A} (P : Model -> Prop) (c : M Model A) :
  stable eq c -> keeps P c.
Proof. intros Hc m Hm. by rewrite <- (Hc m). Qed.

Lemma keeps_call_method {A} (P : Model -> Prop) name (body : M Model A) :
  keeps P body -> keeps P (call_method name body).
Proof.
  intros Hb m Hm. unfold call_method. destruct (others m !! name); [done|].
  by apply Hb.
Qed.

Lemma keeps_assign c D O name v :
  name ∈ D -> keeps (shaped c D O) (assign name v).
Proof.
  intros Hn m (Hc & Hd & Ho). split; [done|]. split; [|done]. simpl.
  rewrite dom_insert_L, Hd. apply subseteq_union_1_L.
  by apply singleton_subseteq_l.
Qed.

Lemma keeps_setattr c D O name v :
  name ∈ D -> keeps (shaped c D O) (setattr name v).
Proof.
  intros Hn m Hm. unfold setattr.
  destruct (fields m !! name) eqn:Hk; [by apply keeps_assign|].
  destruct Hm as (_ & Hd & _). rewrite <- Hd in Hn.
  apply elem_of_dom in Hn as [? Hn]. congruence.
Qed.

Lemma keeps_fit c D O inputs targets :
  "le" ∈ D -> "pipeline" ∈ D -> keeps (shaped c D O) (fit inputs targets).
Proof.
  intros Hle Hp m Hm. unfold fit.
  assert (keeps (shaped c D O) (le_fit_transform targets)) as Hlft.
  { apply keeps_bind; [apply keeps_pure, stable_getattr, _|]. intros le.
    destruct le; try (apply keeps_pure, stable_lift, _).
    apply keeps_bind; [by apply keeps_assign|]. intros _.
    apply keeps_pure, stable_lift, _. }
  assert (forall targets_, keeps (shaped c D O) (pipeline_fit inputs targets_))
    as Hpf.
  { intros targets_.
    apply keeps_bind; [apply keeps_pure, stable_getattr, _|]. intros p.
    destruct (call_fit p inputs targets_) as [outcome p'].
    apply keeps_bind; [by apply keeps_assign|]. intros _.
    apply keeps_pure, stable_lift, _. }
  destruct (class_of m); revert m Hm.
  - apply keeps_bind; [by apply keeps_setattr|]; intros _.
    apply keeps_bind; [exact Hlft|]; intros ?.
    apply keeps_bind; [by apply keeps_setattr|]; intros _.
    apply keeps_bind; [apply Hpf|]; intros _.
    apply keeps_pure, stable_ret, _.
  - apply keeps_bind; [by apply keeps_setattr|]; intros _.
    apply keeps_bind; [exact Hlft|]; intros ?.
    apply keeps_bind.
    { apply keeps_call_method, keeps_pure. unfold _create_pipeline.
      repeat (apply stable_bind; [apply _|apply stable_getattr, _|]; intros ?).
      apply stable_ret, _. }
    intros ?.
    apply keeps_bind; [by apply keeps_setattr|]; intros _.
    apply keeps_bind; [apply Hpf|]; intros _.
    apply keeps_pure, stable_ret, _.
Qed.

End Facts.

End models_facts.

(** *** Construction *)

Lemma init_inv c kwargs m :
  models.init c kwargs = Ok m ->
  m = models.MkModel c (kwargs ∪ models.defaults c) ∅ /\
  map_Forall (fun k v => models.field_ok c k v = true) kwargs.
Proof.
  unfold models.init. case_bool_decide; [|done]. intros [= <-]. done.
Qed.

Lemma init_unfitted c kwargs m :
  models.init c kwargs = Ok m ->
  models.class_of m = c /\ models.fields m !! "pipeline" = Some models.VNone.
Proof.
  intros [-> Hok]%init_inv. split; [done|]. simpl.
  rewrite lookup_union. destruct (kwargs !! "pipeline") as [v|] eqn:Hk.
  - apply Hok in Hk. unfold models.field_ok in Hk.
    destruct c; vm_compute in Hk; destruct v; try done;
      by vm_compute.
  - by destruct c; vm_compute.
Qed.

Lemma init_extra_forbidden c kwargs key value :
  kwargs !! key = Some value ->
  models.declared c !! key = None ->
  models.init c kwargs = Raise (Exn CValidationError (models.class_name c)).
Proof.
  intros Hk Hd. unfold models.init. case_bool_decide as Hall; [|done].
  apply Hall in Hk. unfold models.field_ok in Hk. by rewrite Hd in Hk.
Qed.

(** *** get_params and set_params *)

Lemma get_params_lookup m deep k v :
  models.get_params m deep !! k = Some v <->
  models.fields m !! k = Some v /\ startswith k "_" = false /\ isupper k = false.
Proof.
  unfold models.get_params, models.model_dump, models.is_param.
  rewrite map_lookup_filter_Some. simpl.
  destruct (startswith k "_"), (isupper k); simpl; intuition congruence.
Qed.

Lemma setattr_same m k v :
  models.fields m !! k = Some v -> models.setattr k v m = (Ok tt, m).
Proof.
  intros Hk. unfold models.setattr, models.assign. rewrite Hk.
  rewrite insert_id by done. by destruct m.
Qed.

Lemma set_params_loop_same params m :
  (forall k v, (k, v) ∈ params -> models.fields m !! k = Some v) ->
  models.set_params_loop params m = (Ok tt, m).
Proof.
  induction params as [|[k v] params IH]; intros Hall; [done|].
  simpl. erewrite bind_ok; [|apply setattr_same, Hall; left].
  apply IH. intros k' v' Hin. apply Hall. by right.
Qed.

Lemma setattr_declared m k v :
  is_Some (models.fields m !! k) ->
  models.setattr k v m =
    (Ok tt, models.MkModel (models.class_of m) (<[k := v]> (models.fields m))
              (models.others m)).
Proof. intros [? Hk]. unfold models.setattr. by rewrite Hk. Qed.


(** C2, as the code has it: a Model of either class that was just
    constructed holds [None] in [pipeline], so [predict] raises an
    [AttributeError] (which is not a [NotFittedError]) for every input, and
    leaves the Model as it is. *)
Theorem predict_before_fit_raises_AttributeError `{!models.Estimators}
    (c : models.ModelClass) (kwargs : gmap string models.Value)
    (m : models.Model) (inputs : list FeatRow) :
  models.init c kwargs = Ok m ->
  exists e,
    models.predict inputs m = (Raise e, m)
    /\ exn_type e = CAttributeError
    /\ isinstance e CNotFittedError = false.
Proof.
  intros [Hc Hp]%init_unfitted.
  unfold models.predict. rewrite Hc. destruct c.
  - unfold models.BaselineModel_predict.
    erewrite bind_ok; [|unfold models.getattr; by rewrite Hp].
    eexists. split; [reflexivity|done].
  - unfold models.SKLearnPipelineModel_predict.
    erewrite bind_ok; [|unfold models.getattr; by rewrite Hp].
    eexists. split; [reflexivity|done].
Qed.

Lemma predict_before_fit_raises_AttributeError_witness :
  models.init models.CSKLearnPipelineModel {["max_depth" := models.VInt 3]}
    = Ok (models.MkModel models.CSKLearnPipelineModel
            ({["max_depth" := models.VInt 3]}
               ∪ models.defaults models.CSKLearnPipelineModel) ∅)
  /\ exists e,
       models.predict (H := samples.constant_classifier) [samples.row "A"]
         (models.MkModel models.CSKLearnPipelineModel
            ({["max_depth" := models.VInt 3]}
               ∪ models.defaults models.CSKLearnPipelineModel) ∅)
       = (Raise e,
          models.MkModel models.CSKLearnPipelineModel
            ({["max_depth" := models.VInt 3]}
               ∪ models.defaults models.CSKLearnPipelineModel) ∅)
       /\ exn_type e = CAttributeError
       /\ isinstance e CNotFittedError = false.
Proof.
  split; [by vm_compute|].
  apply (predict_before_fit_raises_AttributeError (H := samples.constant_classifier)
           models.CSKLearnPipelineModel {["max_depth" := models.VInt 3]}).
  by vm_compute.
Defined.

(** C2, as it is stated, fails on a BaselineModel with its default
    hyperparameters: [predict] before [fit] does not raise a
    [NotFittedError]. *)
Lemma predict_before_fit_not_NotFittedError :
  models.init models.CBaselineModel ∅
    = Ok (samples.construct models.CBaselineModel)
  /\ ~ raises
       (models.predict (H := samples.constant_classifier) [samples.row "A"]
          (samples.construct models.CBaselineModel)).1
       CNotFittedError.
Proof.
  split; [by vm_compute|].
  intros (e & He & Hi). vm_compute in He. injection He as <-. by vm_compute in Hi.
Qed.




(** C8 against the code: [fit] of either class mutates the Model in place
    but has no [return]: whenever it returns, it returns [None], never the
    Model, so the chained call [model.fit(inputs, targets).predict(inputs)]
    raises an [AttributeError]. *)
Theorem fit_returns_None `{!models.Estimators}
    (inputs : list FeatRow) (targets : list string) (m : models.Model) :
  ((models.fit inputs targets m).1 = Ok models.RNone
   \/ exists e, (models.fit inputs targets m).1 = Raise e)
  /\ (models.predict_on models.RNone inputs (models.fit inputs targets m).2).1
     = Raise (Exn CAttributeError "'NoneType' object has no attribute 'predict'").
Proof.
  split; [|done].
  unfold models.fit, models.BaselineModel_fit, models.SKLearnPipelineModel_fit,
    bind, ret.
  destruct (models.class_of m);
    repeat match goal with
           | |- context [match ?c with _ => _ end] =>
               lazymatch c with
               | (_, _) => fail
               | _ => destruct c as [[?|?] ?] eqn:?
               end
           end; simpl; eauto.
Qed.

(** The same on the training rows of C5, for both classes. *)
Lemma fit_returns_None_on_sample :
  (models.fit (H := samples.constant_classifier)
     samples.train_inputs samples.train_targets
     (samples.construct models.CBaselineModel)).1 = Ok models.RNone
  /\ (models.fit (H := samples.constant_classifier)
        samples.train_inputs samples.train_targets
        (samples.construct models.CSKLearnPipelineModel)).1 = Ok models.RNone.
Proof. by vm_compute. Qed.

(** ** jobs/base.py *)

Lemma exit_runs `{!Platform} (job : base.Job) (exc : option exn) (w : World) :
  base.__exit__ job exc w = (Ok false, MkWorld (trace w ++ teardown) (model w)).
Proof.
  unfold base.__exit__, Service_stop, log, emit, bind, ret. simpl.
  by rewrite <- !app_assoc.
Qed.

Lemma enter_inv `{!Platform} (job : base.Job) (w w1 : World) r :
  base.__enter__ job w = (Ok r, w1) ->
  r = job /\ model w1 = model w /\
  service_calls (trace w1) = service_calls (trace w) ++ [Start Logger; Start AWS; Start Mlflow].
Proof.
  unfold base.__enter__, LoggerService_start, AWSService_start,
    MlflowService_start, log, emit, call, bind, ret. simpl.
  destruct (loguru_add _ _); [|done]. simpl.
  destruct (boto3_setup_default_session _ _); [|done]. simpl.
  destruct (mlflow_setup _ _); [|done]. simpl.
  intros [= <- <-]. simpl. split; [done|]. split; [done|].
  unfold service_calls. rewrite !List.filter_app. simpl.
  by rewrite !app_nil_r, <- !app_assoc.
Qed.

(** C3: [__exit__] never raises and returns [False], for every job, every
    exception and every state; when the body of [with job as runner]
    raises after [__enter__] returned, [__exit__] runs, stops the services
    in the order mlflow, AWS, logger (the reverse of the order logger,
    AWS, mlflow in which [__enter__] started them), and the statement
    raises the exception of the body itself. *)
Theorem job_exit_stops_services_and_reraises `{!Platform} {A : Type}
    (job : base.Job) (body : base.Job -> M World A)
    (w w1 w2 : World) (runner : base.Job) (e : exn) :
  (forall exc w', (base.__exit__ job exc w').1 = Ok false)
  /\ (base.__enter__ job w = (Ok runner, w1) ->
      body runner w1 = (Raise e, w2) ->
      runner = job
      /\ service_calls (trace w1)
         = service_calls (trace w) ++ [Start Logger; Start AWS; Start Mlflow]
      /\ base.__exit__ job (Some e) w2
         = (Ok false, MkWorld (trace w2 ++ teardown) (model w2))
      /\ base.with_job job body w
         = (Raise e, MkWorld (trace w2 ++ teardown) (model w2))
      /\ service_calls (trace w2 ++ teardown)
         = service_calls (trace w2) ++ [Stop Mlflow; Stop AWS; Stop Logger]).
Proof.
  split; [intros; by rewrite exit_runs|].
  intros Henter Hbody.
  destruct (enter_inv _ _ _ _ Henter) as (-> & _ & Hstart).
  split; [done|]. split; [done|]. split; [apply exit_runs|]. split.
  - unfold base.with_job, with_. by rewrite Henter, Hbody, exit_runs.
  - unfold service_calls. by rewrite List.filter_app.
Qed.

Lemma job_exit_stops_services_and_reraises_witness :
  let body : base.Job -> M World unit :=
    fun _ => throw (Exn CRuntimeError "boom") in
  let w1 := (base.__enter__ (H := quiet_platform) sample_job empty_world).2 in
  service_calls (trace w1) = [Start Logger; Start AWS; Start Mlflow]
  /\ base.with_job (H := quiet_platform) sample_job body empty_world
     = (Raise (Exn CRuntimeError "boom"), MkWorld (trace w1 ++ teardown) (model w1))
  /\ service_calls (trace w1 ++ teardown)
     = [Start Logger; Start AWS; Start Mlflow; Stop Mlflow; Stop AWS; Stop Logger].
Proof.
  intros body w1.
  destruct (job_exit_stops_services_and_reraises (H := quiet_platform)
              sample_job body empty_world w1 w1 sample_job
              (Exn CRuntimeError "boom")) as (_ & Hwith).
  destruct Hwith as (_ & Hstart & _ & Hrun & Hstop); [reflexivity|reflexivity|].
  split; [exact Hstart|]. split; [exact Hrun|].
  rewrite Hstop, Hstart. reflexivity.
Defined.

(** ** utils/signers.py *)

Lemma check_schema_name_unknown dunder value :
  signers.schemas_getattr dunder value = None ->
  raises (signers.check_schema_name dunder value) CValueError.
Proof.
  intros Hn. unfold signers.check_schema_name. rewrite Hn.
  eexists. split; [reflexivity|done].
Qed.

(** C6 against the code: an unknown schema name is rejected with the
    validator's message, as a [ValueError]; but a name of the module
    [schemas] that is bound to something else than a class (here the
    imported [pd]) ends in the [TypeError] of [issubclass], and a column
    whose dtype is not in the table (here complex128) ends in the
    [KeyError] of the dictionary lookup.  Neither is a [ValueError]. *)
Theorem pandera_signer_failures (dunder : string -> option signers.Attr) :
  signers.init dunder (Some "BadSchema") (Some "BadSchema")
    = Raise (Exn CValidationError "Schema name was not found in module. Got: BadSchema.")
  /\ isinstance (Exn CValidationError "") CValueError = true
  /\ signers.init dunder None None = Ok default_signer
  /\ signers.init dunder (Some "pd") None
     = Raise (Exn CTypeError "issubclass() arg 1 must be a class")
  /\ isinstance (Exn CTypeError "") CValueError = false
  /\ signers._convert_pandera_to_mlflow default_signer
       [ signers.MkPanderaColumn "AMOUNT" true "float64";
         signers.MkPanderaColumn "Z" true "complex128" ]
     = Raise (Exn CKeyError "complex128")
  /\ isinstance (Exn CKeyError "complex128") CValueError = false
  /\ signers._convert_pandera_to_mlflow default_signer
       [ signers.MkPanderaColumn "AMOUNT" true "float64";
         signers.MkPanderaColumn "prediction" false "string" ]
     = Ok [ signers.MkColSpec "AMOUNT" false "double";
            signers.MkColSpec "prediction" true "string" ].
Proof. by vm_compute. Qed.

(** ** jobs/training.py: imputation *)

(** The three assignments of the imputation: a missing MERCHANT_NAME
    becomes "No marchant", a missing DESCRIPTION "No Description" and a
    missing TYPE_OF_PAYMENT "No type payment"; present values and AMOUNT
    stay; afterwards no categorical value is missing. *)
Lemma impute_spec (r : FeatRow) :
  schemas.FeatInputsSchema.MERCHANT_NAME (training.impute r)
    = Some (default "No marchant" (schemas.FeatInputsSchema.MERCHANT_NAME r))
  /\ schemas.FeatInputsSchema.DESCRIPTION (training.impute r)
     = Some (default "No Description" (schemas.FeatInputsSchema.DESCRIPTION r))
  /\ schemas.FeatInputsSchema.TYPE_OF_PAYMENT (training.impute r)
     = Some (default "No type payment" (schemas.FeatInputsSchema.TYPE_OF_PAYMENT r))
  /\ schemas.FeatInputsSchema.AMOUNT (training.impute r)
     = schemas.FeatInputsSchema.AMOUNT r
  /\ categorical_filled (training.impute r) = true.
Proof. by destruct r as [a [t|] [m|] [d|]]. Qed.

(** C7, as it is stated, fails on a row without a merchant name: the
    value imputed is "No marchant", not "No merchant". *)
Lemma impute_merchant_literal :
  schemas.FeatInputsSchema.MERCHANT_NAME (training.impute missing_row)
    = Some "No marchant"
  /\ schemas.FeatInputsSchema.MERCHANT_NAME (training.impute missing_row)
     <> Some "No merchant".
Proof. split; [reflexivity|discriminate]. Qed.

(** ** utils/splitters.py *)

Lemma elem_of_arange n i : i ∈ splitters.arange n <-> 0 <= i < Z.of_nat n.
Proof.
  unfold splitters.arange. rewrite list_elem_of_fmap. split.
  - intros (k & -> & Hk%elem_of_seq). lia.
  - intros Hi. exists (Z.to_nat i). split; [lia|]. apply elem_of_seq. lia.
Qed.

Lemma NoDup_arange n : NoDup (splitters.arange n).
Proof. apply NoDup_fmap_2; [apply _|apply NoDup_seq]. Qed.

Lemma holdout_tail_partitions : splitters.partitions (H := holdout_tail).
Proof.
  intros index [k|x] rs st train test; simpl; [|done].
  case_match; [|done]. intros [= <- <-]. by rewrite take_drop.
Qed.



(** C4, as it is stated, fails on four rows with a test size of four:
    scikit-learn rejects a test size that is not smaller than the number
    of rows, so [split] yields no pair at all (its first [next] raises the
    [ValueError]), while [get_n_splits] still answers 1. *)
Lemma split_yields_nothing_when_rejected :
  let self := splitters.MkTrainTestSplitter (splitters.SizeInt 4) 42 false in
  yielded (splitters.split (H := holdout_tail) self samples.train_inputs
             samples.train_targets None) = []
  /\ raises (next (splitters.split (H := holdout_tail) self samples.train_inputs
                     samples.train_targets None)) CValueError
  /\ splitters.get_n_splits self samples.train_inputs samples.train_targets None = 1.
Proof.
  intros self. split; [reflexivity|]. split; [|reflexivity].
  eexists. split; [reflexivity|reflexivity].
Qed.

(** ** Traces *)

Lemma traces_bind {A B} (c : M World A) (k : A -> M World B) Φ w :
  traces c (fun r w1 new1 =>
              match r with
              | Ok a => traces (k a) (fun r' w2 new2 => Φ r' w2 (new1 ++ new2)) w1
              | Raise e => Φ (Raise e) w1 new1
              end) w ->
  traces (bind c k) Φ w.
Proof.
  intros (new1 & Ht & H). unfold traces, bind.
  destruct (c w) as [[a|e] w1]; simpl in *.
  - destruct H as (new2 & Ht2 & H2). exists (new1 ++ new2).
    by rewrite Ht2, Ht, app_assoc.
  - by exists new1.
Qed.

Lemma traces_ret {A} (a : A) (Φ : Result A -> World -> list event -> Prop) w :
  Φ (Ok a) w [] -> traces (ret a) Φ w.
Proof. intros H. exists []. by rewrite app_nil_r. Qed.

Lemma traces_lift {A} (r : Result A) (Φ : Result A -> World -> list event -> Prop) w :
  Φ r w [] -> traces (lift r) Φ w.
Proof. intros H. exists []. by rewrite app_nil_r. Qed.

Lemma traces_get (Φ : Result World -> World -> list event -> Prop) w :
  Φ (Ok w) w [] -> traces get Φ w.
Proof. intros H. exists []. by rewrite app_nil_r. Qed.

Lemma traces_emit e (Φ : Result unit -> World -> list event -> Prop) w :
  Φ (Ok tt) (MkWorld (trace w ++ [e]) (model w)) [e] -> traces (emit e) Φ w.
Proof. intros H. by exists [e]. Qed.

Lemma traces_call {A} e (answer : list event -> Result A)
    (Φ : Result A -> World -> list event -> Prop) w :
  Φ (answer (trace w)) (MkWorld (trace w ++ [e]) (model w)) [e] ->
  traces (call e answer) Φ w.
Proof. intros H. by exists [e]. Qed.

Lemma traces_on_model {A} (c : M models.Model A)
    (Φ : Result A -> World -> list event -> Prop) w :
  Φ (c (model w)).1 (MkWorld (trace w) (c (model w)).2) [] ->
  traces (on_model c) Φ w.
Proof.
  intros H. exists []. unfold on_model.
  destruct (c (model w)) as [r m]. simpl in *. by rewrite app_nil_r.
Qed.

Lemma traces_mono {A} (c : M World A)
    (Φ Ψ : Result A -> World -> list event -> Prop) w :
  traces c Φ w -> (forall r w' new, Φ r w' new -> Ψ r w' new) -> traces c Ψ w.
Proof. intros (new & Ht & H) Himp. exists new. eauto. Qed.

Lemma steps_calls t : steps (calls t) = steps t.
Proof.
  induction t as [|e t IH]; [done|].
  unfold steps, calls in *. destruct e; cbn; by rewrite ?IH.
Qed.

Lemma steps_app t1 t2 : steps (t1 ++ t2) = steps t1 ++ steps t2.
Proof. apply omap_app. Qed.

Lemma calls_app t1 t2 : calls (t1 ++ t2) = calls t1 ++ calls t2.
Proof. apply List.filter_app. Qed.

Lemma steps_score_calls run_id te oe scorers values :
  length values = length scorers ->
  steps (score_calls run_id te oe scorers values) = scoring (length scorers).
Proof.
  revert values. induction scorers as [|s scorers IH]; intros [|v values] Hlen;
    try done.
  specialize (IH values). unfold score_calls, scoring, steps in *. cbn.
  do 2 f_equal. apply IH. simpl in Hlen. lia.
Qed.

Ltac step :=
  lazymatch goal with
  | |- traces (bind _ _) _ _ => apply traces_bind
  | |- traces (log _ _) _ _ => apply traces_emit
  | |- traces (emit _) _ _ => apply traces_emit
  | |- traces (call _ _) _ _ => apply traces_call
  | |- traces (lift _) _ _ => apply traces_lift
  | |- traces (ret _) _ _ => apply traces_ret
  | |- traces get _ _ => apply traces_get
  | |- traces (on_model _) _ _ => apply traces_on_model
  end; cbv beta iota zeta; cbn [trace model fst snd].

(** A call on the Model that leaves it as it is. *)
Ltac split_pure Hstable :=
  lazymatch goal with
  | |- context [match (?c ?m).1 with _ => _ end] =>
      let H := fresh "Hcall" in
      let Hs := fresh "Hs" in
      pose proof (Hstable m) as Hs;
      destruct (c m) as [[?|?] ?] eqn:H; cbn [fst snd] in *; subst
  end.

Section Scoring.
Context `{!Platform}.

Lemma call_method_Ok {A} name (body : M models.Model A) m a m' :
  models.call_method name body m = (Ok a, m') -> body m = (Ok a, m').
Proof. unfold models.call_method. by destruct (models.others m !! name). Qed.

Lemma encoded_ok m y codes m' :
  models.call_method "_encode_target" (models._encode_target y) m = (Ok codes, m') ->
  encoded m y = codes.
Proof. intros Henc%call_method_Ok. unfold encoded. by rewrite Henc. Qed.

Lemma stable_encode_call y :
  stable eq (models.call_method "_encode_target" (models._encode_target y)).
Proof.
  apply models_facts.stable_call_method; [apply _|].
  apply models_facts.stable_encode_target.
Qed.

Lemma traces_score_all run_id targets_test outputs_test scorers w :
  traces (training.score_all run_id targets_test outputs_test scorers)
    (fun r w' new =>
       model w' = model w
       /\ forallb imputed_event new = true
       /\ steps new `prefix_of` scoring (length scorers)
       /\ match r with
          | Ok _ =>
              exists values,
                length values = length scorers
                /\ calls new
                   = score_calls run_id (encoded (model w) targets_test)
                       (encoded (model w) outputs_test) scorers values
          | Raise _ => True
          end) w.
Proof.
  revert w. induction scorers as [|scorer scorers IH]; intros w.
  { simpl. step. split; [done|]. split; [done|]. split; [done|]. by exists []. }
  simpl. unfold training.score_one.
  repeat step.
  split_pure (stable_encode_call targets_test);
    [|split; [done|]; split; [done|]; split; [apply prefix_nil|done]].
  repeat step.
  split_pure (stable_encode_call outputs_test);
    [|split; [done|]; split; [done|]; split; [apply prefix_nil|done]].
  repeat step.
  destruct (metrics.score _ _ _ _) as [score|e] eqn:Hscore;
    [|split; [done|]; split; [done|]; split; [|done];
      by apply prefix_cons, prefix_nil].
  repeat step.
  destruct (client_log_metric _ _ _ _) as [[]|e] eqn:Hlog;
    [|split; [done|]; split; [done|]; split; [|done];
      by do 2 apply prefix_cons; apply prefix_nil].
  repeat step.
  eapply traces_mono; [apply IH|]. cbn [trace model].
  intros r w' new (Hm & Himp & Hpre & Hr).
  split; [done|]. split; [by simpl|]. split.
  { rewrite steps_app. cbn. do 2 apply prefix_cons. exact Hpre. }
  destruct r; [|done]. destruct Hr as (values & Hlen & Hcalls).
  exists (score :: values). split; [simpl; lia|].
  rewrite calls_app, Hcalls. cbn.
  by erewrite !encoded_ok by eassumption.
Qed.

End Scoring.

(** ** jobs/training.py: the run *)

Lemma check_inv data checked :
  schemas.FeatInputsSchema.check data = Ok checked -> checked = data.
Proof. unfold schemas.FeatInputsSchema.check. case_match; congruence. Qed.

Lemma forallb_impute rows :
  forallb categorical_filled (training.impute <$> rows) = true.
Proof.
  induction rows as [|r rows IH]; [done|]. cbn.
  rewrite IH. by destruct r as [a [t|] [m|] [d|]].
Qed.

Lemma at_position_elem_of {A} (rows : list A) i r :
  training.at_position rows i = Ok r -> r ∈ rows.
Proof.
  unfold training.at_position.
  destruct (_ && _); [|done].
  destruct (rows !! _) as [r'|] eqn:Hr; [|done].
  intros [= <-]. by eapply list_elem_of_lookup_2.
Qed.

Lemma iloc_forallb {A} (P : A -> bool) rows index sub :
  training.iloc rows index = Ok sub ->
  forallb P rows = true -> forallb P sub = true.
Proof.
  intros Hiloc Hall. revert sub Hiloc.
  induction index as [|i index IH]; intros sub; simpl; [by intros [= <-]|].
  destruct (training.at_position rows i) as [r|] eqn:Hr; [|done]. simpl.
  destruct (training.iloc rows index) as [rs|] eqn:Hrs; [|done]. simpl.
  intros [= <-]. simpl. rewrite (IH rs eq_refl), andb_true_r.
  apply at_position_elem_of, list_elem_of_In in Hr.
  rewrite forallb_forall in Hall. by apply Hall.
Qed.

Lemma forallb_dropna (P : FeatRow -> bool) rows :
  forallb P rows = true -> forallb P (training.dropna rows) = true.
Proof.
  rewrite !forallb_forall. intros Hall r [Hin _]%filter_In. by apply Hall.
Qed.

Ltac use_filled :=
  repeat match goal with
         | H : forallb _ _ = true |- _ => rewrite H
         end.

Ltac prefix_leaf :=
  rewrite ?steps_app;
  repeat match goal with
         | Hs : steps _ = scoring _ |- _ => rewrite Hs
         end;
  unfold plan; cbn;
  repeat first [apply prefix_nil | apply prefix_cons | apply prefix_app];
  try (etrans; [eassumption|apply prefix_app_r; reflexivity]).

Ltac imputed_leaf :=
  rewrite ?forallb_app; cbn; use_filled; reflexivity.

Ltac leaf := split; [prefix_leaf|split; [imputed_leaf|done]].

Section Training.
Context `{!Platform} `{!models.Estimators} `{!splitters.ModelSelection}.

Lemma traces_body self run_id w :
  traces (training.body self run_id)
    (fun r w' new =>
       steps new `prefix_of` plan (length (training.scorers self))
       /\ forallb imputed_event new = true
       /\ match r with
          | Ok l => trained self run_id w w' l new
          | Raise _ => True
          end) w.
Proof.
  unfold training.body, training.model_fit, training.model_predict.
  repeat step.
  destruct (reader_read _ _) as [inputs_|e] eqn:Hread; [|leaf].
  repeat step.
  destruct (schemas.FeatInputsSchema.check _) as [checked|e] eqn:Hcheck; [|leaf].
  apply check_inv in Hcheck as ->.
  set (selected := training.drop_duplicates (training.select <$> inputs_)) in *.
  pose proof (forallb_impute selected.*1) as Hfilled.
  repeat step.
  destruct (next _) as [[train_index test_index]|e] eqn:Hsplit; [|leaf].
  repeat step.
  destruct (training.iloc _ train_index) as [inputs_train|e] eqn:Hitr; [|leaf].
  pose proof (iloc_forallb _ _ _ _ Hitr Hfilled) as Hftr.
  repeat step.
  destruct (training.iloc _ test_index) as [inputs_test|e] eqn:Hite; [|leaf].
  pose proof (iloc_forallb _ _ _ _ Hite Hfilled) as Hfte.
  pose proof (forallb_dropna _ _ Hfte) as Hfdrop.
  repeat step.
  destruct (training.iloc selected.*2 train_index) as [targets_train|e] eqn:Httr; [|leaf].
  repeat step.
  destruct (training.iloc selected.*2 test_index) as [targets_test|e] eqn:Htte; [|leaf].
  repeat step.
  destruct (models.fit inputs_train targets_train (model w)) as [[r1|e] m1] eqn:Hfit1;
    cbn [fst snd]; [|leaf].
  repeat step.
  pose proof (models_facts.stable_predict inputs_test m1) as Hs.
  destruct (models.predict inputs_test m1) as [[outputs_test|e] m1'] eqn:Hpred;
    cbn [fst snd] in *; subst m1'; [|leaf].
  repeat step.
  eapply traces_mono; [apply traces_score_all|]. cbn [trace model].
  intros r w' new (Hm & Himp & Hpre & Hr).
  destruct r as [[]|e]; [|leaf].
  destruct Hr as (values & Hlen & Hcalls).
  assert (steps new = scoring (length (training.scorers self))) as Hsteps.
  { rewrite <- steps_calls, Hcalls. by apply steps_score_calls. }
  repeat step. rewrite Hm.
  destruct (models.fit _ _ m1) as [[r2|e] m2] eqn:Hfit2; cbn [fst snd]; [|leaf].
  repeat step.
  destruct (training.Signer_sign _ _ _) as [model_signature|e] eqn:Hsign; [|leaf].
  repeat step.
  destruct (saver_save _ _ _ _) as [model_uri|e] eqn:Hsave; [|leaf].
  repeat step.
  destruct (registry_register _ _ _) as [model_version|e] eqn:Hreg; [|leaf].
  repeat step.
  split; [prefix_leaf|]. split; [imputed_leaf|].
  unfold trained.
  cbn [training.inputs_ training.l_inputs training.l_targets
       training.train_index training.test_index training.inputs_train
       training.inputs_test training.targets_train training.targets_test
       training.outputs_test training.model_signature training.model_uri
       training.model_version model trace].
  rewrite Hfit1. cbn [fst snd].
  split; [done|]. split; [done|]. split; [exact Hsplit|].
  split; [exact Hitr|]. split; [exact Hite|].
  split; [exact Httr|]. split; [exact Htte|].
  split; [by exists r1|]. split; [exact Hpred|]. split; [by exists r2|].
  exists values. split; [exact Hlen|].
  rewrite !calls_app, Hcalls. reflexivity.
Qed.

End Training.

Lemma count_fit_scoring k :
  length (List.filter (fun s => bool_decide (s = SFit)) (scoring k)) = 0%nat.
Proof. unfold scoring. induction k as [|k IH]; [done|]. simpl. exact IH. Qed.

(** The plan fits the model exactly twice. *)
Lemma count_fit_plan k :
  length (List.filter (fun s => bool_decide (s = SFit)) (plan k)) = 2%nat.
Proof.
  unfold plan. rewrite !List.filter_app, !length_app, count_fit_scoring. done.
Qed.

Section Run.
Context `{!Platform} `{!models.Estimators} `{!splitters.ModelSelection}.

Lemma trained_steps self run_id w w' l new :
  trained self run_id w w' l new ->
  steps new = plan (length (training.scorers self)).
Proof.
  intros (_ & _ & _ & _ & _ & _ & _ & _ & _ & _ & values & Hlen & Hcalls).
  rewrite <- steps_calls, Hcalls, !steps_app, steps_score_calls by done.
  reflexivity.
Qed.

Lemma traces_run_context {A} config (body : string -> M World A)
    (Φ : Result (option A) -> World -> list event -> Prop) w :
  let w1 := MkWorld (trace w ++ [StartRun config]) (model w) in
  (forall e, mlflow_start_run (trace w) config = Raise e ->
             Φ (Raise e) w1 [StartRun config]) ->
  (forall run_id,
     mlflow_start_run (trace w) config = Ok run_id ->
     traces (body run_id)
       (fun r w2 new =>
          match r with
          | Ok a =>
              Φ (Ok (Some a))
                (MkWorld (trace w2 ++ [EndRun "FINISHED"]) (model w2))
                ([StartRun config] ++ new ++ [EndRun "FINISHED"])
          | Raise e =>
              Φ (Raise e)
                (MkWorld (trace w2 ++ [EndRun "FAILED"]) (model w2))
                ([StartRun config] ++ new ++ [EndRun "FAILED"])
          end) w1) ->
  traces (with_ (run_context_enter config) run_context_exit body) Φ w.
Proof.
  intros w1 Hraise Hok. unfold traces, with_, run_context_enter, call.
  destruct (mlflow_start_run (trace w) config) as [run_id|e] eqn:Hstart.
  - destruct (Hok run_id eq_refl) as (new & Ht & Hbody). fold w1.
    destruct (body run_id w1) as [[a|e] w2]; cbn in *.
    + eexists. split; [|exact Hbody]. by rewrite Ht, <- !app_assoc.
    + eexists. split; [|exact Hbody]. by rewrite Ht, <- !app_assoc.
  - exists [StartRun config]. split; [done|]. by apply Hraise.
Qed.

(** Every run of [TrainingJob.run]: its steps are a prefix of the plan,
    the rows it hands on are imputed, and a run that returns went through
    the whole body inside one tracking run that it closed as FINISHED. *)
Lemma traces_run self w :
  traces (training.run self)
    (fun r w' new =>
       steps new `prefix_of` plan (length (training.scorers self))
       /\ forallb imputed_event new = true
       /\ match r with
          | Ok (Some l) =>
              exists run_id new_body,
                trained self run_id w w' l new_body
                /\ calls new
                   = StartRun (training.run_config self) :: calls new_body
                       ++ [EndRun "FINISHED"]
          | Ok None => False
          | Raise _ => True
          end) w.
Proof.
  unfold training.run. repeat step.
  apply traces_run_context; cbn [trace model].
  { intros e _. split; [apply prefix_nil|done]. }
  intros run_id _.
  eapply traces_mono; [apply traces_body|]. cbn [trace model].
  intros r w2 new (Hpre & Himp & Hr).
  assert (steps ([Log "INFO" "With logger: {}"] ++ [Log "INFO" "With client: {}"]
                 ++ [StartRun (training.run_config self)] ++ new
                 ++ [EndRun "FINISHED"]) = steps new) as Hs1
    by (rewrite !steps_app; cbn; by rewrite app_nil_r).
  assert (steps ([Log "INFO" "With logger: {}"] ++ [Log "INFO" "With client: {}"]
                 ++ [StartRun (training.run_config self)] ++ new
                 ++ [EndRun "FAILED"]) = steps new) as Hs2
    by (rewrite !steps_app; cbn; by rewrite app_nil_r).
  destruct r as [l|e].
  - rewrite Hs1. split; [done|]. split.
    { rewrite !forallb_app, Himp. reflexivity. }
    exists run_id, new. split; [exact Hr|].
    rewrite !calls_app. reflexivity.
  - rewrite Hs2. split; [done|]. split; [|done].
    rewrite !forallb_app, Himp. reflexivity.
Qed.

End Run.

(** * Further properties *)


(** ** jobs/training.py: what a run does *)

Section RunFacts.
Context `{!Platform} `{!models.Estimators} `{!splitters.ModelSelection}.

Lemma run_returned self w w' l :
  training.run self w = (Ok (Some l), w') ->
  exists new run_id new_body,
    trace w' = trace w ++ new
    /\ forallb imputed_event new = true
    /\ trained self run_id w w' l new_body
    /\ calls new = StartRun (training.run_config self) :: calls new_body
                     ++ [EndRun "FINISHED"].
Proof.
  intros Hrun.
  destruct (traces_run self w) as (new & Ht & _ & Himp & Hr).
  rewrite Hrun in Ht, Hr. cbn [fst snd] in *.
  destruct Hr as (run_id & new_body & Htr & Hcalls).
  by exists new, run_id, new_body.
Qed.

End RunFacts.

Lemma count_split_plan k : length (List.filter (fun s => bool_decide (s = SSplit)) (plan k)) = 1%nat.
Proof.
  unfold plan. rewrite !List.filter_app, !length_app.
  assert (length (List.filter (fun s => bool_decide (s = SSplit)) (scoring k)) = 0%nat)
    as -> by (unfold scoring; induction k as [|k IH]; [done|exact IH]).
  done.
Qed.

(** C1, as the code has it: every execution of [TrainingJob.run] performs
    a prefix of the steps read, check, split, fit, predict, (score, log
    metric) per scorer, fit, sign, save, register, in this order, and ends
    at the first step that raises.  An execution that returns has
    performed all of them, inside the tracking run: it checked the
    deduplicated feature columns of what it read, split the imputed rows
    exactly once, fitted the model exactly twice, first on the train part
    and, after predicting and scoring the test part, on the entire
    dataset, signed with the predictions of the test part, and saved and
    registered the Model as the second fit left it. *)
Theorem training_run_performs_steps_in_order `{!Platform} `{!models.Estimators}
    `{!splitters.ModelSelection}
    (self : training.TrainingJob) (w w' : World) (l : training.Locals) :
  let k := length (training.scorers self) in
  (exists new,
     trace (training.run self w).2 = trace w ++ new
     /\ steps new `prefix_of` plan k)
  /\ (training.run self w = (Ok (Some l), w') ->
      let selected :=
        training.drop_duplicates (training.select <$> training.inputs_ l) in
      let m1 := (models.fit (training.inputs_train l) (training.targets_train l)
                   (model w)).2 in
      exists new run_id values,
        trace w' = trace w ++ new
        /\ steps new = plan k
        /\ count_step SSplit new = 1%nat
        /\ count_step SFit new = 2%nat
        /\ length values = k
        /\ calls new
           = [ StartRun (training.run_config self);
               Read (training.inputs self);
               Check selected.*1;
               Split (length (training.l_inputs l)) (training.l_targets l);
               Fit (training.inputs_train l) (training.targets_train l);
               Predict (training.inputs_test l) ]
             ++ score_calls run_id (encoded m1 (training.targets_test l))
                  (encoded m1 (training.outputs_test l))
                  (training.scorers self) values
             ++ [ Fit (training.l_inputs l) (training.l_targets l);
                  Sign (training.dropna (training.inputs_test l))
                       (training.outputs_test l);
                  Save (model w') (training.model_signature l)
                       (training.l_inputs l);
                  Register
                    (services.registry_name
                       (base.mlflow_service (training.job self)))
                    (training.model_uri l);
                  EndRun "FINISHED" ]
        /\ training.l_inputs l = training.impute <$> selected.*1
        /\ training.l_targets l = selected.*2
        /\ next (splitters.split (training.splitter self) (training.l_inputs l)
                   (training.l_targets l) None)
           = Ok (training.train_index l, training.test_index l)
        /\ training.iloc (training.l_inputs l) (training.train_index l)
           = Ok (training.inputs_train l)
        /\ training.iloc (training.l_inputs l) (training.test_index l)
           = Ok (training.inputs_test l)
        /\ models.predict (training.inputs_test l) m1
           = (Ok (training.outputs_test l), m1)
        /\ exists r,
             models.fit (training.l_inputs l) (training.l_targets l) m1
             = (Ok r, model w')).
Proof.
  intros k. split.
  { destruct (traces_run self w) as (new & Ht & Hpre & _). by exists new. }
  intros (new & run_id & new_body & Ht & _ & Htr & Hcalls)%run_returned selected m1.
  pose proof (trained_steps _ _ _ _ _ _ Htr) as Hplan.
  destruct Htr as (Htargets & Hinputs & Hsplit & Hitr & Hite & _ & _ & _ & Hpredict
                   & Hfit & values & Hlen & Hbody).
  assert (steps new = plan k) as Hsteps.
  { rewrite <- steps_calls, Hcalls.
    change (StartRun (training.run_config self) :: calls new_body ++ [EndRun "FINISHED"])
      with ([StartRun (training.run_config self)] ++ calls new_body ++ [EndRun "FINISHED"]).
    rewrite !steps_app, steps_calls, Hplan. cbn. by rewrite app_nil_r. }
  exists new, run_id, values. split; [done|]. split; [done|].
  unfold count_step. rewrite Hsteps.
  split; [apply count_split_plan|]. split; [apply count_fit_plan|].
  split; [done|]. split.
  { rewrite Hcalls, Hbody. cbn. by rewrite <- !app_assoc. }
  done.
Qed.

Lemma training_run_performs_steps_in_order_witness :
  exists l new,
    demo_run = (Ok (Some l), demo_run.2)
    /\ trace demo_run.2 = new
    /\ steps new
       = [SRead; SCheck; SSplit; SFit; SPredict; SScore; SLogMetric;
          SFit; SSign; SSave; SRegister]
    /\ count_step SFit new = 2%nat.
Proof.
  assert (exists l, demo_run = (Ok (Some l), demo_run.2)) as [l Hrun]
    by (vm_compute; eexists; reflexivity).
  destruct (training_run_performs_steps_in_order (H := demo_platform)
              (H0 := samples.constant_classifier) (H1 := holdout_tail)
              demo_job empty_world demo_run.2 l) as (_ & Hok).
  destruct (Hok Hrun) as (new & _ & _ & Ht & Hsteps & _ & Hfits & _).
  exists l, new. split; [exact Hrun|]. split; [exact Ht|].
  split; [exact Hsteps|exact Hfits].
Defined.

(** C1, as it is stated, fails on data that the schema rejects: the run
    reads, checks, and ends with the [SchemaError] of the check; the
    model is never fitted and nothing is saved or registered. *)
Lemma training_run_stops_at_failed_check :
  raises rejected_run.1 CSchemaError
  /\ steps (trace rejected_run.2) = [SRead; SCheck]
  /\ count_step SFit (trace rejected_run.2) = 0%nat
  /\ count_step SSave (trace rejected_run.2) = 0%nat.
Proof.
  split; [|by vm_compute].
  eexists. split; [vm_compute; reflexivity|reflexivity].
Qed.





Lemma iloc_elem_of {A} (rows : list A) index sub r :
  training.iloc rows index = Ok sub -> r ∈ sub -> r ∈ rows.
Proof.
  revert sub. induction index as [|i index IH]; intros sub; simpl.
  { intros [= <-] Hin. by apply elem_of_nil in Hin. }
  destruct (training.at_position rows i) as [x|] eqn:Hx; [|done]. simpl.
  destruct (training.iloc rows index) as [rs|] eqn:Hrs; [|done]. simpl.
  intros [= <-] [->|Hin]%elem_of_cons; [by eapply at_position_elem_of|].
  by eapply IH.
Qed.

Lemma bind_inv {S A B} (c : M S A) (k : A -> M S B) s b s' :
  bind c k s = (Ok b, s') ->
  exists a s1, c s = (Ok a, s1) /\ k a s1 = (Ok b, s').
Proof.
  unfold bind. destruct (c s) as [[a|e] s1]; [|done]. intros Hk. by exists a, s1.
Qed.

Ltac invert_binds H :=
  repeat (cbv beta zeta in H; apply bind_inv in H as (? & ? & ? & H)).

Ltac invert_world :=
  repeat match goal with
         | H : log _ _ _ = (Ok _, _) |- _ =>
             unfold log, emit in H; injection H as <- <-
         | H : emit _ _ = (Ok _, _) |- _ =>
             unfold emit in H; injection H as <- <-
         | H : call _ _ _ = (Ok _, _) |- _ =>
             unfold call in H; injection H as H <-
         | H : lift _ _ = (Ok _, _) |- _ =>
             unfold lift in H; injection H as H <-
         | H : get _ = (Ok _, _) |- _ =>
             unfold get in H; injection H as <- <-
         | H : on_model ?c ?w = (Ok _, _) |- _ =>
             let r := fresh "r" in
             let m := fresh "m" in
             let Hc := fresh "Hcall" in
             unfold on_model in H;
             destruct (c (model w)) as [r m] eqn:Hc;
             injection H as -> <-
         end.

Ltac invert_all :=
  repeat match goal with
         | H : bind _ _ _ = (Ok _, _) |- _ =>
             apply bind_inv in H as (? & ? & ? & H); cbv beta zeta in H
         end.

Section RunRead.
Context `{!Platform} `{!models.Estimators} `{!splitters.ModelSelection}.

(** A run that returns has run the body to its end, in the tracking run
    it opened after its two log records. *)
Lemma run_inv_body_model self w l w' :
  training.run self w = (Ok (Some l), w') ->
  exists run_id w1 w2,
    model w1 = model w
    /\ trace w1 = trace w ++ [ Log "INFO" "With logger: {}";
                               Log "INFO" "With client: {}";
                               StartRun (training.run_config self) ]
    /\ training.body self run_id w1 = (Ok l, w2).
Proof.
  unfold training.run, with_, bind, log, emit, run_context_enter, call.
  intros Hrun. cbn [trace model] in Hrun.
  match type of Hrun with
  | context [mlflow_start_run ?h ?c] =>
      destruct (mlflow_start_run h c) as [run_id|e]; [|done]
  end.
  match type of Hrun with
  | context [training.body self run_id ?w1] =>
      destruct (training.body self run_id w1) as [[l'|e] w2] eqn:Hbody;
      [|done]; exists run_id, w1, w2
  end.
  split; [reflexivity|]. split; [by rewrite <- !app_assoc|].
  by injection Hrun as <- _.
Qed.

(** The rows that the body binds to [inputs_] are what the reader
    answered, and the reader is asked before any other outside call. *)
Lemma body_read self run_id w l w' :
  training.body self run_id w = (Ok l, w') ->
  reader_read (trace w ++ [ Log "INFO" "With Mlflow Run: {}";
                            Log "INFO" "Read inputs: {}" ])
    (training.inputs self)
  = Ok (training.inputs_ l).
Proof.
  unfold training.body. intros Hbody. invert_binds Hbody.
  unfold ret in Hbody. injection Hbody as <- _. cbn [training.inputs_].
  invert_world.
  match goal with
  | H : reader_read _ _ = Ok _ |- _ => cbn [trace] in H; rewrite <- app_assoc in H; exact H
  end.
Qed.

End RunRead.

(** C7, as the code has it: [TrainingJob.run] imputes every missing
    value of the categorical feature columns with a fixed literal:
    "No marchant" (the spelling of the code) for MERCHANT_NAME,
    "No Description" for DESCRIPTION and "No type payment" for
    TYPE_OF_PAYMENT, and leaves AMOUNT and the present values as they
    are.  It does so before it splits and fits: in every run, failed or
    not, the rows of every fit and prediction have no missing categorical
    value, and in a run that returns the rows that are split, of which
    the train and test parts are taken, and the rows of both fits are the
    imputed rows. *)
Theorem training_run_imputes_missing_values `{!Platform} `{!models.Estimators}
    `{!splitters.ModelSelection}
    (self : training.TrainingJob) (w w' : World) (l : training.Locals) :
  (forall r : FeatRow,
     schemas.FeatInputsSchema.MERCHANT_NAME (training.impute r)
       = Some (default "No marchant" (schemas.FeatInputsSchema.MERCHANT_NAME r))
     /\ schemas.FeatInputsSchema.DESCRIPTION (training.impute r)
        = Some (default "No Description" (schemas.FeatInputsSchema.DESCRIPTION r))
     /\ schemas.FeatInputsSchema.TYPE_OF_PAYMENT (training.impute r)
        = Some (default "No type payment"
                  (schemas.FeatInputsSchema.TYPE_OF_PAYMENT r))
     /\ schemas.FeatInputsSchema.AMOUNT (training.impute r)
        = schemas.FeatInputsSchema.AMOUNT r)
  /\ (exists new,
        trace (training.run self w).2 = trace w ++ new
        /\ forallb imputed_event new = true)
  /\ (training.run self w = (Ok (Some l), w') ->
      training.l_inputs l
      = training.impute
          <$> (training.drop_duplicates
                 (training.select <$> training.inputs_ l)).*1
      /\ next (splitters.split (training.splitter self) (training.l_inputs l)
                 (training.l_targets l) None)
         = Ok (training.train_index l, training.test_index l)
      /\ training.iloc (training.l_inputs l) (training.train_index l)
         = Ok (training.inputs_train l)
      /\ training.iloc (training.l_inputs l) (training.test_index l)
         = Ok (training.inputs_test l)
      /\ exists new,
           trace w' = trace w ++ new
           /\ List.filter (fun e => bool_decide (step_of e = Some SFit)) new
              = [ Fit (training.inputs_train l) (training.targets_train l);
                  Fit (training.l_inputs l) (training.l_targets l) ]).
Proof.
  split.
  { intros r. by destruct r as [a [t|] [m|] [d|]]. }
  split.
  { destruct (traces_run self w) as (new & Ht & _ & Himp & _). by exists new. }
  intros (new & run_id & new_body & Ht & _ & Htr & Hcalls)%run_returned.
  destruct Htr as (_ & Hinputs & Hsplit & Hitr & Hite & _ & _ & _ & _ & _
                   & values & Hlen & Hbody).
  split; [done|]. split; [done|]. split; [done|]. split; [done|].
  exists new. split; [done|].
  assert (forall t, List.filter (fun e => bool_decide (step_of e = Some SFit)) t
                    = List.filter (fun e => bool_decide (step_of e = Some SFit))
                        (calls t)) as Hfilter.
  { intros t. unfold calls. induction t as [|e t IH]; [done|].
    destruct e; cbn; by rewrite ?IH. }
  rewrite Hfilter, Hcalls, Hbody. cbn. rewrite !List.filter_app. cbn.
  assert (List.filter (fun e => bool_decide (step_of e = Some SFit))
            (score_calls run_id
               (encoded (models.fit (training.inputs_train l)
                           (training.targets_train l) (model w)).2
                  (training.targets_test l))
               (encoded (models.fit (training.inputs_train l)
                           (training.targets_train l) (model w)).2
                  (training.outputs_test l))
               (training.scorers self) values) = []) as ->; [|done].
  clear. generalize (training.scorers self). intros scorers. revert values.
  unfold score_calls.
  induction scorers as [|s scorers IH]; intros [|v values]; try done.
  cbn. apply IH.
Qed.

Lemma training_run_imputes_missing_values_witness :
  exists l,
    demo_run = (Ok (Some l), demo_run.2)
    /\ training.l_inputs l
       = training.impute
           <$> (training.drop_duplicates
                  (training.select <$> training.inputs_ l)).*1
    /\ schemas.FeatInputsSchema.MERCHANT_NAME <$> training.l_inputs l
       = [Some "A"; Some "A"; Some "No marchant"; Some "A"].
Proof.
  assert (exists l, demo_run = (Ok (Some l), demo_run.2)
                    /\ schemas.FeatInputsSchema.MERCHANT_NAME <$> training.l_inputs l
                       = [Some "A"; Some "A"; Some "No marchant"; Some "A"])
    as (l & Hrun & Hm) by (vm_compute; eexists; split; reflexivity).
  destruct (training_run_imputes_missing_values (H := demo_platform)
              (H0 := samples.constant_classifier) (H1 := holdout_tail)
              demo_job empty_world demo_run.2 l) as (_ & _ & Hok).
  destruct (Hok Hrun) as (Hinputs & _).
  exists l. split; [exact Hrun|]. split; [exact Hinputs|exact Hm].
Defined.

(** X2: before it splits the rows, [TrainingJob.run] replaces a missing
    MERCHANT_NAME by "No marchant", a missing DESCRIPTION by
    "No Description" and a missing TYPE_OF_PAYMENT by "No type payment".
    In every run, failed or not, no row handed to the model, the signer
    or the saver has a missing categorical value.  In a run that returns,
    [inputs_] is what the reader answered, asked first inside the tracking
    run; the rows that are split are the imputed, deduplicated feature
    rows of it, and every train or test row is such a row: its AMOUNT and
    its present values are those that were read. *)
Theorem training_run_imputes_before_split `{!Platform} `{!models.Estimators}
    `{!splitters.ModelSelection}
    (self : training.TrainingJob) (w w' : World) (l : training.Locals) :
  (exists new,
     trace (training.run self w).2 = trace w ++ new
     /\ forallb imputed_event new = true)
  /\ (training.run self w = (Ok (Some l), w') ->
      let selected :=
        training.drop_duplicates (training.select <$> training.inputs_ l) in
      reader_read
        (trace w ++ [ Log "INFO" "With logger: {}";
                      Log "INFO" "With client: {}";
                      StartRun (training.run_config self);
                      Log "INFO" "With Mlflow Run: {}";
                      Log "INFO" "Read inputs: {}" ])
        (training.inputs self)
      = Ok (training.inputs_ l)
      /\ training.l_inputs l = training.impute <$> selected.*1
      /\ training.l_targets l = selected.*2
      /\ next (splitters.split (training.splitter self) (training.l_inputs l)
                 (training.l_targets l) None)
         = Ok (training.train_index l, training.test_index l)
      /\ forall r, r ∈ training.inputs_train l ++ training.inputs_test l ->
           exists r0,
             r0 ∈ selected.*1
             /\ schemas.FeatInputsSchema.AMOUNT r = schemas.FeatInputsSchema.AMOUNT r0
             /\ schemas.FeatInputsSchema.MERCHANT_NAME r
                = Some (default "No marchant" (schemas.FeatInputsSchema.MERCHANT_NAME r0))
             /\ schemas.FeatInputsSchema.DESCRIPTION r
                = Some (default "No Description" (schemas.FeatInputsSchema.DESCRIPTION r0))
             /\ schemas.FeatInputsSchema.TYPE_OF_PAYMENT r
                = Some (default "No type payment"
                          (schemas.FeatInputsSchema.TYPE_OF_PAYMENT r0))).
Proof.
  split.
  { destruct (traces_run self w) as (new & Ht & _ & Himp & _). by exists new. }
  intros Hrun selected.
  destruct (run_inv_body_model _ _ _ _ Hrun) as (rid & w1 & w2 & _ & Ht1 & Hread%body_read).
  rewrite Ht1, <- app_assoc in Hread. cbn [app] in Hread.
  apply run_returned in Hrun as (new & run_id & new_body & _ & _ & Htr & _).
  destruct Htr as (Htargets & Hinputs & Hsplit & Hitr & Hite & _).
  fold selected in Htargets, Hinputs.
  split; [exact Hread|]. split; [done|]. split; [done|]. split; [done|].
  intros r Hr.
  assert (r ∈ training.l_inputs l) as Hin.
  { apply elem_of_app in Hr as [Hr|Hr];
      [exact (iloc_elem_of _ _ _ _ Hitr Hr)|exact (iloc_elem_of _ _ _ _ Hite Hr)]. }
  rewrite Hinputs in Hin. apply list_elem_of_fmap in Hin as (r0 & -> & Hr0).
  exists r0. split; [done|]. by destruct r0 as [a [t|] [m|] [d|]].
Qed.

Lemma training_run_imputes_before_split_witness :
  exists l,
    demo_run = (Ok (Some l), demo_run.2)
    /\ training.inputs_ l = demo_rows
    /\ training.l_inputs l
       = [ schemas.FeatInputsSchema.Row 10%float (Some "No type payment")
             (Some "A") (Some "No Description");
           schemas.FeatInputsSchema.Row 20%float (Some "No type payment")
             (Some "A") (Some "No Description");
           schemas.FeatInputsSchema.Row 30%float (Some "No type payment")
             (Some "No marchant") (Some "No Description");
           schemas.FeatInputsSchema.Row 40%float (Some "No type payment")
             (Some "A") (Some "No Description") ].
Proof.
  assert (exists l, demo_run = (Ok (Some l), demo_run.2)) as (l & Hrun)
    by (vm_compute; eexists; reflexivity).
  destruct (training_run_imputes_before_split (H := demo_platform)
              (H0 := samples.constant_classifier) (H1 := holdout_tail)
              demo_job empty_world demo_run.2 l) as (_ & Hok).
  destruct (Hok Hrun) as (Hread & Hinputs & _).
  injection Hread as Hread.
  exists l. split; [exact Hrun|]. split; [by symmetry|].
  rewrite Hinputs, <- Hread. reflexivity.
Defined.



(** ** The life cycle of a job *)

(** [advances P w w']: from [w] to [w'] the trace grew by events that
    satisfy [P], and the Model kept its class and its hyperparameters. *)
Definition advances (P : event -> bool) (w w' : World) : Prop :=
  models_facts.same_hyperparameters (model w) (model w')
  /\ exists new, trace w' = trace w ++ new /\ forallb P new = true.

#[export] Existing Instance models_facts.same_hyperparameters_refl.
#[export] Existing Instance models_facts.same_hyperparameters_trans.

#[export] Instance advances_refl P : Reflexive (advances P).
Proof. intros w. split; [reflexivity|]. exists []. by rewrite app_nil_r. Qed.

#[export] Instance advances_trans P : Transitive (advances P).
Proof.
  intros w1 w2 w3 (Hm1 & new1 & Ht1 & Hp1) (Hm2 & new2 & Ht2 & Hp2).
  split; [by etrans|]. exists (new1 ++ new2).
  by rewrite Ht2, Ht1, app_assoc, forallb_app, Hp1, Hp2.
Qed.

Lemma stable_get {S} (R : S -> S -> Prop) `{!Reflexive R} : stable R get.
Proof. intros s. simpl. reflexivity. Qed.

Lemma stable_weaken {S A} (R R' : S -> S -> Prop) (c : M S A) :
  (forall s s', R s s' -> R' s s') -> stable R c -> stable R' c.
Proof. intros Himp Hc s. apply Himp, Hc. Qed.

Lemma advances_emit P e : P e = true -> stable (advances P) (emit e).
Proof.
  intros He w. split; [simpl; reflexivity|]. exists [e]. simpl. by rewrite He.
Qed.

Lemma advances_call {A} P e (answer : list event -> Result A) :
  P e = true -> stable (advances P) (call e answer).
Proof.
  intros He w. split; [simpl; reflexivity|]. exists [e]. simpl. by rewrite He.
Qed.

Lemma advances_on_model {A} P (c : M models.Model A) :
  stable models_facts.same_hyperparameters c -> stable (advances P) (on_model c).
Proof.
  intros Hc w. specialize (Hc (model w)). unfold on_model.
  destruct (c (model w)) as [r m]. simpl in *. split; [done|].
  exists []. by rewrite app_nil_r.
Qed.

Lemma same_hyperparameters_eq {A} (c : M models.Model A) :
  stable eq c -> stable models_facts.same_hyperparameters c.
Proof. apply stable_weaken. by intros m ? <-. Qed.

Ltac stable_step :=
  lazymatch goal with
  | |- stable _ (bind _ _) => apply stable_bind; [apply _| |intros ?]
  | |- stable _ (log _ _) => apply advances_emit; reflexivity
  | |- stable _ (emit _) => apply advances_emit; reflexivity
  | |- stable _ (call _ _) => apply advances_call; reflexivity
  | |- stable _ (lift _) => apply stable_lift, _
  | |- stable _ (ret _) => apply stable_ret, _
  | |- stable _ get => apply stable_get, _
  | |- stable _ (on_model (models.fit _ _)) =>
      apply advances_on_model, models_facts.stable_fit
  | |- stable _ (on_model (models.predict _)) =>
      apply advances_on_model, same_hyperparameters_eq, models_facts.stable_predict
  | |- stable _ (on_model (models.call_method _ (models._encode_target _))) =>
      apply advances_on_model, same_hyperparameters_eq, stable_encode_call
  end.

Section Lifecycle.
Context `{!Platform} `{!models.Estimators} `{!splitters.ModelSelection}.

Lemma advances_score_all run_id targets_test outputs_test scorers :
  stable (advances is_work)
    (training.score_all run_id targets_test outputs_test scorers).
Proof.
  induction scorers as [|scorer scorers IH]; simpl; [apply stable_ret, _|].
  apply stable_bind; [apply _| |intros _; exact IH].
  unfold training.score_one. repeat stable_step.
Qed.

Lemma advances_body self run_id :
  stable (advances is_work) (training.body self run_id).
Proof.
  unfold training.body, training.model_fit, training.model_predict. cbv zeta.
  repeat first [stable_step | apply advances_score_all].
Qed.

(** [TrainingJob.run] from [w]: what it returns and the world it leaves. *)
Lemma run_lifecycle self w :
  models_facts.same_hyperparameters (model w) (model (training.run self w).2)
  /\ exists new,
       trace (training.run self w).2 = trace w ++ new
       /\ match (training.run self w).1 with
          | Ok (Some _) =>
              lifecycle new = [StartRun (training.run_config self); EndRun "FINISHED"]
          | Ok None => False
          | Raise _ =>
              lifecycle new = [StartRun (training.run_config self)]
              \/ lifecycle new = [StartRun (training.run_config self); EndRun "FAILED"]
          end.
Proof.
  unfold training.run, log, emit, bind, with_, run_context_enter, run_context_exit,
    call, ret. cbn [trace model fst snd].
  set (w1 := MkWorld _ (model w)).
  destruct (mlflow_start_run _ _) as [run_id|e].
  2:{ split; [reflexivity|]. eexists. cbn.
      split; [by rewrite <- !app_assoc|]. by left. }
  destruct (advances_body self run_id w1) as (Hm & new & Ht & Hwork).
  assert (lifecycle new = []) as Hnone.
  { unfold lifecycle. clear Ht. induction new as [|e new IH]; [done|].
    simpl in *. apply andb_true_iff in Hwork as [He Hnew].
    unfold is_work in He. apply negb_true_iff in He. rewrite He. by apply IH. }
  destruct (training.body self run_id w1) as [[l|e] w2];
    unfold bind, emit; cbn [trace model fst snd] in *.
  - split; [done|]. exists ([Log "INFO" "With logger: {}"; Log "INFO" "With client: {}";
                            StartRun (training.run_config self)] ++ new
                           ++ [EndRun "FINISHED"]).
    split; [by rewrite Ht; subst w1; cbn; rewrite <- !app_assoc|].
    unfold lifecycle in *. rewrite !List.filter_app, Hnone. reflexivity.
  - split; [done|]. exists ([Log "INFO" "With logger: {}"; Log "INFO" "With client: {}";
                            StartRun (training.run_config self)] ++ new
                           ++ [EndRun "FAILED"]).
    split; [by rewrite Ht; subst w1; cbn; rewrite <- !app_assoc|].
    right. unfold lifecycle in *. rewrite !List.filter_app, Hnone. reflexivity.
Qed.

(** [__enter__] from [w]: the services it started before it returned or
    raised. *)
Lemma enter_lifecycle (job : base.Job) w :
  model (base.__enter__ job w).2 = model w
  /\ exists new,
       trace (base.__enter__ job w).2 = trace w ++ new
       /\ match (base.__enter__ job w).1 with
          | Ok runner =>
              runner = job /\ lifecycle new = [Start Logger; Start AWS; Start Mlflow]
          | Raise _ =>
              lifecycle new = [Start Logger]
              \/ lifecycle new = [Start Logger; Start AWS]
              \/ lifecycle new = [Start Logger; Start AWS; Start Mlflow]
          end.
Proof.
  unfold base.__enter__, LoggerService_start, AWSService_start,
    MlflowService_start, log, emit, call, bind, ret. cbn [trace model fst snd].
  destruct (loguru_add _ _); cbn [trace model fst snd].
  2:{ split; [done|]. exists [Start Logger]. split; [done|]. by left. }
  destruct (boto3_setup_default_session _ _); cbn [trace model fst snd].
  2:{ split; [done|]. eexists. split; [by rewrite <- !app_assoc|]. right. by left. }
  destruct (mlflow_setup _ _); cbn [trace model fst snd].
  2:{ split; [done|]. eexists. split; [by rewrite <- !app_assoc|]. right. by right. }
  split; [done|]. eexists. split; [by rewrite <- !app_assoc|]. done.
Qed.

End Lifecycle.


Section JobFacts.
Context `{!Platform} `{!models.Estimators} `{!splitters.ModelSelection}.

Lemma lifecycle_app t1 t2 : lifecycle (t1 ++ t2) = lifecycle t1 ++ lifecycle t2.
Proof. apply List.filter_app. Qed.

Lemma run_job_cases self w :
  models_facts.same_hyperparameters (model w) (model (run_job self w).2)
  /\ exists new,
       trace (run_job self w).2 = trace w ++ new
       /\ match (run_job self w).1 with
          | Ok (Some (Some _)) =>
              lifecycle new
              = [ Start Logger; Start AWS; Start Mlflow;
                  StartRun (training.run_config self); EndRun "FINISHED";
                  Stop Mlflow; Stop AWS; Stop Logger ]
          | Ok _ => False
          | Raise _ =>
              lifecycle new
              ∈ [ [Start Logger];
                  [Start Logger; Start AWS];
                  [Start Logger; Start AWS; Start Mlflow];
                  [ Start Logger; Start AWS; Start Mlflow;
                    StartRun (training.run_config self);
                    Stop Mlflow; Stop AWS; Stop Logger ];
                  [ Start Logger; Start AWS; Start Mlflow;
                    StartRun (training.run_config self); EndRun "FAILED";
                    Stop Mlflow; Stop AWS; Stop Logger ] ]
          end.
Proof.
  unfold run_job, base.with_job, with_.
  destruct (enter_lifecycle (training.job self) w) as (Hm1 & new1 & Ht1 & Hr1).
  destruct (base.__enter__ (training.job self) w) as [[runner|e] w1];
    cbn [fst snd] in *.
  2:{ split; [by rewrite Hm1|]. exists new1. split; [done|].
      destruct Hr1 as [Hl | [Hl | Hl]]; rewrite Hl; set_solver. }
  destruct Hr1 as [-> Hl1].
  destruct (run_lifecycle self w1) as (Hm2 & new2 & Ht2 & Hr2).
  destruct (training.run self w1) as [[[l|]|e] w2]; cbn [fst snd] in *;
    rewrite exit_runs; cbn [fst snd trace model]; [|done|].
  - split; [by rewrite <- Hm1|]. exists (new1 ++ new2 ++ teardown).
    split; [by rewrite Ht2, Ht1, <- !app_assoc|].
    by rewrite !lifecycle_app, Hl1, Hr2.
  - split; [by rewrite <- Hm1|]. exists (new1 ++ new2 ++ teardown).
    split; [by rewrite Ht2, Ht1, <- !app_assoc|].
    rewrite !lifecycle_app, Hl1. destruct Hr2 as [Hl | Hl]; rewrite Hl; set_solver.
Qed.

End JobFacts.


(** X4: a training job never changes the class or a hyperparameter of
    its Model: whatever the job returns or raises, every field other than
    [pipeline] and [le] holds afterwards what it held before. *)
Theorem training_job_keeps_hyperparameters `{!Platform} `{!models.Estimators}
    `{!splitters.ModelSelection}
    (self : training.TrainingJob) (w : World) (key : string) :
  key <> "le" -> key <> "pipeline" ->
  models.class_of (model (run_job self w).2) = models.class_of (model w)
  /\ models.fields (model (run_job self w).2) !! key
     = models.fields (model w) !! key.
Proof.
  intros Hle Hpipeline. destruct (run_job_cases self w) as ([Hc Hf] & _).
  split; [done|]. by apply Hf.
Qed.

Lemma training_job_keeps_hyperparameters_witness :
  models.fields
    (model (run_job (H := demo_platform) (H0 := samples.constant_classifier)
              (H1 := holdout_tail) demo_job empty_world).2)
    !! "corespondance_table_path"
  = Some (models.VStr "data/corespondance_table.csv").
Proof.
  destruct (training_job_keeps_hyperparameters (H := demo_platform)
              (H0 := samples.constant_classifier) (H1 := holdout_tail)
              demo_job empty_world "corespondance_table_path")
    as [_ Hkey]; [done|done|].
  rewrite Hkey. reflexivity.
Defined.



(** ** jobs/training.py: the two parts of the split *)

Lemma at_position_lookup {A} (rows : list A) i r :
  0 <= i -> training.at_position rows i = Ok r -> rows !! Z.to_nat i = Some r.
Proof.
  intros Hi. unfold training.at_position.
  destruct (i <? 0) eqn:Hneg; [lia|].
  destruct (_ && _); [|done]. by destruct (rows !! Z.to_nat i); intros [= <-].
Qed.

Lemma iloc_omap {A} (rows : list A) index sub :
  Forall (fun i => 0 <= i) index ->
  training.iloc rows index = Ok sub ->
  omap (fun i => rows !! Z.to_nat i) index = sub.
Proof.
  intros Hpos. revert sub. induction Hpos as [|i index Hi Hpos IH]; intros sub; simpl.
  { by intros [= <-]. }
  destruct (training.at_position rows i) as [r|] eqn:Hr; [|done]. simpl.
  destruct (training.iloc rows index) as [rs|] eqn:Hrs; [|done]. simpl.
  intros [= <-]. rewrite (at_position_lookup _ _ _ Hi Hr). simpl.
  f_equal. by apply IH.
Qed.

Lemma iloc_zip {A B} (a : list A) (b : list B) index sa sb :
  Forall (fun i => 0 <= i) index ->
  training.iloc a index = Ok sa ->
  training.iloc b index = Ok sb ->
  omap (fun i => zip a b !! Z.to_nat i) index = zip sa sb.
Proof.
  intros Hpos. revert sa sb.
  induction Hpos as [|i index Hi Hpos IH]; intros sa sb; simpl.
  { by intros [= <-] [= <-]. }
  destruct (training.at_position a i) as [x|] eqn:Hx; [|done]. simpl.
  destruct (training.iloc a index) as [xs|] eqn:Hxs; [|done]. simpl.
  intros [= <-].
  destruct (training.at_position b i) as [y|] eqn:Hy; [|done]. simpl.
  destruct (training.iloc b index) as [ys|] eqn:Hys; [|done]. simpl.
  intros [= <-].
  apply at_position_lookup in Hx, Hy; [|done..].
  assert (zip a b !! Z.to_nat i = Some (x, y)) as -> by by apply lookup_zip_Some.
  simpl. f_equal. by apply IH.
Qed.

Lemma iloc_length {A} (rows : list A) index sub :
  training.iloc rows index = Ok sub -> length sub = length index.
Proof.
  revert sub. induction index as [|i index IH]; intros sub; simpl.
  { by intros [= <-]. }
  destruct (training.at_position rows i); [|done]. simpl.
  destruct (training.iloc rows index) as [rs|]; [|done]. simpl.
  intros [= <-]. simpl. by rewrite (IH rs).
Qed.

Lemma omap_lookup_seq {A} (pre rows : list A) :
  omap (fun i => (pre ++ rows) !! Z.to_nat i)
    (Z.of_nat <$> seq (length pre) (length rows)) = rows.
Proof.
  revert pre. induction rows as [|r rows IH]; intros pre; [done|].
  simpl. rewrite Nat2Z.id, list_lookup_middle by done. simpl. f_equal.
  specialize (IH (pre ++ [r])). rewrite <- app_assoc, length_app in IH.
  simpl in IH. by rewrite Nat.add_1_r in IH.
Qed.

Lemma omap_lookup_arange {A} (rows : list A) :
  omap (fun i => rows !! Z.to_nat i) (splitters.arange (length rows)) = rows.
Proof. apply (omap_lookup_seq [] rows). Qed.

Lemma next_split_inv `{!splitters.ModelSelection} {A} self (inputs : list A)
    targets groups train test :
  next (splitters.split self inputs targets groups) = Ok (train, test) ->
  splitters.train_test_split (splitters.arange (length inputs))
    (splitters.test_size self) (splitters.random_state self)
    (if splitters.stratify self then Some targets else None) = Ok (train, test).
Proof.
  unfold splitters.split.
  destruct (splitters.train_test_split _ _ _ _) as [[tr te]|e]; [|done].
  by intros [= <- <-].
Qed.

(** X5: when scikit-learn's [train_test_split] keeps its contract (the
    two parts it returns are a rearrangement of the positions it was
    given), a training run that returns has put every imputed row in
    exactly one of the train and test parts, and every label has stayed
    with its row: the (row, label) pairs of the two parts together are a
    rearrangement of the pairs of the whole data. *)
Theorem training_run_splits_all_rows `{!Platform} `{!models.Estimators}
    `{!splitters.ModelSelection}
    (self : training.TrainingJob) (w w' : World) (l : training.Locals) :
  splitters.partitions ->
  training.run self w = (Ok (Some l), w') ->
  training.inputs_train l ++ training.inputs_test l ≡ₚ training.l_inputs l
  /\ zip (training.inputs_train l) (training.targets_train l)
       ++ zip (training.inputs_test l) (training.targets_test l)
     ≡ₚ zip (training.l_inputs l) (training.l_targets l)
  /\ (forall i, i ∈ training.train_index l -> i ∉ training.test_index l)
  /\ length (training.targets_train l) = length (training.inputs_train l)
  /\ length (training.targets_test l) = length (training.inputs_test l)
  /\ length (training.l_targets l) = length (training.l_inputs l).
Proof.
  intros Hsk (new & run_id & new_body & _ & _ & Htr & _)%run_returned.
  destruct Htr as (Htargets & Hinputs & Hsplit & Hitr & Hite & Httr & Htte & _).
  apply next_split_inv, Hsk in Hsplit.
  assert (Forall (fun i => 0 <= i) (training.train_index l ++ training.test_index l))
    as [Hptr Hpte]%Forall_app.
  { rewrite Hsplit. apply Forall_forall. intros i Hi%elem_of_arange. lia. }
  pose proof (NoDup_arange (length (training.l_inputs l))) as Hnd.
  rewrite <- Hsplit in Hnd. apply NoDup_app in Hnd as (_ & Hdisj & _).
  split.
  { rewrite <- (iloc_omap _ _ _ Hptr Hitr), <- (iloc_omap _ _ _ Hpte Hite).
    rewrite <- omap_app, Hsplit. by rewrite omap_lookup_arange. }
  assert (length (training.l_targets l) = length (training.l_inputs l)) as Hlen
    by (by rewrite Htargets, Hinputs, !length_fmap).
  split.
  { rewrite <- (iloc_zip _ _ _ _ _ Hptr Hitr Httr),
      <- (iloc_zip _ _ _ _ _ Hpte Hite Htte).
    rewrite <- omap_app, Hsplit.
    replace (length (training.l_inputs l))
      with (length (zip (training.l_inputs l) (training.l_targets l)))
      by (rewrite length_zip_with; lia).
    by rewrite omap_lookup_arange. }
  split; [done|].
  by rewrite (iloc_length _ _ _ Hitr), (iloc_length _ _ _ Hite),
    (iloc_length _ _ _ Httr), (iloc_length _ _ _ Htte).
Qed.

Lemma training_run_splits_all_rows_witness :
  exists l,
    demo_run = (Ok (Some l), demo_run.2)
    /\ training.inputs_train l ++ training.inputs_test l ≡ₚ training.l_inputs l
    /\ length (training.l_inputs l) = 4%nat.
Proof.
  assert (exists l, demo_run = (Ok (Some l), demo_run.2)
                    /\ length (training.l_inputs l) = 4%nat) as (l & Hrun & Hlen)
    by (vm_compute; eexists; split; reflexivity).
  destruct (training_run_splits_all_rows (H := demo_platform)
              (H0 := samples.constant_classifier) (H1 := holdout_tail)
              demo_job empty_world demo_run.2 l holdout_tail_partitions Hrun)
    as (Hperm & _).
  exists l. split; [exact Hrun|]. split; [exact Hperm|exact Hlen].
Defined.


(** ** jobs/training.py: what the schema check passes on *)

(** A number that is greater than zero is not NaN. *)
Lemma positive_not_nan (x : float) :
  PrimFloat.ltb 0%float x = true -> PrimFloat.is_nan x = false.
Proof.
  unfold PrimFloat.is_nan. rewrite FloatAxioms.ltb_spec, FloatAxioms.eqb_spec.
  change (Prim2SF 0%float) with (S754_zero false).
  unfold SFltb, SFeqb.
  destruct (Prim2SF x) as [s|s| |s m e]; simpl; try done.
  - by destruct s.
  - destruct s; [done|]. intros _.
    by rewrite Z.compare_refl, Pos.compare_cont_refl.
Qed.

Lemma check_Forall data checked :
  schemas.FeatInputsSchema.check data = Ok checked ->
  forallb schemas.FeatInputsSchema.row_ok data = true.
Proof.
  unfold schemas.FeatInputsSchema.check.
  by destruct (forallb schemas.FeatInputsSchema.row_ok data).
Qed.

Lemma impute_complete r :
  schemas.FeatInputsSchema.row_ok r = true ->
  schemas.FeatInputsSchema.row_ok (training.impute r) = true
  /\ training.complete (training.impute r) = true.
Proof.
  intros Hr. split; [exact Hr|].
  unfold training.complete. simpl.
  rewrite (positive_not_nan _ Hr).
  by destruct r as [a [t|] [m|] [d|]].
Qed.

Lemma dropna_complete rows :
  forallb training.complete rows = true -> training.dropna rows = rows.
Proof.
  unfold training.dropna. induction rows as [|r rows IH]; simpl; [done|].
  intros [Hr Hrows]%andb_true_iff. by rewrite Hr, IH.
Qed.

Section Checked.
Context `{!Platform} `{!models.Estimators} `{!splitters.ModelSelection}.

Lemma body_checked self run_id w l w' :
  training.body self run_id w = (Ok l, w') ->
  forallb schemas.FeatInputsSchema.row_ok
    (training.drop_duplicates (training.select <$> training.inputs_ l)).*1 = true.
Proof.
  unfold training.body. intros Hbody. invert_binds Hbody.
  unfold ret in Hbody. injection Hbody as <- _. simpl.
  match goal with
  | Hc : call (Check _) _ _ = _ |- _ =>
      unfold call in Hc; injection Hc as Hc _; by apply check_Forall in Hc
  end.
Qed.

Lemma run_inv_body self w l w' :
  training.run self w = (Ok (Some l), w') ->
  exists run_id w1 w2, training.body self run_id w1 = (Ok l, w2).
Proof.
  unfold training.run, with_, bind. intros Hrun.
  destruct (log _ _ w) as [[[]|e] w0]; [|done].
  destruct (log _ _ w0) as [[[]|e] w0']; [|done].
  destruct (run_context_enter _ _) as [[run_id|e] w1]; [|done].
  destruct (training.body self run_id w1) as [[l'|e] w2] eqn:Hbody.
  - destruct (run_context_exit None w2) as [[b|e] w3]; [|done].
    injection Hrun as <- _. by exists run_id, w1, w2.
  - by destruct (run_context_exit (Some e) w2) as [[[]|] w3].
Qed.

End Checked.





(** ** core/models.py: the label encoder *)

Lemma compare_refl s : String.compare s s = Eq.
Proof.
  destruct (String.compare s s) eqn:Hc; [done| |];
    pose proof (String.compare_antisym s s) as Ha; rewrite Hc in Ha; done.
Qed.

Lemma compare_eq s x : String.compare s x = Eq <-> s = x.
Proof. split; [apply String.compare_eq_iff|intros ->; apply compare_refl]. Qed.

Lemma elem_of_insert_unique s x l :
  x ∈ models.LabelEncoder.insert_unique s l <-> x = s \/ x ∈ l.
Proof.
  induction l as [|y l IH]; simpl.
  { rewrite list_elem_of_singleton, elem_of_nil. tauto. }
  destruct (String.compare s y) eqn:Hc.
  - apply compare_eq in Hc as ->. rewrite !elem_of_cons. tauto.
  - rewrite !elem_of_cons. tauto.
  - rewrite !elem_of_cons, IH. tauto.
Qed.

(** The classes of a fitted encoder are the labels it was fitted on. *)
Lemma elem_of_unique x y : x ∈ models.LabelEncoder.unique y <-> x ∈ y.
Proof.
  unfold models.LabelEncoder.unique. induction y as [|s y IH]; simpl.
  { done. }
  rewrite elem_of_insert_unique, IH, elem_of_cons. tauto.
Qed.

Lemma index_of_None s classes :
  models.LabelEncoder.index_of s classes = None <-> s ∉ classes.
Proof.
  induction classes as [|x l IH]; simpl.
  { split; [intros _; apply not_elem_of_nil|done]. }
  destruct (String.eqb_spec s x) as [->|Hne].
  { split; [done|]. intros Hn. destruct Hn. by left. }
  rewrite fmap_None, IH, not_elem_of_cons. tauto.
Qed.

Lemma known_spec classes c :
  models.LabelEncoder.known classes c = true <-> 0 <= c < Z.of_nat (length classes).
Proof.
  unfold models.LabelEncoder.known. rewrite andb_true_iff, Z.leb_le, Z.ltb_lt. done.
Qed.

Lemma index_of_Some s classes c :
  models.LabelEncoder.index_of s classes = Some c ->
  models.LabelEncoder.known classes c = true
  /\ nth (Z.to_nat c) classes "" = s.
Proof.
  rewrite known_spec.
  revert c. induction classes as [|x l IH]; intros c; simpl length; simpl; [done|].
  destruct (String.eqb_spec s x) as [->|Hne].
  { intros [= <-]. split; [lia|done]. }
  destruct (models.LabelEncoder.index_of s l) as [c'|]; [|done].
  intros [= <-]. destruct (IH c' eq_refl) as [Hk Hn]. split; [lia|].
  rewrite Z2Nat.inj_succ by lia. exact Hn.
Qed.

Lemma transform_Ok classes y :
  Forall (fun s => s ∈ classes) y ->
  exists codes,
    models.LabelEncoder.transform classes y = Ok codes
    /\ forallb (models.LabelEncoder.known classes) codes = true
    /\ map (fun c => nth (Z.to_nat c) classes "") codes = y.
Proof.
  induction 1 as [|s y Hs Hy (codes & Ht & Hk & Hn)]; simpl.
  { by exists []. }
  destruct (models.LabelEncoder.index_of s classes) as [c|] eqn:Hc.
  2:{ by apply index_of_None in Hc. }
  apply index_of_Some in Hc as [Hkc Hnc].
  rewrite Ht. simpl. exists (c :: codes). simpl. by rewrite Hkc, Hk, Hnc, Hn.
Qed.

Lemma transform_Raise classes y :
  ~ Forall (fun s => s ∈ classes) y ->
  models.LabelEncoder.transform classes y
  = Raise (Exn CValueError "y contains previously unseen labels").
Proof.
  induction y as [|s y IH]; simpl; intros Hn.
  { destruct Hn. constructor. }
  destruct (models.LabelEncoder.index_of s classes) as [c|] eqn:Hc; [|done].
  rewrite IH; [done|]. intros Hy. apply Hn. constructor; [|done].
  destruct (decide (s ∈ classes)) as [|Hs]; [done|].
  apply index_of_None in Hs. congruence.
Qed.

Lemma inverse_transform_Ok classes codes :
  forallb (models.LabelEncoder.known classes) codes = true ->
  models.LabelEncoder.inverse_transform classes codes
  = Ok (map (fun c => nth (Z.to_nat c) classes "") codes).
Proof.
  intros Hk. unfold models.LabelEncoder.inverse_transform.
  destruct codes; [done|]. by rewrite Hk.
Qed.



(** ** core/models.py: what [fit] leaves in the Model *)

Lemma init_well_formed c kwargs m : models.init c kwargs = Ok m -> well_formed m.
Proof.
  intros [-> Hok]%init_inv. unfold well_formed. simpl.
  unfold models.defaults. rewrite dom_union_L, dom_fmap_L.
  apply subseteq_union_1_L. intros k [v Hk]%elem_of_dom.
  apply Hok in Hk. unfold models.field_ok in Hk.
  apply elem_of_dom. destruct (models.declared c !! k); [by eexists|done].
Qed.

Lemma well_formed_has m k :
  well_formed m -> is_Some (models.declared (models.class_of m) !! k) ->
  is_Some (models.fields m !! k).
Proof. intros Hwf Hk. apply elem_of_dom. rewrite Hwf. by apply elem_of_dom. Qed.

Lemma well_formed_le m : well_formed m -> is_Some (models.fields m !! "le").
Proof.
  intros Hwf. apply well_formed_has; [done|].
  destruct (models.class_of m); vm_compute; by eexists.
Qed.

Lemma well_formed_pipeline m :
  well_formed m -> is_Some (models.fields m !! "pipeline").
Proof.
  intros Hwf. apply well_formed_has; [done|].
  destruct (models.class_of m); vm_compute; by eexists.
Qed.

Lemma getattr_Some m k v :
  models.fields m !! k = Some v -> models.getattr k m = (Ok v, m).
Proof. intros Hk. unfold models.getattr. by rewrite Hk. Qed.

Lemma transform_unique targets :
  exists codes,
    models.LabelEncoder.transform (models.LabelEncoder.unique targets) targets
    = Ok codes
    /\ forallb (models.LabelEncoder.known (models.LabelEncoder.unique targets)) codes
       = true
    /\ map (fun c => nth (Z.to_nat c) (models.LabelEncoder.unique targets) "") codes
       = targets.
Proof. apply transform_Ok, Forall_forall. intros s Hs. by apply elem_of_unique. Qed.

Lemma transform_codes_of targets :
  models.LabelEncoder.transform (models.LabelEncoder.unique targets) targets
  = Ok (codes_of targets).
Proof.
  unfold codes_of. by destruct (transform_unique targets) as (codes & -> & _).
Qed.

Section FitFacts.
Context `{!models.Estimators}.

Lemma le_fit_transform_fresh c f o ot targets :
  models.le_fit_transform targets
    (models.MkModel c (<["le" := models.VLabelEncoder o]> f) ot)
  = (Ok (codes_of targets),
     models.MkModel c
       (<["le" := models.VLabelEncoder (Some (models.LabelEncoder.unique targets))]> f)
       ot).
Proof.
  unfold models.le_fit_transform.
  erewrite bind_ok; [|apply getattr_Some; simpl; apply lookup_insert_eq].
  unfold bind, models.assign, lift. simpl.
  by rewrite insert_insert_eq, transform_codes_of.
Qed.

Lemma pipeline_fit_fresh c f ot p inputs codes :
  models.pipeline_fit inputs codes (models.MkModel c (<["pipeline" := p]> f) ot)
  = ((models.call_fit p inputs codes).1,
     models.MkModel c (<["pipeline" := (models.call_fit p inputs codes).2]> f) ot).
Proof.
  unfold models.pipeline_fit.
  erewrite bind_ok; [|apply getattr_Some; simpl; apply lookup_insert_eq].
  destruct (models.call_fit p inputs codes) as [outcome p'].
  unfold bind, lift, models.assign. simpl.
  by rewrite insert_insert_eq.
Qed.

Lemma BaselineModel_fit_spec m inputs targets :
  models.class_of m = models.CBaselineModel ->
  is_Some (models.fields m !! "le") ->
  is_Some (models.fields m !! "pipeline") ->
  models.fit inputs targets m
  = match models.MostFrequentCategoryByMerchant.fit inputs (codes_of targets) with
    | Ok d => (Ok models.RNone, fitted_with m targets (models.VBaselinePipeline d))
    | Raise e => (Raise e, fitted_with m targets (models.VBaselinePipeline ∅))
    end.
Proof.
  intros Hc Hle Hp. unfold models.fit. rewrite Hc.
  unfold models.BaselineModel_fit.
  erewrite bind_ok; [|by apply setattr_declared].
  erewrite bind_ok; [|apply le_fit_transform_fresh].
  erewrite bind_ok.
  2:{ apply setattr_declared. simpl. by rewrite lookup_insert_ne. }
  simpl. unfold bind at 1. rewrite pipeline_fit_fresh. simpl.
  unfold fitted_with. rewrite Hc.
  by destruct (models.MostFrequentCategoryByMerchant.fit _ _).
Qed.

Lemma create_pipeline_spec m :
  models.class_of m = models.CSKLearnPipelineModel -> well_formed m ->
  models._create_pipeline m
  = (Ok (models.VSklearnPipeline (hyperparameters m) models.Unfitted), m).
Proof.
  intros Hc Hwf. unfold models._create_pipeline, hyperparameters.
  assert (forall k, is_Some (models.declared models.CSKLearnPipelineModel !! k) ->
                    models.getattr k m
                    = (Ok (default models.VNone (models.fields m !! k)), m)) as Hget.
  { intros k Hk. rewrite <- Hc in Hk.
    destruct (well_formed_has _ _ Hwf Hk) as [v Hv].
    rewrite Hv. by apply getattr_Some. }
  repeat (erewrite bind_ok; [|apply Hget; vm_compute; by eexists]).
  reflexivity.
Qed.

End FitFacts.



Lemma well_formed_insert c f o k v :
  is_Some (f !! k) ->
  well_formed (models.MkModel c f o) -> well_formed (models.MkModel c (<[k := v]> f) o).
Proof.
  intros Hk Hwf. unfold well_formed in *. simpl in *.
  rewrite dom_insert_lookup_L; done.
Qed.

Lemma hyperparameters_insert c f o k v :
  k = "le" \/ k = "pipeline" ->
  hyperparameters (models.MkModel c (<[k := v]> f) o)
  = hyperparameters (models.MkModel c f o).
Proof.
  intros Hk. unfold hyperparameters. simpl.
  rewrite !lookup_insert_ne; [done|destruct Hk; by subst..].
Qed.

Section FitFacts2.
Context `{!models.Estimators}.

Lemma SKLearnPipelineModel_fit_spec m inputs targets :
  models.class_of m = models.CSKLearnPipelineModel -> well_formed m ->
  creates m ->
  models.fit inputs targets m
  = match models.sklearn_fit (hyperparameters m) inputs (codes_of targets) with
    | Ok _ =>
        (Ok models.RNone,
         fitted_with m targets
           (models.VSklearnPipeline (hyperparameters m)
              (models.Fitted inputs (codes_of targets))))
    | Raise e =>
        (Raise e,
         fitted_with m targets
           (models.VSklearnPipeline (hyperparameters m)
              (models.FitFailed inputs (codes_of targets))))
    end.
Proof.
  intros Hc Hwf Hcr. unfold models.fit. rewrite Hc.
  pose proof (well_formed_le _ Hwf) as Hle.
  pose proof (well_formed_pipeline _ Hwf) as Hp.
  destruct m as [c f o]. unfold creates in Hcr. simpl in *. subst c.
  unfold models.SKLearnPipelineModel_fit.
  erewrite bind_ok; [|by apply setattr_declared].
  erewrite bind_ok; [|apply le_fit_transform_fresh].
  erewrite bind_ok.
  2:{ unfold models.call_method. simpl. rewrite Hcr.
      apply create_pipeline_spec; [done|]. by apply well_formed_insert. }
  rewrite hyperparameters_insert by auto.
  erewrite bind_ok.
  2:{ apply setattr_declared. simpl. by rewrite lookup_insert_ne. }
  simpl. unfold bind at 1. rewrite pipeline_fit_fresh. simpl.
  unfold fitted_with. simpl.
  by destruct (models.sklearn_fit _ _ _).
Qed.

(** Whatever [fit] returns, it leaves the label encoder fitted on the
    targets and a pipeline of the Model's class. *)
Lemma fit_leaves m inputs targets :
  well_formed m -> creates m ->
  exists p, (models.fit inputs targets m).2 = fitted_with m targets p.
Proof.
  intros Hwf Hcr. destruct (models.class_of m) eqn:Hc.
  - rewrite BaselineModel_fit_spec;
      [|done|by apply well_formed_le|by apply well_formed_pipeline].
    destruct (models.MostFrequentCategoryByMerchant.fit _ _); by eexists.
  - rewrite SKLearnPipelineModel_fit_spec by done.
    destruct (models.sklearn_fit _ _ _); by eexists.
Qed.

Lemma init_creates c kwargs m : models.init c kwargs = Ok m -> creates m.
Proof. by intros [-> _]%init_inv. Qed.

Lemma creates_fitted_with m targets p : creates m -> creates (fitted_with m targets p).
Proof. done. Qed.

Lemma well_formed_fitted_with m targets p :
  well_formed m -> well_formed (fitted_with m targets p).
Proof.
  intros Hwf. unfold fitted_with. destruct m as [c f o]. simpl.
  apply well_formed_insert.
  { rewrite lookup_insert_ne by done. by apply (well_formed_pipeline _ Hwf). }
  apply well_formed_insert; [by apply (well_formed_le _ Hwf)|done].
Qed.

Lemma encode_target_fitted m targets p y :
  models._encode_target y (fitted_with m targets p)
  = (models.LabelEncoder.transform (models.LabelEncoder.unique targets) y,
     fitted_with m targets p).
Proof.
  unfold models._encode_target.
  erewrite bind_ok.
  2:{ apply getattr_Some. simpl. rewrite lookup_insert_ne by done.
      apply lookup_insert_eq. }
  reflexivity.
Qed.

Lemma decode_target_fitted m targets p codes :
  models._decode_target codes (fitted_with m targets p)
  = (models.LabelEncoder.inverse_transform (models.LabelEncoder.unique targets) codes,
     fitted_with m targets p).
Proof.
  unfold models._decode_target.
  erewrite bind_ok.
  2:{ apply getattr_Some. simpl. rewrite lookup_insert_ne by done.
      apply lookup_insert_eq. }
  reflexivity.
Qed.

End FitFacts2.

(** X8: once [fit] has run on a Model that was built by its constructor,
    [_encode_target] and [_decode_target] are inverse to each other on the
    labels that [fit] has seen: labels that all occur in the training
    targets are encoded, and decoding the codes gives the labels back.  A
    label that did not occur in the training targets is not encoded:
    [_encode_target] raises a [ValueError].  In both cases the Model stays
    as it is. *)
Theorem encode_decode_round_trip `{!models.Estimators}
    (c : models.ModelClass) (kwargs : gmap string models.Value) (m : models.Model)
    (inputs : list FeatRow) (targets y : list string) :
  models.init c kwargs = Ok m ->
  let m' := (models.fit inputs targets m).2 in
  (Forall (fun s => s ∈ targets) y ->
   exists codes,
     models._encode_target y m' = (Ok codes, m')
     /\ models._decode_target codes m' = (Ok y, m'))
  /\ (~ Forall (fun s => s ∈ targets) y ->
      models._encode_target y m'
      = (Raise (Exn CValueError "y contains previously unseen labels"), m')).
Proof.
  intros Hinit m'. pose proof (init_well_formed _ _ _ Hinit) as Hwf.
  destruct (fit_leaves m inputs targets Hwf (init_creates _ _ _ Hinit)) as [p Hm'].
  fold m' in Hm'.
  rewrite Hm'. split.
  - intros Hy.
    destruct (transform_Ok (models.LabelEncoder.unique targets) y)
      as (codes & Ht & Hk & Hn).
    { eapply Forall_impl; [exact Hy|]. intros s Hs. by apply elem_of_unique. }
    exists codes. rewrite encode_target_fitted, decode_target_fitted, Ht.
    by rewrite inverse_transform_Ok, Hn.
  - intros Hy. rewrite encode_target_fitted, transform_Raise; [done|].
    intros Hall. apply Hy. eapply Forall_impl; [exact Hall|].
    intros s Hs. by apply elem_of_unique.
Qed.

Lemma encode_decode_round_trip_witness :
  let m' := (models.fit (H := samples.constant_classifier) samples.train_inputs
               samples.train_targets (samples.construct models.CBaselineModel)).2 in
  (exists codes,
     models._encode_target ["Z"; "X"] m' = (Ok codes, m')
     /\ models._decode_target codes m' = (Ok ["Z"; "X"], m'))
  /\ models._encode_target ["W"] m'
     = (Raise (Exn CValueError "y contains previously unseen labels"), m').
Proof.
  intros m'.
  destruct (encode_decode_round_trip (H := samples.constant_classifier)
              models.CBaselineModel ∅ (samples.construct models.CBaselineModel)
              samples.train_inputs samples.train_targets ["Z"; "X"])
    as [Hok _]; [reflexivity|].
  destruct (encode_decode_round_trip (H := samples.constant_classifier)
              models.CBaselineModel ∅ (samples.construct models.CBaselineModel)
              samples.train_inputs samples.train_targets ["W"])
    as [_ Hraise]; [reflexivity|].
  split.
  - apply Hok. repeat constructor; unfold samples.train_targets;
      rewrite !elem_of_cons; auto.
  - apply Hraise. intros Hall. apply Forall_cons in Hall as [Hin _].
    unfold samples.train_targets in Hin. rewrite !elem_of_cons in Hin.
    rewrite elem_of_nil in Hin. intuition discriminate.
Defined.



(** ** core/models.py: fitting again, and changing parameters after a fit *)

Lemma fitted_with_twice m targets0 p0 targets p :
  fitted_with (fitted_with m targets0 p0) targets p = fitted_with m targets p.
Proof.
  unfold fitted_with. simpl. f_equal.
  rewrite (insert_insert_ne _ "le" "pipeline") by done.
  by rewrite !insert_insert_eq.
Qed.

Lemma hyperparameters_fitted_with m targets p :
  hyperparameters (fitted_with m targets p) = hyperparameters m.
Proof.
  unfold fitted_with. destruct m as [c f o]. simpl.
  rewrite !hyperparameters_insert by auto. done.
Qed.

(** One assignment keeps the class and the names of the fields, and
    touches nothing under another name. *)
Lemma setattr_keeps key value m :
  let m' := (models.setattr key value m).2 in
  models.class_of m' = models.class_of m
  /\ dom (models.fields m') = dom (models.fields m)
  /\ (forall k, k <> key -> models.fields m' !! k = models.fields m !! k)
  /\ (forall k, k <> key -> models.others m' !! k = models.others m !! k).
Proof.
  unfold models.setattr.
  destruct (models.fields m !! key) as [old|] eqn:Hkey; simpl.
  { split; [done|]. split; [apply dom_insert_lookup_L; by eexists|].
    split; [|done]. intros k Hne. by apply lookup_insert_ne. }
  destruct (startswith key "_"); [|done].
  case_bool_decide; simpl; [done|].
  split; [done|]. split; [done|]. split; [done|].
  intros k Hne. by apply lookup_insert_ne.
Qed.

Lemma set_params_loop_keeps params m :
  models.class_of (models.set_params_loop params m).2 = models.class_of m
  /\ dom (models.fields (models.set_params_loop params m).2) = dom (models.fields m)
  /\ (forall k, k ∉ params.*1 ->
       models.fields (models.set_params_loop params m).2 !! k = models.fields m !! k)
  /\ (forall k, k ∉ params.*1 ->
       models.others (models.set_params_loop params m).2 !! k = models.others m !! k).
Proof.
  revert m. induction params as [|[key value] params IH]; intros m; [done|].
  destruct (setattr_keeps key value m) as (Hc1 & Hd1 & Hf1 & Ho1).
  simpl. unfold bind.
  destruct (models.setattr key value m) as [[[]|e] m1]; simpl in *.
  2:{ split; [done|]. split; [done|].
      split; intros k [Hne Hk]%not_elem_of_cons; auto. }
  destruct (IH m1) as (Hc & Hd & Hf & Ho).
  split; [congruence|]. split; [congruence|].
  split; intros k [Hne Hk]%not_elem_of_cons.
  - rewrite Hf by done. auto.
  - rewrite Ho by done. auto.
Qed.

Lemma set_params_state params m :
  (models.set_params params m).2 = (models.set_params_loop params m).2.
Proof.
  unfold models.set_params, bind.
  by destruct (models.set_params_loop params m) as [[[]|e] m'].
Qed.

Section PredictFacts.
Context `{!models.Estimators}.

(** What [predict] returns depends on the class of the Model and on what
    [pipeline] and [le] hold, and on nothing else. *)
Lemma getattr_agrees m1 m2 name :
  models.fields m1 !! name = models.fields m2 !! name ->
  is_Some (models.fields m2 !! name) ->
  (models.getattr name m1).1 = (models.getattr name m2).1.
Proof.
  intros Heq [v Hv]. unfold models.getattr. rewrite Heq, Hv. done.
Qed.

(** What [predict] returns depends on the class of the Model, on what
    [pipeline] and [le] hold and on whether an attribute hides
    [_decode_target], and on nothing else. *)
Lemma predict_depends_on_fitted_state m1 m2 inputs :
  models.class_of m1 = models.class_of m2 ->
  well_formed m2 ->
  models.fields m1 !! "pipeline" = models.fields m2 !! "pipeline" ->
  models.fields m1 !! "le" = models.fields m2 !! "le" ->
  models.others m1 !! "_decode_target" = models.others m2 !! "_decode_target" ->
  (models.predict inputs m1).1 = (models.predict inputs m2).1.
Proof.
  intros Hc Hwf Hp Hle Ho. unfold models.predict. rewrite Hc.
  destruct (well_formed_pipeline _ Hwf) as [p Hp2].
  destruct (well_formed_le _ Hwf) as [le Hle2].
  destruct (models.class_of m2);
    unfold models.BaselineModel_predict, models.SKLearnPipelineModel_predict,
      models.call_method, models._decode_target, bind, lift, models.getattr;
    rewrite Hp, Hp2; simpl.
  - destruct (models.call_transform p inputs); simpl; [|done].
    rewrite Ho. destruct (models.others m2 !! "_decode_target"); [done|].
    rewrite Hle, Hle2. simpl. by destruct le.
  - destruct (models.call_predict p inputs); simpl; [|done].
    rewrite Ho. destruct (models.others m2 !! "_decode_target"); [done|].
    rewrite Hle, Hle2. simpl. by destruct le.
Qed.

End PredictFacts.

Lemma fit_well_formed `{!models.Estimators} m inputs targets :
  well_formed m -> well_formed (models.fit inputs targets m).2.
Proof.
  intros Hwf.
  destruct (models_facts.keeps_fit (models.class_of m) (dom (models.fields m))
              (models.others m) inputs targets) with (s := m) as (Hc & Hd & _).
  - apply elem_of_dom. by apply well_formed_le.
  - apply elem_of_dom. by apply well_formed_pipeline.
  - done.
  - unfold well_formed. by rewrite Hd, Hc.
Qed.

Lemma construct_well_formed c : well_formed (samples.construct c).
Proof. apply (init_well_formed c ∅). by destruct c; vm_compute. Qed.

Lemma fit_after_fit `{!models.Estimators} m inputs0 targets0 inputs targets :
  well_formed m -> creates m ->
  models.fit inputs targets (models.fit inputs0 targets0 m).2
  = models.fit inputs targets m.
Proof.
  intros Hwf Hcr.
  destruct (fit_leaves m inputs0 targets0 Hwf Hcr) as [p0 ->].
  pose proof (well_formed_fitted_with m targets0 p0 Hwf) as Hwf1.
  destruct (models.class_of m) eqn:Hc.
  - rewrite (BaselineModel_fit_spec (fitted_with m targets0 p0));
      [|exact Hc|by apply well_formed_le|by apply well_formed_pipeline].
    rewrite (BaselineModel_fit_spec m);
      [|exact Hc|by apply well_formed_le|by apply well_formed_pipeline].
    destruct (models.MostFrequentCategoryByMerchant.fit _ _);
      by rewrite fitted_with_twice.
  - rewrite (SKLearnPipelineModel_fit_spec (fitted_with m targets0 p0));
      [|exact Hc|done|done].
    rewrite (SKLearnPipelineModel_fit_spec m) by done.
    rewrite hyperparameters_fitted_with.
    destruct (models.sklearn_fit _ _ _); by rewrite fitted_with_twice.
Qed.

(** X9: a second [fit] forgets the first one.  On a Model built by its
    constructor, [fit] after an earlier [fit] on other data returns what it
    returns on the Model as constructed, and leaves the Model in the same
    state: the label encoder and the pipeline are created anew. *)
Theorem fit_again_forgets_earlier_fit `{!models.Estimators}
    (c : models.ModelClass) (kwargs : gmap string models.Value) (m : models.Model)
    (inputs0 inputs : list FeatRow) (targets0 targets : list string) :
  models.init c kwargs = Ok m ->
  models.fit inputs targets (models.fit inputs0 targets0 m).2
  = models.fit inputs targets m.
Proof.
  intros Hinit. apply fit_after_fit; [by eapply init_well_formed|by eapply init_creates].
Qed.

Lemma fit_again_forgets_earlier_fit_witness :
  (models.fit (H := samples.constant_classifier) [samples.row "B"] ["Z"]
     (models.fit (H := samples.constant_classifier) samples.train_inputs
        samples.train_targets (samples.construct models.CBaselineModel)).2)
  = models.fit (H := samples.constant_classifier) [samples.row "B"] ["Z"]
      (samples.construct models.CBaselineModel).
Proof.
  apply (fit_again_forgets_earlier_fit (H := samples.constant_classifier)
           models.CBaselineModel ∅).
  reflexivity.
Defined.





(** ** core/models.py: construction, parameters and the declared fields *)

Lemma set_params_loop_Ok params m :
  NoDup params.*1 ->
  Forall (fun k => is_Some (models.fields m !! k)) params.*1 ->
  models.set_params_loop params m
  = (Ok tt, models.MkModel (models.class_of m)
              (list_to_map params ∪ models.fields m) (models.others m)).
Proof.
  revert m. induction params as [|[key value] params IH]; intros m Hnd Hall.
  { simpl. unfold ret. destruct m. simpl. by rewrite (left_id_L ∅ (∪)). }
  apply NoDup_cons in Hnd as [Hkey Hnd]. apply Forall_cons in Hall as [Hk Hall].
  cbn [models.set_params_loop]. erewrite bind_ok; [|by apply setattr_declared].
  rewrite IH; [|done|].
  2:{ eapply Forall_impl; [exact Hall|]. intros k [v Hv]. simpl.
      destruct (decide (k = key)) as [->|Hne].
      - rewrite lookup_insert_eq. by eexists.
      - rewrite lookup_insert_ne by done. by eexists. }
  simpl. do 2 f_equal. rewrite <- insert_union_r, insert_union_l; [done|].
  by apply not_elem_of_list_to_map_1.
Qed.

(** The first key that names no field stops the loop, with pydantic's
    refusal when the key does not start with an underscore. *)
Lemma set_params_loop_Raise params m :
  Forall (fun k => models.fields m !! k = None -> startswith k "_" = false)
    params.*1 ->
  ~ Forall (fun k => is_Some (models.fields m !! k)) params.*1 ->
  exists key,
    key ∈ params.*1 /\ models.fields m !! key = None
    /\ (models.set_params_loop params m).1 = Raise (models.refusal key).
Proof.
  revert m. induction params as [|[key value] params IH]; intros m Hus Hall.
  { destruct Hall. constructor. }
  apply Forall_cons in Hus as [Hu Hus]. cbn [fst] in Hu.
  cbn [models.set_params_loop]. unfold bind, models.setattr.
  destruct (models.fields m !! key) as [old|] eqn:Hkey.
  2:{ rewrite (Hu eq_refl). exists key. split; [by left|]. by split. }
  cbn [models.assign fst snd].
  assert (forall k, models.fields m !! k = None ->
            (<[key := value]> (models.fields m)) !! k = None) as Hgrow.
  { intros k Hk. rewrite lookup_insert_ne; [done|]. intros ->. congruence. }
  assert (forall k, (<[key := value]> (models.fields m)) !! k = None ->
            models.fields m !! k = None) as Hshrink.
  { intros k Hk. destruct (decide (k = key)) as [->|Hne].
    - by rewrite lookup_insert_eq in Hk.
    - by rewrite lookup_insert_ne in Hk. }
  destruct (IH (models.MkModel (models.class_of m)
                  (<[key := value]> (models.fields m)) (models.others m)))
    as (k & Hin & Hk & Hr).
  { eapply Forall_impl; [exact Hus|]. simpl. intros k Hk Hnone. auto. }
  { intros Hrest. apply Hall. constructor; [by exists old|].
    eapply Forall_impl; [exact Hrest|]. intros k [v Hv]. simpl in Hv.
    destruct (models.fields m !! k) eqn:Hmk; [by eexists|].
    apply Hgrow in Hmk. congruence. }
  simpl in Hk. exists k. split; [by right|]. split; [by apply Hshrink|].
  by destruct (models.set_params_loop params _) as [[[]|e] m'].
Qed.





Lemma declared_elem_of c k x :
  models.declared c !! k = Some x -> (k, x) ∈ models.model_fields c.
Proof. apply elem_of_list_to_map_2. Qed.

(** KIND is the only declared field that [get_params] leaves out. *)
Lemma declared_not_param c k x :
  models.declared c !! k = Some x -> models.is_param k = false -> k = "KIND".
Proof.
  intros Hk%declared_elem_of Hp. destruct c; simpl in Hk;
    repeat (apply elem_of_cons in Hk as [[= -> ->]|Hk]; [by vm_compute in Hp|]);
    by apply elem_of_nil in Hk.
Qed.

(** The default of every declared field has the declared type. *)
Lemma defaults_validate c k ty d :
  models.declared c !! k = Some (ty, d) -> models.type_ok ty d = true.
Proof.
  intros Hk%declared_elem_of. destruct c; simpl in Hk;
    repeat (apply elem_of_cons in Hk as [[= -> -> ->]|Hk]; [by vm_compute|]);
    by apply elem_of_nil in Hk.
Qed.

Lemma declared_KIND c ty d v :
  models.declared c !! "KIND" = Some (ty, d) -> models.type_ok ty v = true -> v = d.
Proof.
  intros Hd Hv. destruct c; vm_compute in Hd; injection Hd as <- <-;
    destruct v; try done; cbn [models.type_ok] in Hv;
    apply String.eqb_eq in Hv; by subst.
Qed.

(** X12: a Model that was built by its constructor can be built again
    from its own params: the constructor applied to [get_params()]
    returns an equal Model.  After [fit] this fails: the params then hold
    the label encoder in [le], a field that is declared to hold only
    [None], and the constructor rejects it with pydantic's validation
    error. *)
Theorem constructor_accepts_own_params_until_fit `{!models.Estimators}
    (c : models.ModelClass) (kwargs : gmap string models.Value) (m : models.Model)
    (deep : bool) (inputs : list FeatRow) (targets : list string) :
  models.init c kwargs = Ok m ->
  models.init c (models.get_params m deep) = Ok m
  /\ models.init c (models.get_params (models.fit inputs targets m).2 deep)
     = Raise (Exn CValidationError (models.class_name c)).
Proof.
  intros Hinit. pose proof (init_well_formed _ _ _ Hinit) as Hwf.
  destruct (init_inv _ _ _ Hinit) as [Hm Hok]. split.
  - unfold models.init. case_bool_decide as Hall.
    + f_equal. rewrite Hm at 2. f_equal. apply map_eq. intros k.
      destruct (models.get_params m deep !! k) as [v|] eqn:Hg.
      { rewrite (lookup_union_Some_l _ _ _ _ Hg).
        apply get_params_lookup in Hg as [Hf _]. rewrite Hm in Hf. by simpl in Hf. }
      rewrite (lookup_union_r _ _ _ Hg).
      destruct (models.fields m !! k) as [v|] eqn:Hf.
      2:{ rewrite Hm in Hf. simpl in Hf.
          apply lookup_union_None in Hf as [Hkw Hd]. rewrite Hd.
          symmetry. by apply lookup_union_None. }
      assert (models.is_param k = false) as Hp.
      { destruct (models.is_param k) eqn:Hp; [|done].
        assert (models.get_params m deep !! k = Some v) as Hg'; [|congruence].
        apply get_params_lookup. split; [done|]. unfold models.is_param in Hp.
        by destruct (startswith k "_"), (isupper k). }
      rewrite Hm in Hf. simpl in Hf. rewrite Hf. unfold models.defaults.
      rewrite lookup_fmap.
      apply lookup_union_Some_raw in Hf as [Hkw|[Hkw Hd]].
      * pose proof (Hok _ _ Hkw) as Hv. unfold models.field_ok in Hv.
        destruct (models.declared c !! k) as [[ty d]|] eqn:Hdecl; [|done].
        pose proof (declared_not_param _ _ _ Hdecl Hp) as ->.
        simpl. f_equal. symmetry. by eapply declared_KIND.
      * unfold models.defaults in Hd. by rewrite lookup_fmap in Hd.
    + destruct Hall. intros k v [Hf _]%get_params_lookup.
      rewrite Hm in Hf. simpl in Hf.
      apply lookup_union_Some_raw in Hf as [Hkw|[_ Hd]]; [by apply Hok|].
      unfold models.defaults in Hd. rewrite lookup_fmap in Hd.
      unfold models.field_ok.
      destruct (models.declared c !! k) as [[ty d]|] eqn:Hdecl; [|done].
      simpl in Hd. injection Hd as <-. by eapply defaults_validate.
  - destruct (fit_leaves m inputs targets Hwf (init_creates _ _ _ Hinit)) as [p ->].
    unfold models.init. case_bool_decide as Hall; [|done].
    specialize (Hall "le"
      (models.VLabelEncoder (Some (models.LabelEncoder.unique targets)))).
    assert (models.field_ok c "le"
              (models.VLabelEncoder (Some (models.LabelEncoder.unique targets)))
            = false) as Hno by (by destruct c).
    rewrite Hall in Hno; [done|].
    apply get_params_lookup. split; [|done]. simpl.
    rewrite lookup_insert_ne by done. apply lookup_insert_eq.
Qed.

Lemma constructor_accepts_own_params_until_fit_witness :
  let m := models.MkModel models.CSKLearnPipelineModel
             ({["max_depth" := models.VInt 3]}
                ∪ models.defaults models.CSKLearnPipelineModel) ∅ in
  models.init models.CSKLearnPipelineModel (models.get_params m true) = Ok m
  /\ models.init models.CSKLearnPipelineModel
       (models.get_params
          (models.fit (H := samples.constant_classifier) samples.train_inputs
             samples.train_targets m).2 true)
     = Raise (Exn CValidationError "SKLearnPipelineModel").
Proof.
  intros m.
  apply (constructor_accepts_own_params_until_fit (H := samples.constant_classifier)
           models.CSKLearnPipelineModel {["max_depth" := models.VInt 3]}).
  vm_compute. reflexivity.
Defined.


Lemma after_call_well_formed `{!models.Estimators} m c :
  well_formed m ->
  well_formed (after_call m c)
  /\ models.class_of (after_call m c) = models.class_of m.
Proof.
  intros Hwf. destruct c as [inputs targets|inputs|params|outputs|codes]; simpl.
  - split; [by apply fit_well_formed|].
    destruct (models_facts.keeps_fit (models.class_of m) (dom (models.fields m))
                (models.others m) inputs targets) with (s := m) as (Hc & _);
      [apply elem_of_dom; by apply well_formed_le
      |apply elem_of_dom; by apply well_formed_pipeline|done|done].
  - by rewrite <- (models_facts.stable_predict inputs m).
  - rewrite set_params_state.
    destruct (set_params_loop_keeps params m) as (Hc & Hd & _).
    split; [|done]. unfold well_formed. by rewrite Hd, Hc.
  - by rewrite <- (models_facts.stable_encode_target outputs m).
  - by rewrite <- (models_facts.stable_decode_target codes m).
Qed.





(** ** core/models.py: SKLearnPipelineModel, from fit to predict *)

Lemma predict_fitted_sklearn `{!models.Estimators} m targets hp state rows :
  models.class_of m = models.CSKLearnPipelineModel ->
  models.others m !! "_decode_target" = None ->
  models.predict rows (fitted_with m targets (models.VSklearnPipeline hp state))
  = (codes <~ models.sklearn_predict hp state rows ;
     models.LabelEncoder.inverse_transform (models.LabelEncoder.unique targets) codes,
     fitted_with m targets (models.VSklearnPipeline hp state)).
Proof.
  intros Hc Ho. unfold models.predict. simpl. rewrite Hc.
  unfold models.SKLearnPipelineModel_predict.
  erewrite bind_ok; [|apply getattr_Some; simpl; apply lookup_insert_eq].
  simpl. unfold bind at 1, lift.
  destruct (models.sklearn_predict hp state rows); simpl; [|done].
  unfold models.call_method. simpl. rewrite Ho.
  apply decode_target_fitted.
Qed.

Lemma codes_of_spec targets :
  length (codes_of targets) = length targets
  /\ forallb (models.LabelEncoder.known (models.LabelEncoder.unique targets))
       (codes_of targets) = true
  /\ map (fun c => nth (Z.to_nat c) (models.LabelEncoder.unique targets) "")
       (codes_of targets) = targets.
Proof.
  destruct (transform_unique targets) as (codes & Ht & Hk & Hn).
  unfold codes_of. rewrite Ht. split; [|done].
  pose proof (f_equal length Hn) as Hlen. by rewrite length_map in Hlen.
Qed.

Lemma compare_Lt_trans a b c :
  String.compare a b = Lt -> String.compare b c = Lt -> String.compare a c = Lt.
Proof.
  intros Hab Hbc.
  apply (proj2 (OrderedTypeEx.String_as_OT.cmp_lt a c)).
  eapply OrderedTypeEx.String_as_OT.lt_trans;
    by apply (proj1 (OrderedTypeEx.String_as_OT.cmp_lt _ _)).
Qed.

Lemma compare_Gt_Lt a b : String.compare a b = Gt <-> String.compare b a = Lt.
Proof.
  rewrite (String.compare_antisym b a).
  destruct (String.compare a b); simpl; split; congruence.
Qed.

Lemma insert_unique_increases s l :
  labels_increase l -> labels_increase (models.LabelEncoder.insert_unique s l).
Proof.
  induction l as [|x l IH]; simpl.
  { by repeat constructor. }
  intros [Hx Hl]. destruct (String.compare s x) eqn:Hc; simpl.
  - done.
  - split; [|done]. constructor; [done|].
    eapply Forall_impl; [exact Hx|]. intros z Hz. by eapply compare_Lt_trans.
  - split; [|by apply IH]. apply Forall_forall.
    intros z [->|Hz]%elem_of_insert_unique.
    + by apply compare_Gt_Lt.
    + rewrite Forall_forall in Hx. by apply Hx.
Qed.

(** [np.unique] returns each label once. *)
Lemma NoDup_unique y : NoDup (models.LabelEncoder.unique y).
Proof.
  assert (labels_increase (models.LabelEncoder.unique y)) as Hs.
  { unfold models.LabelEncoder.unique. induction y as [|s y IH]; simpl.
    - done.
    - by apply insert_unique_increases. }
  induction (models.LabelEncoder.unique y) as [|x l IH]; [constructor|].
  destruct Hs as [Hx Hl]. constructor; [|by apply IH].
  intros Hin. rewrite Forall_forall in Hx. specialize (Hx _ Hin).
  by rewrite compare_refl in Hx.
Qed.

Lemma index_of_nth classes c c' :
  NoDup classes ->
  models.LabelEncoder.known classes c = true ->
  models.LabelEncoder.index_of (nth (Z.to_nat c) classes "") classes = Some c' ->
  c' = c.
Proof.
  intros Hnd Hk [Hk' Hn]%index_of_Some.
  apply known_spec in Hk, Hk'.
  apply NoDup_ListNoDup in Hnd.
  assert (Z.to_nat c' = Z.to_nat c) as Heq; [|lia].
  apply (proj1 (List.NoDup_nth classes "") Hnd); [lia|lia|done].
Qed.

Lemma known_nth classes c :
  models.LabelEncoder.known classes c = true ->
  nth (Z.to_nat c) classes "" ∈ classes.
Proof.
  intros Hk%known_spec. apply list_elem_of_In, nth_In. lia.
Qed.

Lemma inverse_transform_Raise classes codes :
  forallb (models.LabelEncoder.known classes) codes = false ->
  models.LabelEncoder.inverse_transform classes codes
  = Raise (Exn CValueError "y contains previously unseen labels").
Proof.
  intros Hk. unfold models.LabelEncoder.inverse_transform.
  destruct codes; [done|]. by rewrite Hk.
Qed.

(** X16: an SKLearnPipelineModel that was built by its constructor and
    fitted without error hands [predict] to the fitted estimator, with
    the hyperparameters the Model held at [fit] and the rows and the
    encoded targets it was fitted on.  When the estimator fails,
    [predict] raises its error.  When it answers with codes that the
    label encoder knows, [predict] returns, for each code in turn, the
    label that [fit] gave this code (the code counts the distinct
    training labels in increasing order), so each label occurred in the
    training targets; when one of the codes is unknown to the encoder,
    [predict] raises a [ValueError].  The Model stays as it is. *)
Theorem sklearn_model_predicts_seen_labels `{!models.Estimators}
    (kwargs : gmap string models.Value) (m m' : models.Model) (r : models.Ref)
    (X rows : list FeatRow) (y : list string) :
  models.init models.CSKLearnPipelineModel kwargs = Ok m ->
  models.fit X y m = (Ok r, m') ->
  let classes := models.LabelEncoder.unique y in
  match models.sklearn_predict (hyperparameters m)
          (models.Fitted X (codes_of y)) rows with
  | Raise e => models.predict rows m' = (Raise e, m')
  | Ok codes =>
      if forallb (models.LabelEncoder.known classes) codes
      then
        exists labels,
          models.predict rows m' = (Ok labels, m')
          /\ labels = map (fun c => nth (Z.to_nat c) classes "") codes
          /\ Forall2 (fun label c =>
                        models.LabelEncoder.index_of label classes = Some c)
               labels codes
          /\ Forall (fun label => label ∈ y) labels
      else
        models.predict rows m'
        = (Raise (Exn CValueError "y contains previously unseen labels"), m')
  end.
Proof.
  intros Hinit Hfit classes.
  pose proof (init_well_formed _ _ _ Hinit) as Hwf.
  pose proof (init_creates _ _ _ Hinit) as Hcr.
  assert (models.class_of m = models.CSKLearnPipelineModel
          /\ models.others m = ∅) as [Hc Ho].
  { apply init_inv in Hinit as [-> _]. done. }
  rewrite SKLearnPipelineModel_fit_spec in Hfit by done.
  destruct (models.sklearn_fit _ _ _); [|done]. injection Hfit as _ <-.
  rewrite predict_fitted_sklearn; [|done|by rewrite Ho].
  destruct (models.sklearn_predict _ _ _) as [codes|e]; [|done].
  destruct (forallb _ codes) eqn:Hknown.
  2:{ simpl. by rewrite inverse_transform_Raise. }
  eexists. simpl. rewrite inverse_transform_Ok by done.
  split; [done|]. split; [done|].
  rewrite forallb_forall in Hknown. split.
  - apply Forall2_fmap_l, Forall_Forall2_diag, Forall_forall.
    intros c Hin%list_elem_of_In. specialize (Hknown c Hin).
    pose proof (known_nth _ _ Hknown) as Hnth.
    change (models.LabelEncoder.index_of (nth (Z.to_nat c) classes "") classes
            = Some c).
    destruct (models.LabelEncoder.index_of (nth (Z.to_nat c) classes "") classes)
      as [c'|] eqn:Hi.
    2:{ by apply index_of_None in Hi. }
    f_equal. eapply index_of_nth; [apply NoDup_unique|exact Hknown|exact Hi].
  - apply Forall_forall. intros label (c & <- & Hin)%list_elem_of_In%in_map_iff.
    apply elem_of_unique. by apply known_nth, Hknown.
Qed.

Lemma sklearn_model_predicts_seen_labels_witness :
  let m := samples.construct models.CSKLearnPipelineModel in
  let m' := (models.fit (H := last_code_classifier) samples.train_inputs
               samples.train_targets m).2 in
  exists labels,
    models.predict (H := last_code_classifier)
      [samples.row "A"; samples.row "C"] m' = (Ok labels, m')
    /\ labels
       = map (fun c => nth (Z.to_nat c)
                         (models.LabelEncoder.unique samples.train_targets) "")
           [List.last (codes_of samples.train_targets) 0;
            List.last (codes_of samples.train_targets) 0]
    /\ Forall (fun label => label ∈ samples.train_targets) labels.
Proof.
  intros m m'.
  assert (models.init models.CSKLearnPipelineModel ∅ = Ok m) as Hinit
    by (vm_compute; reflexivity).
  assert (models.fit (H := last_code_classifier) samples.train_inputs
            samples.train_targets m = (Ok models.RNone, m')) as Hfit
    by (vm_compute; reflexivity).
  pose proof (sklearn_model_predicts_seen_labels (H := last_code_classifier)
                ∅ m m' models.RNone samples.train_inputs
                [samples.row "A"; samples.row "C"] samples.train_targets
                Hinit Hfit) as Hpredict.
  cbv zeta in Hpredict. cbn [models.sklearn_predict last_code_classifier map]
    in Hpredict.
  destruct (forallb _ _) eqn:Hknown in Hpredict; [|by vm_compute in Hknown].
  destruct Hpredict as (labels & Hp & Hl & _ & Hin).
  exists labels. split; [exact Hp|]. split; [exact Hl|exact Hin].
Defined.


(** ** core/models.py: MostFrequentCategoryByMerchant *)

Lemma key_eqb_eq a b : mf.key_eqb a b = true <-> a = b.
Proof.
  unfold mf.key_eqb. destruct a as [a1 a2], b as [b1 b2]. simpl.
  rewrite andb_true_iff, String.eqb_eq, Z.eqb_eq. split.
  - by intros [-> ->].
  - by intros [= -> ->].
Qed.

Lemma key_eqb_refl a : mf.key_eqb a a = true.
Proof. by apply key_eqb_eq. Qed.

Lemma key_eqb_sym a b : mf.key_eqb a b = mf.key_eqb b a.
Proof.
  destruct (mf.key_eqb a b) eqn:Hab, (mf.key_eqb b a) eqn:Hba; try done.
  - apply key_eqb_eq in Hab as ->. by rewrite key_eqb_refl in Hba.
  - apply key_eqb_eq in Hba as ->. by rewrite key_eqb_refl in Hab.
Qed.

Lemma key_ltb_irrefl a : mf.key_ltb a a = false.
Proof. unfold mf.key_ltb. rewrite compare_refl. apply Z.ltb_irrefl. Qed.

Lemma key_ltb_trans a b c :
  mf.key_ltb a b = true -> mf.key_ltb b c = true -> mf.key_ltb a c = true.
Proof.
  unfold mf.key_ltb. destruct a as [a1 a2], b as [b1 b2], c as [c1 c2]. simpl.
  destruct (String.compare a1 b1) eqn:Hab; [| |done];
    (destruct (String.compare b1 c1) eqn:Hbc; [| |done]).
  - apply compare_eq in Hab as ->. apply compare_eq in Hbc as ->.
    rewrite compare_refl, !Z.ltb_lt. lia.
  - apply compare_eq in Hab as ->. by rewrite Hbc.
  - apply compare_eq in Hbc as <-. by rewrite Hab.
  - by rewrite (compare_Lt_trans _ _ _ Hab Hbc).
Qed.

Lemma key_trichotomy a b :
  mf.key_eqb a b = false -> mf.key_ltb a b = false -> mf.key_ltb b a = true.
Proof.
  unfold mf.key_ltb, mf.key_eqb. destruct a as [a1 a2], b as [b1 b2]. simpl.
  destruct (String.compare a1 b1) eqn:Hab.
  - apply compare_eq in Hab as ->. rewrite String.eqb_refl, compare_refl. simpl.
    rewrite Z.eqb_neq, Z.ltb_ge, Z.ltb_lt. lia.
  - done.
  - apply compare_Gt_Lt in Hab. by rewrite Hab.
Qed.


Lemma count_of_below k t :
  Forall (fun l => mf.key_ltb k l.1 = true) t -> count_of t k = 0%nat.
Proof.
  induction 1 as [|[k' n] t Hk Ht IH]; simpl; [done|].
  destruct (mf.key_eqb k k') eqn:He; [|done].
  apply key_eqb_eq in He as ->. simpl in Hk. by rewrite key_ltb_irrefl in Hk.
Qed.

Lemma count_of_elem_of t k n :
  keys_increase t -> (k, n) ∈ t -> count_of t k = n.
Proof.
  induction t as [|[k' n'] t IH]; simpl.
  { intros _ Hin. by apply elem_of_nil in Hin. }
  intros [Hlt Hinc] Hin.
  apply elem_of_cons in Hin as [[= <- <-]|Hin].
  { by rewrite key_eqb_refl. }
  destruct (mf.key_eqb k k') eqn:He; [|by apply IH].
  apply key_eqb_eq in He as ->.
  rewrite Forall_forall in Hlt. specialize (Hlt _ Hin). simpl in Hlt.
  by rewrite key_ltb_irrefl in Hlt.
Qed.

Lemma elem_of_count_of t k :
  (0 < count_of t k)%nat -> (k, count_of t k) ∈ t.
Proof.
  induction t as [|[k' n] t IH]; simpl; [lia|].
  destruct (mf.key_eqb k k') eqn:He.
  - apply key_eqb_eq in He as ->. by left.
  - right. by apply IH.
Qed.

Lemma count_insert_keys k t l :
  l ∈ mf.count_insert k t -> l.1 = k \/ exists l', l' ∈ t /\ l'.1 = l.1.
Proof.
  induction t as [|[k' n] t IH]; simpl.
  { intros ->%list_elem_of_singleton. by left. }
  destruct (mf.key_eqb k k') eqn:He.
  { intros [->|Hin]%elem_of_cons.
    - right. exists (k', n). split; [by left|done].
    - right. exists l. split; [by right|done]. }
  destruct (mf.key_ltb k k').
  { intros [->|Hin]%elem_of_cons; [by left|]. right. by exists l. }
  intros [->|Hin]%elem_of_cons.
  { right. exists (k', n). split; [by left|done]. }
  destruct (IH Hin) as [?|(l' & Hl' & Hk)]; [by left|].
  right. exists l'. split; [by right|done].
Qed.

Lemma count_insert_increase k t :
  keys_increase t -> keys_increase (mf.count_insert k t).
Proof.
  induction t as [|[k' n] t IH]; simpl; intros Hinc; [by split|].
  destruct Hinc as [Hlt Hinc].
  destruct (mf.key_eqb k k') eqn:He; [by split|].
  destruct (mf.key_ltb k k') eqn:Hl.
  { simpl. split; [|by split]. constructor; [done|].
    eapply Forall_impl; [exact Hlt|]. intros l Hk'. simpl in *.
    by eapply key_ltb_trans. }
  simpl. split; [|by apply IH].
  apply Forall_forall. intros l [Hk|(l' & Hl' & Hk)]%count_insert_keys.
  - rewrite Hk. cbn [fst]. by apply key_trichotomy.
  - rewrite <- Hk. rewrite Forall_forall in Hlt. by apply Hlt.
Qed.

Lemma count_insert_count k t k' :
  keys_increase t ->
  count_of (mf.count_insert k t) k'
  = (count_of t k' + if mf.key_eqb k' k then 1 else 0)%nat.
Proof.
  induction t as [|[k0 n] t IH]; simpl; intros Hinc.
  { by destruct (mf.key_eqb k' k). }
  destruct Hinc as [Hlt Hinc].
  destruct (mf.key_eqb k k0) eqn:He.
  { apply key_eqb_eq in He as ->. simpl.
    destruct (mf.key_eqb k' k0); lia. }
  destruct (mf.key_ltb k k0) eqn:Hl; simpl.
  - destruct (mf.key_eqb k' k) eqn:He'; [|lia].
    apply key_eqb_eq in He' as ->. rewrite He.
    rewrite count_of_below; [done|].
    eapply Forall_impl; [exact Hlt|]. intros l Hk0. simpl in *.
    by eapply key_ltb_trans.
  - destruct (mf.key_eqb k' k0) eqn:He0; [|by apply IH].
    apply key_eqb_eq in He0 as ->. rewrite key_eqb_sym, He. lia.
Qed.

Lemma count_insert_positive k t :
  Forall (fun l => (1 <= l.2)%nat) t ->
  Forall (fun l => (1 <= l.2)%nat) (mf.count_insert k t).
Proof.
  induction 1 as [|[k' n] t Hn Ht IH]; simpl.
  { by repeat constructor. }
  destruct (mf.key_eqb k k'); [constructor; [simpl in *; lia|done]|].
  destruct (mf.key_ltb k k'); repeat constructor; done.
Qed.

Lemma occurrences_cons {B} `{EqDecision B} (k : string * B) p pairs :
  occurrences k (p :: pairs)
  = ((if bool_decide (p = (Some k.1, k.2)) then 1 else 0) + occurrences k pairs)%nat.
Proof. unfold occurrences. simpl. by destruct (bool_decide _). Qed.

Lemma grouped_spec acc pairs :
  keys_increase acc -> Forall (fun l => (1 <= l.2)%nat) acc ->
  keys_increase (grouped acc pairs)
  /\ Forall (fun l => (1 <= l.2)%nat) (grouped acc pairs)
  /\ forall k, count_of (grouped acc pairs) k
               = (count_of acc k + occurrences k pairs)%nat.
Proof.
  revert acc. induction pairs as [|[[mch|] c] pairs IH]; intros acc Hinc Hpos.
  - split; [done|]. split; [done|]. intros k. unfold occurrences. simpl. lia.
  - destruct (IH (mf.count_insert (mch, c) acc)) as (Hi & Hp & Hc);
      [by apply count_insert_increase|by apply count_insert_positive|].
    split; [done|]. split; [done|]. intros k.
    change (grouped acc ((Some mch, c) :: pairs))
      with (grouped (mf.count_insert (mch, c) acc) pairs).
    rewrite Hc, count_insert_count, occurrences_cons by done.
    destruct k as [k1 k2]. simpl.
    destruct (mf.key_eqb (k1, k2) (mch, c)) eqn:He.
    + apply key_eqb_eq in He as [= -> ->]. rewrite bool_decide_eq_true_2 by done. lia.
    + rewrite bool_decide_eq_false_2; [lia|].
      intros [= -> ->]. by rewrite key_eqb_refl in He.
  - destruct (IH acc) as (Hi & Hp & Hc); [done..|].
    split; [done|]. split; [done|]. intros k.
    change (grouped acc ((None, c) :: pairs)) with (grouped acc pairs).
    rewrite Hc, occurrences_cons. by rewrite bool_decide_eq_false_2.
Qed.

Lemma groupby_size_spec merchants y :
  let t := mf.groupby_size merchants y in
  keys_increase t
  /\ Forall (fun l => (1 <= l.2)%nat) t
  /\ forall k, count_of t k = occurrences k (zip merchants y).
Proof.
  destruct (grouped_spec [] (zip merchants y)) as (Hi & Hp & Hc); [done|done|].
  split; [exact Hi|]. split; [exact Hp|]. intros k. exact (Hc k).
Qed.


Section SortFacts.
Context `{!models.Estimators}.

Lemma insert_desc_perm x l : mf.insert_desc x l ≡ₚ x :: l.
Proof.
  induction l as [|y l IH]; simpl; [done|].
  destruct (mf.precedes y x); [|done].
  by rewrite IH, Permutation_swap.
Qed.

Lemma insert_desc_decrease x l :
  counts_decrease l.*1 -> counts_decrease (mf.insert_desc x l).*1.
Proof.
  induction l as [|y l IH]; simpl; [by split|]. intros [Hy Hl].
  destruct (mf.precedes y x) eqn:Hp; simpl.
  - assert (x.1.2 <= y.1.2)%nat as Hle.
    { unfold mf.precedes in Hp. apply orb_true_iff in Hp as [Hp|Hp].
      - apply Nat.ltb_lt in Hp. lia.
      - apply andb_true_iff in Hp as [Hp%Nat.eqb_eq _]. lia. }
    split; [|by apply IH].
    rewrite insert_desc_perm. simpl. by constructor.
  - assert (y.1.2 <= x.1.2)%nat as Hle.
    { unfold mf.precedes in Hp. apply orb_false_iff in Hp as [Hp%Nat.ltb_ge _].
      done. }
    split; [|by split].
    constructor; [done|]. eapply Forall_impl; [exact Hy|]. simpl. lia.
Qed.

Lemma imap_rank_fst (g : nat -> Z) (t : list mf.line) :
  (imap (fun i l => (l, g i)) t).*1 = t.
Proof.
  revert g. induction t as [|x t IH]; intros g; simpl; [done|].
  f_equal. exact (IH (g ∘ S)).
Qed.

Lemma ranked_fst t : (mf.ranked t).*1 = t.
Proof. unfold mf.ranked. apply imap_rank_fst. Qed.

Lemma sort_values_count_spec t :
  mf.sort_values_count t ≡ₚ t /\ counts_decrease (mf.sort_values_count t).
Proof.
  unfold mf.sort_values_count. rewrite <- (ranked_fst t) at 2.
  induction (mf.ranked t) as [|x r [IHp IHd]]; simpl; [done|].
  split; [by rewrite insert_desc_perm, fmap_cons, IHp|by apply insert_desc_decrease].
Qed.

End SortFacts.

Lemma existsb_eqb mch seen :
  existsb (String.eqb mch) seen = true <-> mch ∈ seen.
Proof.
  rewrite existsb_exists. split.
  - intros (x & Hin%list_elem_of_In & ->%String.eqb_eq). done.
  - intros Hin. exists mch. split; [by apply list_elem_of_In|apply String.eqb_refl].
Qed.

Lemma drop_duplicates_merchant_spec seen s :
  let r := mf.drop_duplicates_merchant seen s in
  (forall l, l ∈ r ->
     (merchant_of l ∉ seen)
     /\ exists s1 s2,
          s = s1 ++ l :: s2
          /\ Forall (fun l' => merchant_of l' <> merchant_of l) s1)
  /\ (forall l, l ∈ s -> merchant_of l ∉ seen ->
        exists l', l' ∈ r /\ merchant_of l' = merchant_of l)
  /\ NoDup (merchant_of <$> r).
Proof.
  revert seen. induction s as [|[[mch c] n] s IH]; intros seen; simpl.
  { split; [|split].
    - intros l Hl. by apply elem_of_nil in Hl.
    - intros l Hl. by apply elem_of_nil in Hl.
    - constructor. }
  destruct (existsb (String.eqb mch) seen) eqn:Hseen.
  - apply existsb_eqb in Hseen.
    destruct (IH seen) as (H1 & H2 & H3). split; [|split; [|done]].
    + intros l Hl. destruct (H1 l Hl) as (Hns & s1 & s2 & -> & Hs1).
      split; [done|]. exists (((mch, c), n) :: s1), s2. split; [done|].
      constructor; [|done]. change (mch <> merchant_of l).
      intros Heq. apply Hns. by rewrite <- Heq.
    + intros l [->|Hl]%elem_of_cons Hns; [done|]. by apply H2.
  - assert (mch ∉ seen) as Hns.
    { intros Hin%existsb_eqb. congruence. }
    destruct (IH (mch :: seen)) as (H1 & H2 & H3). split; [|split].
    + intros l [->|Hl]%elem_of_cons.
      { split; [done|]. by exists [], s. }
      destruct (H1 l Hl) as ([Hne Hnot]%not_elem_of_cons & s1 & s2 & -> & Hs1).
      split; [done|]. exists (((mch, c), n) :: s1), s2. split; [done|].
      constructor; [|done]. change (mch <> merchant_of l). congruence.
    + intros l Hl Hnot. destruct (decide (merchant_of l = mch)) as [Heq|Hne].
      { exists ((mch, c), n). split; [by left|done]. }
      apply elem_of_cons in Hl as [->|Hl]; [done|].
      destruct (H2 l Hl) as (l' & Hl' & Hm).
      { by apply not_elem_of_cons. }
      exists l'. split; [by right|done].
    + simpl. constructor; [|done].
      intros (l & Hm & Hl)%list_elem_of_fmap.
      destruct (H1 l Hl) as [Hnot _]. apply Hnot. rewrite <- Hm. by left.
Qed.

Lemma to_dict_from (d0 : gmap string Z) (r : list mf.line) mch c :
  NoDup (merchant_of <$> r) ->
  foldl (fun d l => <[l.1.1 := l.1.2]> d) d0 r !! mch = Some c <->
  (exists n, ((mch, c), n) ∈ r)
  \/ ((mch ∉ merchant_of <$> r) /\ d0 !! mch = Some c).
Proof.
  revert d0. induction r as [|[[m0 c0] n0] r IH]; intros d0 Hnd; simpl.
  { split.
    - intros Hd. right. split; [apply not_elem_of_nil|done].
    - intros [[n Hn]|[_ Hd]]; [by apply elem_of_nil in Hn|done]. }
  apply NoDup_cons in Hnd as [Hm0 Hnd]. rewrite (IH _ Hnd).
  unfold merchant_of at 3. simpl.
  destruct (decide (mch = m0)) as [->|Hne].
  - rewrite lookup_insert_eq. split.
    + intros [[n Hn]|[_ [= ->]]].
      * destruct Hm0. apply list_elem_of_fmap. by exists ((m0, c), n).
      * left. exists n0. by left.
    + intros [[n [[= -> ->]|Hn]%elem_of_cons]|[Hnot _]].
      * by right.
      * destruct Hm0. apply list_elem_of_fmap. by exists ((m0, c), n).
      * destruct Hnot. by left.
  - rewrite lookup_insert_ne by done. split.
    + intros [[n Hn]|[Hnot Hd]].
      * left. exists n. by right.
      * right. split; [|done]. by apply not_elem_of_cons.
    + intros [[n [[= -> ->]|Hn]%elem_of_cons]|[[_ Hnot]%not_elem_of_cons Hd]].
      * done.
      * left. by exists n.
      * by right.
Qed.

Lemma to_dict_spec r mch c :
  NoDup (merchant_of <$> r) ->
  mf.to_dict r !! mch = Some c <-> exists n, ((mch, c), n) ∈ r.
Proof.
  intros Hnd. unfold mf.to_dict. rewrite to_dict_from by done. split.
  - by intros [?|[_ ?]].
  - by left.
Qed.



Lemma occurrences_pos {B} `{EqDecision B} (k : string * B) pairs :
  (1 <= occurrences k pairs)%nat <-> (Some k.1, k.2) ∈ pairs.
Proof.
  unfold occurrences. induction pairs as [|p pairs IH]; simpl.
  { split; [lia|]. intros Hin. by apply elem_of_nil in Hin. }
  rewrite elem_of_cons. case_bool_decide as Hp; simpl.
  - split; [by left|lia].
  - rewrite IH. split; [by right|]. by intros [?|?].
Qed.

Lemma counts_decrease_after s1 l s2 l' :
  counts_decrease (s1 ++ l :: s2) -> l' ∈ s2 -> (l'.2 <= l.2)%nat.
Proof.
  induction s1 as [|x s1 IH]; simpl; intros [Hl Hs] Hin.
  - rewrite Forall_forall in Hl. by apply Hl.
  - by apply IH.
Qed.

Lemma elem_of_zip_exists {A B} (a : list A) (b : list B) x :
  length a = length b -> x ∈ a -> exists y, (x, y) ∈ zip a b.
Proof.
  intros Hlen [i Hi]%list_elem_of_lookup.
  destruct (lookup_lt_is_Some_2 b i) as [y Hy].
  { rewrite <- Hlen. by eapply lookup_lt_Some. }
  exists y. apply list_elem_of_lookup. exists i. by apply lookup_zip_Some.
Qed.

Lemma fit_inv_table `{!models.Estimators} X y d :
  mf.fit X y = Ok d ->
  length X = length y
  /\ d = mf.to_dict
           (mf.drop_duplicates_merchant []
              (mf.sort_values_count
                 (mf.groupby_size (schemas.FeatInputsSchema.MERCHANT_NAME <$> X) y))).
Proof.
  unfold mf.fit. destruct (length X =? length y)%nat eqn:Hlen; [|done].
  apply Nat.eqb_eq in Hlen. by intros [= <-].
Qed.

Lemma fit_table_spec `{!models.Estimators} (X : list FeatRow) (y : list Z)
    (d : gmap string Z) :
  mf.fit X y = Ok d ->
  let merchants := schemas.FeatInputsSchema.MERCHANT_NAME <$> X in
  (forall mch, is_Some (d !! mch) <-> Some mch ∈ merchants)
  /\ (forall mch c,
        d !! mch = Some c ->
        (Some mch, c) ∈ zip merchants y
        /\ forall c', (occurrences (mch, c') (zip merchants y)
                       <= occurrences (mch, c) (zip merchants y))%nat)
  /\ (forall rows, length (mf.transform d rows) = length rows)
  /\ (forall row,
        match schemas.FeatInputsSchema.MERCHANT_NAME row with
        | Some mch => Some mch ∉ merchants
        | None => True
        end ->
        mf.transform d [row] = [25]).
Proof.
  intros [Hlen ->]%fit_inv_table merchants.
  set (t := mf.groupby_size merchants y).
  set (s := mf.sort_values_count t).
  set (r := mf.drop_duplicates_merchant [] s).
  destruct (groupby_size_spec merchants y) as (Hinc & Hpos & Hcount).
  fold t in Hinc, Hpos, Hcount.
  destruct (sort_values_count_spec t) as [Hperm Hdec]. fold s in Hperm, Hdec.
  destruct (drop_duplicates_merchant_spec [] s) as (Hfirst & Hsome & Hnd).
  fold r in Hfirst, Hsome, Hnd.
  assert (forall mch c,
            mf.to_dict r !! mch = Some c ->
            (Some mch, c) ∈ zip merchants y
            /\ forall c', (occurrences (mch, c') (zip merchants y)
                           <= occurrences (mch, c) (zip merchants y))%nat) as Hmax.
  { intros mch c [n Hn]%to_dict_spec; [|done].
    destruct (Hfirst _ Hn) as (_ & s1 & s2 & Hs & Hs1).
    assert (((mch, c), n) ∈ t) as Ht.
    { rewrite <- Hperm, Hs. apply elem_of_app. right. by left. }
    pose proof (count_of_elem_of _ _ _ Hinc Ht) as Hn'. rewrite Hcount in Hn'.
    assert (1 <= n)%nat as Hn1.
    { rewrite Forall_forall in Hpos. by apply (Hpos _ Ht). }
    split.
    { apply (occurrences_pos (mch, c)). lia. }
    intros c'. rewrite Hn'.
    destruct (decide (occurrences (mch, c') (zip merchants y) = 0%nat)) as [->|Hne];
      [lia|].
    pose proof (elem_of_count_of t (mch, c')) as Hin.
    rewrite Hcount in Hin. specialize (Hin ltac:(lia)).
    rewrite <- Hperm, Hs in Hin.
    apply elem_of_app in Hin as [Hin|[Heq|Hin]%elem_of_cons].
    - rewrite Forall_forall in Hs1. by destruct (Hs1 _ Hin).
    - injection Heq as _ <-. lia.
    - rewrite Hs in Hdec.
      apply (counts_decrease_after _ _ _ _ Hdec) in Hin. simpl in Hin. lia. }
  split; [|split; [exact Hmax|split]].
  - intros mch. split.
    + intros [c Hc]. destruct (Hmax _ _ Hc) as [Hin _].
      by apply elem_of_zip_l in Hin.
    + intros Hin.
      destruct (elem_of_zip_exists merchants y (Some mch)) as [c Hc]; [|done|].
      { unfold merchants. by rewrite length_fmap. }
      apply (occurrences_pos (mch, c)) in Hc. rewrite <- Hcount in Hc.
      pose proof (elem_of_count_of t (mch, c) ltac:(lia)) as Ht.
      apply (elem_of_Permutation_proper _ _ _ Hperm) in Ht.
      destruct (Hsome _ Ht) as ([[m' c'] n'] & Hl' & Hm'); [apply not_elem_of_nil|].
      unfold merchant_of in Hm'. simpl in Hm'. subst m'.
      exists c'. apply to_dict_spec; [done|]. by exists n'.
  - intros rows. unfold mf.transform. by rewrite length_map.
  - intros row Hrow. unfold mf.transform. cbn [map].
    destruct (schemas.FeatInputsSchema.MERCHANT_NAME row) as [mch|]; [|done].
    change (mf.to_dict _) with (mf.to_dict r).
    destruct (mf.to_dict r !! mch) as [c|] eqn:Hc; [|done].
    destruct (Hmax _ _ Hc) as [Hin _]. by apply elem_of_zip_l in Hin.
Qed.

(** X14: the table that [MostFrequentCategoryByMerchant.fit] builds maps
    exactly the merchant names that occur in the training rows, and maps
    each of them to a label that occurs with this merchant at least as
    often as every other label; [transform] returns one code per row, and
    the code 25 for a row whose merchant is missing or did not occur in
    the training rows. *)
Theorem most_frequent_category_table `{!models.Estimators}
    (X : list FeatRow) (y : list Z) (d : gmap string Z) :
  mf.fit X y = Ok d ->
  let merchants := schemas.FeatInputsSchema.MERCHANT_NAME <$> X in
  (forall mch, is_Some (d !! mch) <-> Some mch ∈ merchants)
  /\ (forall mch c,
        d !! mch = Some c ->
        (Some mch, c) ∈ zip merchants y
        /\ forall c', (occurrences (mch, c') (zip merchants y)
                       <= occurrences (mch, c) (zip merchants y))%nat)
  /\ (forall rows, length (mf.transform d rows) = length rows)
  /\ (forall row,
        match schemas.FeatInputsSchema.MERCHANT_NAME row with
        | Some mch => Some mch ∉ merchants
        | None => True
        end ->
        mf.transform d [row] = [25]).
Proof. apply fit_table_spec. Qed.

Lemma most_frequent_category_table_witness :
  exists d,
    mf.fit (H := last_code_classifier) samples.train_inputs [0; 0; 1; 2] = Ok d
    /\ d !! "A" = Some 0
    /\ (forall c', (occurrences ("A", c')
                      (zip (schemas.FeatInputsSchema.MERCHANT_NAME
                              <$> samples.train_inputs) [0%Z; 0%Z; 1%Z; 2%Z])
                    <= 2)%nat)
    /\ mf.transform d [samples.row "C"] = [25].
Proof.
  assert (exists d,
            mf.fit (H := last_code_classifier) samples.train_inputs [0; 0; 1; 2]
            = Ok d
            /\ d !! "A" = Some 0) as (d & Hfit & HA)
    by (eexists; split; [reflexivity|vm_compute; reflexivity]).
  destruct (most_frequent_category_table (H := last_code_classifier)
              samples.train_inputs [0; 0; 1; 2] d Hfit)
    as (Hdom & Hmax & _ & Hunseen).
  exists d. split; [exact Hfit|]. split; [exact HA|]. split.
  - intros c'. destruct (Hmax "A" 0 HA) as [_ Hle]. exact (Hle c').
  - apply Hunseen. simpl. apply (bool_decide_unpack _). vm_compute. exact I.
Defined.



(** ** core/models.py: BaselineModel, from fit to predict *)

Lemma transform_Forall2 classes y codes :
  models.LabelEncoder.transform classes y = Ok codes ->
  Forall2 (fun s c => models.LabelEncoder.index_of s classes = Some c) y codes.
Proof.
  revert codes. induction y as [|s y IH]; intros codes; simpl.
  { intros [= <-]. constructor. }
  destruct (models.LabelEncoder.index_of s classes) as [c|] eqn:Hc; [|done].
  destruct (models.LabelEncoder.transform classes y) as [cs|]; [|done]. simpl.
  intros [= <-]. constructor; [done|]. by apply IH.
Qed.

Lemma index_of_inj classes s1 s2 c :
  models.LabelEncoder.index_of s1 classes = Some c ->
  models.LabelEncoder.index_of s2 classes = Some c -> s1 = s2.
Proof.
  intros [_ H1]%index_of_Some [_ H2]%index_of_Some. congruence.
Qed.

Lemma occurrences_encoded classes y codes merchants mch s0 c0 :
  Forall2 (fun s c => models.LabelEncoder.index_of s classes = Some c) y codes ->
  models.LabelEncoder.index_of s0 classes = Some c0 ->
  occurrences (mch, c0) (zip merchants codes)
  = occurrences (mch, s0) (zip merchants y).
Proof.
  intros Henc H0. revert merchants.
  induction Henc as [|s c y codes Hs Henc IH]; intros [|m1 merchants]; try done.
  cbn [zip zip_with]. rewrite !occurrences_cons, IH. f_equal. cbn [fst snd].
  destruct (decide (s = s0)) as [->|Hne].
  - assert (c = c0) as -> by congruence.
    destruct (decide (m1 = Some mch)) as [->|Hm].
    + by rewrite !bool_decide_eq_true_2.
    + by rewrite !bool_decide_eq_false_2 by congruence.
  - rewrite (bool_decide_eq_false_2 ((m1, s) = _)) by congruence.
    rewrite bool_decide_eq_false_2; [done|].
    intros [= -> ->]. apply Hne. by eapply index_of_inj.
Qed.

Lemma elem_of_zip_encoded classes y codes (merchants : list (option string)) m1 c :
  Forall2 (fun s c => models.LabelEncoder.index_of s classes = Some c) y codes ->
  (m1, c) ∈ zip merchants codes ->
  exists s, (m1, s) ∈ zip merchants y
            /\ models.LabelEncoder.index_of s classes = Some c.
Proof.
  intros Henc. revert merchants.
  induction Henc as [|s c' y codes Hs Henc IH]; intros [|m merchants]; simpl;
    try (intros Hin; by apply elem_of_nil in Hin).
  intros [[= -> ->]|Hin]%elem_of_cons.
  - exists s. split; [by left|done].
  - destruct (IH _ Hin) as (s' & Hs' & Hc). exists s'. split; [by right|done].
Qed.

Lemma predict_fitted_baseline `{!models.Estimators} m targets d rows :
  models.class_of m = models.CBaselineModel ->
  models.others m !! "_decode_target" = None ->
  models.predict rows (fitted_with m targets (models.VBaselinePipeline d))
  = (models.LabelEncoder.inverse_transform (models.LabelEncoder.unique targets)
       (mf.transform d rows),
     fitted_with m targets (models.VBaselinePipeline d)).
Proof.
  intros Hc Ho. unfold models.predict. simpl. rewrite Hc.
  unfold models.BaselineModel_predict.
  erewrite bind_ok; [|apply getattr_Some; simpl; apply lookup_insert_eq].
  simpl. unfold bind at 1, lift. simpl.
  unfold models.call_method. simpl. rewrite Ho.
  apply decode_target_fitted.
Qed.

Lemma fit_baseline_Ok `{!models.Estimators} kwargs m X y r m' :
  models.init models.CBaselineModel kwargs = Ok m ->
  models.fit X y m = (Ok r, m') ->
  models.class_of m = models.CBaselineModel
  /\ models.others m = ∅
  /\ exists d,
       mf.fit X (codes_of y) = Ok d
       /\ m' = fitted_with m y (models.VBaselinePipeline d).
Proof.
  intros Hinit. pose proof (init_well_formed _ _ _ Hinit) as Hwf.
  apply init_inv in Hinit as [Hm _].
  assert (models.class_of m = models.CBaselineModel) as Hc by (by rewrite Hm).
  assert (models.others m = ∅) as Ho by (by rewrite Hm).
  rewrite BaselineModel_fit_spec;
    [|done|by apply well_formed_le|by apply well_formed_pipeline].
  destruct (mf.fit X (codes_of y)) as [d|e]; [|done].
  intros [= _ <-]. split; [done|]. split; [done|]. by exists d.
Qed.

(** X15: a BaselineModel that was built by its constructor and fitted
    without error predicts, for rows whose merchant occurred in the
    training rows, a label that occurred with this merchant in the
    training data at least as often as every other label.  When some row
    has a merchant that did not occur in the training rows, or no
    merchant, and the training targets have at most 25 distinct labels,
    [predict] fails for all the rows with a [ValueError]: the fixed code
    25 is not the code of a label.  In both cases the Model stays as it
    is. *)
Theorem baseline_predicts_most_frequent_label `{!models.Estimators}
    (kwargs : gmap string models.Value) (m m' : models.Model) (r : models.Ref)
    (X rows : list FeatRow) (y : list string) :
  models.init models.CBaselineModel kwargs = Ok m ->
  models.fit X y m = (Ok r, m') ->
  let merchants := schemas.FeatInputsSchema.MERCHANT_NAME <$> X in
  (Forall (fun row =>
             exists mch, schemas.FeatInputsSchema.MERCHANT_NAME row = Some mch
                         /\ Some mch ∈ merchants) rows ->
   exists labels,
     models.predict rows m' = (Ok labels, m')
     /\ Forall2 (fun row label =>
                   exists mch,
                     schemas.FeatInputsSchema.MERCHANT_NAME row = Some mch
                     /\ (Some mch, label) ∈ zip merchants y
                     /\ forall label',
                          (occurrences (mch, label') (zip merchants y)
                           <= occurrences (mch, label) (zip merchants y))%nat)
          rows labels)
  /\ (Exists (fun row =>
                match schemas.FeatInputsSchema.MERCHANT_NAME row with
                | Some mch => Some mch ∉ merchants
                | None => True
                end) rows ->
      (length (models.LabelEncoder.unique y) <= 25)%nat ->
      models.predict rows m'
      = (Raise (Exn CValueError "y contains previously unseen labels"), m')).
Proof.
  intros Hinit Hfit merchants.
  destruct (fit_baseline_Ok _ _ _ _ _ _ Hinit Hfit) as (Hc & Hnone & d & Hd & ->).
  rewrite predict_fitted_baseline; [|done|by rewrite Hnone].
  set (classes := models.LabelEncoder.unique y).
  pose proof (transform_Forall2 _ _ _ (transform_codes_of y)) as Henc.
  fold classes in Henc.
  destruct (fit_table_spec X (codes_of y) d Hd)
    as (Hdom & Hmax & _ & Hunseen).
  fold merchants in Hdom, Hmax, Hunseen.
  split.
  - intros Hrows.
    assert (forallb (models.LabelEncoder.known classes) (mf.transform d rows) = true
            /\ Forall2 (fun row label =>
                 exists mch,
                   schemas.FeatInputsSchema.MERCHANT_NAME row = Some mch
                   /\ (Some mch, label) ∈ zip merchants y
                   /\ forall label',
                        (occurrences (mch, label') (zip merchants y)
                         <= occurrences (mch, label) (zip merchants y))%nat)
                 rows
                 (map (fun c => nth (Z.to_nat c) classes "") (mf.transform d rows)))
      as [Hknown Hlabels].
    { induction Hrows as [|row rows (mch & Hrow & Hin) Hrows [IHk IHl]];
        [by split; [|constructor]|].
      unfold mf.transform in *. cbn [map forallb]. rewrite Hrow.
      apply Hdom in Hin as [c Hc']. rewrite Hc'. cbn [default from_option id].
      destruct (Hmax _ _ Hc') as [Hzip Hle].
      destruct (elem_of_zip_encoded _ _ _ _ _ _ Henc Hzip) as (label & Hl & Hidx).
      destruct (index_of_Some _ _ _ Hidx) as [Hk Hnth].
      rewrite Hk, IHk. split; [done|]. constructor; [|done].
      exists mch. rewrite Hnth. split; [done|]. split; [done|].
      intros label'.
      destruct (models.LabelEncoder.index_of label' classes) as [c'|] eqn:Hc''.
      - rewrite <- (occurrences_encoded _ _ _ merchants mch _ _ Henc Hc''),
          <- (occurrences_encoded _ _ _ merchants mch _ _ Henc Hidx).
        apply Hle.
      - apply index_of_None in Hc''.
        assert (occurrences (mch, label') (zip merchants y) = 0%nat) as ->; [|lia].
        destruct (occurrences (mch, label') (zip merchants y)) eqn:Ho; [done|].
        exfalso. apply Hc''. apply elem_of_unique.
        assert ((Some mch, label') ∈ zip merchants y) as Hz.
        { apply (occurrences_pos (mch, label')). lia. }
        by apply elem_of_zip_r in Hz. }
    eexists. split; [|exact Hlabels].
    by rewrite inverse_transform_Ok.
  - intros Hex Hlen. f_equal.
    assert (forallb (models.LabelEncoder.known classes) (mf.transform d rows) = false)
      as Hnot.
    { induction Hex as [row rows Hrow|row rows Hex IH].
      - specialize (Hunseen row Hrow). unfold mf.transform in *.
        cbn [map forallb] in *. injection Hunseen as ->.
        replace (models.LabelEncoder.known classes 25) with false; [done|].
        symmetry. apply not_true_is_false. intros Hk%known_spec. lia.
      - unfold mf.transform in *. cbn [map forallb]. rewrite IH.
        apply andb_false_r. }
    unfold models.LabelEncoder.inverse_transform. fold classes. rewrite Hnot.
    destruct (mf.transform d rows) eqn:Ht; [|done].
    apply Exists_exists in Hex as (row & Hin & _).
    unfold mf.transform in Ht. apply map_eq_nil in Ht. subst rows.
    by apply elem_of_nil in Hin.
Qed.

Lemma baseline_predicts_most_frequent_label_witness :
  let m := samples.construct models.CBaselineModel in
  let m' := (models.fit (H := samples.constant_classifier) samples.train_inputs
               samples.train_targets m).2 in
  (exists labels,
     models.predict (H := samples.constant_classifier)
       [samples.row "A"; samples.row "B"] m' = (Ok labels, m')
     /\ labels = ["X"; "Z"])
  /\ models.predict (H := samples.constant_classifier)
       [samples.row "A"; samples.row "C"] m'
     = (Raise (Exn CValueError "y contains previously unseen labels"), m').
Proof.
  intros m m'.
  assert (models.init models.CBaselineModel ∅ = Ok m) as Hinit
    by (vm_compute; reflexivity).
  assert (models.fit (H := samples.constant_classifier) samples.train_inputs
            samples.train_targets m = (Ok models.RNone, m')) as Hfit
    by (vm_compute; reflexivity).
  split.
  - destruct (baseline_predicts_most_frequent_label (H := samples.constant_classifier)
                ∅ m m' models.RNone samples.train_inputs
                [samples.row "A"; samples.row "B"] samples.train_targets
                Hinit Hfit) as [Hok _].
    destruct Hok as (labels & Hp & _).
    { repeat constructor.
      - exists "A". split; [reflexivity|].
        apply (bool_decide_unpack _). vm_compute. exact I.
      - exists "B". split; [reflexivity|].
        apply (bool_decide_unpack _). vm_compute. exact I. }
    exists labels. split; [exact Hp|].
    assert ((models.predict (H := samples.constant_classifier)
               [samples.row "A"; samples.row "B"] m').1 = Ok ["X"; "Z"]) as Hv
      by (vm_compute; reflexivity).
    rewrite Hp in Hv. simpl in Hv. by injection Hv.
  - destruct (baseline_predicts_most_frequent_label (H := samples.constant_classifier)
                ∅ m m' models.RNone samples.train_inputs
                [samples.row "A"; samples.row "C"] samples.train_targets
                Hinit Hfit) as [_ Hraise].
    apply Hraise.
    + apply Exists_cons_tl, Exists_cons_hd. simpl.
      apply (bool_decide_unpack _). vm_compute. exact I.
    + vm_compute. lia.
Defined.

Lemma sample_table `{!models.Estimators} (d : gmap string Z) :
  mf.fit samples.train_inputs [0; 0; 1; 2] = Ok d ->
  d !! "A" = Some 0 /\ d !! "B" = Some 2 /\ d !! "C" = None.
Proof.
  intros Hd.
  destruct (fit_table_spec _ _ d Hd) as (Hdom & Hmax & _ & _).
  assert (forall mch : string,
            Some mch ∈ schemas.FeatInputsSchema.MERCHANT_NAME <$> samples.train_inputs
            <-> mch = "A" \/ mch = "B") as Hmch.
  { intros mch. cbn. rewrite !elem_of_cons, elem_of_nil.
    split; [intros [[= ->]|[[= ->]|[[= ->]|[[= ->]|[]]]]]; auto|].
    intros [->| ->]; auto. }
  split; [|split].
  - destruct (proj2 (Hdom "A")) as [c Hc]; [apply Hmch; by left|].
    destruct (Hmax _ _ Hc) as [Hin Hle]. cbn in Hin.
    rewrite !elem_of_cons, elem_of_nil in Hin.
    destruct Hin as [[= ->]|[[= ->]|[[= ->]|[[=]|[]]]]]; try done.
    specialize (Hle 0). vm_compute in Hle. lia.
  - destruct (proj2 (Hdom "B")) as [c Hc]; [apply Hmch; by right|].
    destruct (Hmax _ _ Hc) as [Hin _]. cbn in Hin.
    rewrite !elem_of_cons, elem_of_nil in Hin.
    by destruct Hin as [[=]|[[=]|[[=]|[[= ->]|[]]]]].
  - destruct (d !! "C") as [c|] eqn:Hc; [|done].
    assert (is_Some (d !! "C")) as HC%Hdom%Hmch by (by eexists).
    by destruct HC.
Qed.

(** C5 against the code: after [fit] on (A, X), (A, X), (A, Y), (B, Z),
    [predict] on merchant A returns X; on the unseen merchant C the lookup
    gives the fixed code 25, which is not the code of any of the three
    labels, and decoding it raises a [ValueError]. *)
Theorem baseline_predicts_majority_and_fails_on_unseen `{!models.Estimators} :
  let m := (models.fit samples.train_inputs samples.train_targets
              (samples.construct models.CBaselineModel)).2 in
  models.fields m !! "le" = Some (models.VLabelEncoder (Some ["X"; "Y"; "Z"]))
  /\ (models.predict [samples.row "A"] m).1 = Ok ["X"]
  /\ (models.predict [samples.row "B"] m).1 = Ok ["Z"]
  /\ models.call_transform (default models.VNone (models.fields m !! "pipeline"))
       [samples.row "C"] = Ok [25]
  /\ (models.predict [samples.row "C"] m).1
     = Raise (Exn CValueError "y contains previously unseen labels").
Proof.
  intros m.
  assert (exists d,
            mf.fit samples.train_inputs [0; 0; 1; 2] = Ok d
            /\ m = fitted_with (samples.construct models.CBaselineModel)
                     samples.train_targets (models.VBaselinePipeline d))
    as (d & Hd & ->).
  { subst m. pose proof (construct_well_formed models.CBaselineModel) as Hwf.
    rewrite BaselineModel_fit_spec;
      [|done|by apply well_formed_le|by apply well_formed_pipeline].
    change (codes_of samples.train_targets) with [0; 0; 1; 2].
    destruct (mf.fit samples.train_inputs [0; 0; 1; 2]) as [d|e] eqn:Hd.
    - by exists d.
    - by vm_compute in Hd. }
  destruct (sample_table d Hd) as (HA & HB & HC).
  split; [done|].
  rewrite !predict_fitted_baseline by done.
  unfold mf.transform. cbn [map samples.row schemas.FeatInputsSchema.MERCHANT_NAME].
  rewrite HA, HB, HC. cbn [default fitted_with models.fields].
  rewrite lookup_insert_eq. cbn [default models.call_transform mf.transform map
    samples.row schemas.FeatInputsSchema.MERCHANT_NAME id fst].
  split; [done|]. split; [done|]. split; [|done].
  unfold mf.transform. cbn [map samples.row schemas.FeatInputsSchema.MERCHANT_NAME].
  by rewrite HC.
Qed.









(** ** utils/signers.py: the conversion of a schema *)

Lemma convert_columns_cons self c rest acc :
  signers.convert_columns self (c :: rest) acc
  = match converted self c with
    | Ok s => signers.convert_columns self rest (acc ++ [s])
    | Raise e => Raise e
    end.
Proof.
  simpl. unfold converted.
  by destruct (signers.getitem (signers.mapping self) (signers.col_dtype c)).
Qed.

Lemma convert_columns_Ok self cols acc specs :
  signers.convert_columns self cols acc = Ok specs <->
  exists new, specs = acc ++ new
              /\ Forall2 (fun c s => converted self c = Ok s) cols new.
Proof.
  revert acc specs. induction cols as [|c cols IH]; intros acc specs.
  { simpl. split.
    - intros [= <-]. exists []. split; [by rewrite app_nil_r|constructor].
    - intros (new & -> & ->%Forall2_nil_inv_l). by rewrite app_nil_r. }
  rewrite convert_columns_cons.
  destruct (converted self c) as [spec|e] eqn:Hc.
  2:{ split; [done|].
      intros (new & _ & (s & new' & Hs & _)%Forall2_cons_inv_l). congruence. }
  rewrite IH. split.
  - intros (new & -> & Hnew). exists (spec :: new).
    split; [by rewrite <- app_assoc|]. by constructor.
  - intros (new & -> & (s & new' & Hs & Hrest & ->)%Forall2_cons_inv_l).
    rewrite Hc in Hs. injection Hs as <-.
    exists new'. split; [by rewrite <- app_assoc|done].
Qed.

Lemma convert_columns_Raise self pre c post acc e :
  Forall (fun c => exists s, converted self c = Ok s) pre ->
  converted self c = Raise e ->
  signers.convert_columns self (pre ++ c :: post) acc = Raise e.
Proof.
  intros Hpre Hc. revert acc.
  induction Hpre as [|c0 pre [s Hs] Hpre IH]; intros acc.
  { simpl app. by rewrite convert_columns_cons, Hc. }
  simpl app. rewrite convert_columns_cons, Hs. apply IH.
Qed.

(** What the loop makes of a column, case by case. *)
Lemma converted_spec self c :
  match signers.mapping self !! signers.col_dtype c with
  | None => converted self c = Raise (Exn CKeyError (signers.col_dtype c))
  | Some ty =>
      if bool_decide (ty ∈ signers.DataType)
      then converted self c
           = Ok (signers.MkColSpec (signers.col_name c)
                   (negb (signers.col_required c)) ty)
      else raises (converted self c) CMlflowException
  end.
Proof.
  unfold converted, signers.getitem.
  destruct (signers.mapping self !! signers.col_dtype c) as [ty|]; simpl; [|done].
  unfold signers.ColSpec_. case_bool_decide; [done|].
  eexists. split; [reflexivity|done].
Qed.





(** ** jobs/transition.py: the version that is promoted *)

(** The loop of [max] keeps the first item of greatest key: the items
    before the one it returns have a smaller key, the items after it a key
    that is not greater. *)
Lemma max_loop_spec {A} (key : A -> Result Z) before maxitem maxval between rest v :
  transition.max_loop key maxitem maxval rest = Ok v ->
  key maxitem = Ok maxval ->
  Forall (fun x => exists kx, key x = Ok kx /\ kx < maxval) before ->
  Forall (fun x => exists kx, key x = Ok kx /\ kx <= maxval) between ->
  exists kv pre post,
    key v = Ok kv
    /\ before ++ maxitem :: between ++ rest = pre ++ v :: post
    /\ Forall (fun x => exists kx, key x = Ok kx /\ kx < kv) pre
    /\ Forall (fun x => exists kx, key x = Ok kx /\ kx <= kv) post.
Proof.
  revert before maxitem maxval between.
  induction rest as [|item rest IH]; intros before maxitem maxval between; simpl.
  { intros [= <-] Hk Hb Hw. exists maxval, before, between.
    by rewrite app_nil_r. }
  destruct (key item) as [val|e] eqn:Hitem; [|done]. simpl.
  destruct (maxval <? val) eqn:Hlt.
  - apply Z.ltb_lt in Hlt. intros Hloop Hk Hb Hw.
    destruct (IH (before ++ maxitem :: between) item val [] Hloop Hitem)
      as (kv & pre & post & Hv & Hl & Hpre & Hpost).
    { apply Forall_app. split.
      - eapply Forall_impl; [exact Hb|]. intros x (kx & Hx & Hle).
        exists kx. split; [done|lia].
      - constructor; [by exists maxval|].
        eapply Forall_impl; [exact Hw|]. intros x (kx & Hx & Hle).
        exists kx. split; [done|lia]. }
    { constructor. }
    exists kv, pre, post. split; [done|]. split; [|done].
    rewrite <- Hl. by rewrite <- !app_assoc.
  - apply Z.ltb_ge in Hlt. intros Hloop Hk Hb Hw.
    destruct (IH before maxitem maxval (between ++ [item]) Hloop Hk Hb)
      as (kv & pre & post & Hv & Hl & Hpre & Hpost).
    { apply Forall_app. split; [done|]. constructor; [|constructor].
      by exists val. }
    exists kv, pre, post. split; [done|]. split; [|done].
    rewrite <- Hl. by rewrite <- !app_assoc.
Qed.

(** What [max] with a key returns is the first item of greatest key. *)
Lemma max_spec {A} (key : A -> Result Z) iterable v :
  transition.max_ key iterable = Ok v ->
  exists kv pre post,
    key v = Ok kv
    /\ iterable = pre ++ v :: post
    /\ Forall (fun x => exists kx, key x = Ok kx /\ kx < kv) pre
    /\ Forall (fun x => exists kx, key x = Ok kx /\ kx <= kv) post.
Proof.
  destruct iterable as [|item rest]; simpl; [done|].
  destruct (key item) as [val|e] eqn:Hitem; [|done]. simpl. intros Hloop.
  apply (max_loop_spec key [] item val [] rest v Hloop Hitem); constructor.
Qed.

(** X18: a transition job that is given no version asks the registry for
    the latest versions of the model and promotes the first one of
    greatest version number: the versions listed before it have a smaller
    number, those after it a number that is not greater; when the
    registry knows no latest version, the job raises a [ValueError] and
    asks for no transition.  A job that is given a version asks the
    registry for this version and promotes what the registry answers,
    without looking at the latest versions.  A job that returns has asked
    for exactly one transition, as its last call to the registry: of the
    version number of [from_version] to the configured stage, and
    [to_version] is the registry's answer to it. *)
Theorem transition_job_promotes_greatest_version `{!transition.Client}
    (int_ : string -> Result Z) (self : transition.TransitionJob)
    (h h' : list transition.call_) (l : transition.Locals) :
  let name := services.registry_name (base.mlflow_service (transition.job self)) in
  let asked :=
    transition.TransitionModelVersionStage name (transition.stage self)
      (transition.version (transition.from_version l))
      (transition.archive_existing_versions self) in
  let h1 := h ++ [ transition.LogRecord "INFO" "With logger: {}";
                   transition.LogRecord "INFO" "With client: {}" ] in
  let logs := [ transition.LogRecord "INFO" "From version: {}";
                transition.LogRecord "INFO" "Transition model: {}" ] in
  (transition.run int_ self h = (Ok l, h') ->
   exists new found,
     h' = h ++ new
     /\ transition.transition_model_version_stage (h1 ++ found :: logs) name
          (transition.stage self)
          (transition.version (transition.from_version l))
          (transition.archive_existing_versions self)
        = Ok (transition.to_version l)
     /\ match transition.version_ self with
        | None =>
            found = transition.GetLatestVersions name
                      (transition.latest_version_stages self)
            /\ registry_calls new = [found; asked]
            /\ exists versions kv pre post,
                 transition.get_latest_versions h1 name
                   (transition.latest_version_stages self) = Ok versions
                 /\ versions = pre ++ transition.from_version l :: post
                 /\ int_ (transition.version (transition.from_version l)) = Ok kv
                 /\ Forall (fun v => exists k,
                              int_ (transition.version v) = Ok k /\ k < kv) pre
                 /\ Forall (fun v => exists k,
                              int_ (transition.version v) = Ok k /\ k <= kv) post
        | Some n =>
            found = transition.GetModelVersion name n
            /\ registry_calls new = [found; asked]
            /\ transition.get_model_version h1 name n
               = Ok (transition.from_version l)
        end)
  /\ (transition.version_ self = None ->
      transition.get_latest_versions h1 name
        (transition.latest_version_stages self) = Ok [] ->
      exists e,
        (transition.run int_ self h).1 = Raise e
        /\ exn_type e = CValueError
        /\ registry_calls (transition.run int_ self h).2
           = registry_calls h
               ++ [ transition.GetLatestVersions name
                      (transition.latest_version_stages self) ]).
Proof.
  intros name asked h1 logs. subst asked h1 logs. split.
  - unfold transition.run, bind, transition.tell, transition.ask, lift, ret.
    fold name. cbn [fst snd].
    destruct (transition.version_ self) as [n|].
    + destruct (transition.get_model_version _ name n) as [mv|e] eqn:Hget; [|done].
      destruct (transition.transition_model_version_stage _ _ _ _ _) as [tv|e]
        eqn:Hto; [|done].
      intros [= <- <-]. eexists _, _. split; [by rewrite <- !app_assoc|].
      cbn [transition.from_version transition.to_version].
      rewrite <- !app_assoc in Hto. cbn [app] in Hto.
      rewrite <- !app_assoc. cbn [app].
      split; [exact Hto|]. split; [reflexivity|]. split; [reflexivity|].
      rewrite <- app_assoc in Hget. exact Hget.
    + destruct (transition.get_latest_versions _ name _) as [versions|e] eqn:Hlatest;
        [|done].
      destruct (transition.max_ _ versions) as [mv|e] eqn:Hmax; [|done].
      destruct (transition.transition_model_version_stage _ _ _ _ _) as [tv|e]
        eqn:Hto; [|done].
      intros [= <- <-]. eexists _, _. split; [by rewrite <- !app_assoc|].
      cbn [transition.from_version transition.to_version].
      rewrite <- !app_assoc in Hto. cbn [app] in Hto.
      rewrite <- !app_assoc. cbn [app].
      split; [exact Hto|]. split; [reflexivity|]. split; [reflexivity|].
      destruct (max_spec _ _ _ Hmax) as (kv & pre & post & Hkv & Hl & Hpre & Hpost).
      exists versions, kv, pre, post. rewrite <- app_assoc in Hlatest. done.
  - intros Hnone Hlatest.
    unfold transition.run, bind, transition.tell, transition.ask, lift, ret.
    fold name. rewrite Hnone. cbn [fst snd].
    rewrite <- !app_assoc. cbn [app]. rewrite Hlatest. cbn.
    eexists. split; [done|]. split; [done|].
    unfold registry_calls. rewrite !List.filter_app. reflexivity.
Qed.

Lemma transition_job_promotes_greatest_version_witness :
  exists l h',
    transition.run (H := sample_client) sample_int (transition.default sample_job) []
    = (Ok l, h')
    /\ transition.version (transition.from_version l) = "10"
    /\ registry_calls h'
       = [ transition.GetLatestVersions "qto-categorizer-ml" None;
           transition.TransitionModelVersionStage "qto-categorizer-ml"
             "Production" "10" true ].
Proof.
  assert (exists l h',
            transition.run (H := sample_client) sample_int
              (transition.default sample_job) [] = (Ok l, h')
            /\ transition.version (transition.from_version l) = "10")
    as (l & h' & Hrun & Hv) by (do 2 eexists; split; vm_compute; reflexivity).
  destruct (transition_job_promotes_greatest_version (H := sample_client)
              sample_int (transition.default sample_job) [] h' l) as [Hok _].
  destruct (Hok Hrun) as (new & found & -> & _ & -> & Hcalls & _).
  exists l, new. split; [exact Hrun|]. split; [exact Hv|].
  simpl in Hcalls. rewrite Hv in Hcalls. exact Hcalls.
Defined.

(** ** jobs/training.py: the labels of the test part *)

Section TestLabels.
Context `{!Platform} `{!models.Estimators} `{!splitters.ModelSelection}.

Lemma score_all_encodes run_id targets_test outputs_test scorer rest w w' :
  training.score_all run_id targets_test outputs_test (scorer :: rest) w
  = (Ok tt, w') ->
  exists tc oc,
    models._encode_target targets_test (model w) = (Ok tc, model w)
    /\ models._encode_target outputs_test (model w) = (Ok oc, model w).
Proof.
  simpl. unfold training.score_one. intros Hs. invert_all.
  repeat match goal with
         | H : log _ _ _ = (Ok _, _) |- _ =>
             unfold log, emit in H; injection H as <- <-
         end.
  match goal with
  | H : on_model (models.call_method _ (models._encode_target targets_test)) _ = _
    |- _ =>
      unfold on_model in H; cbn [model trace] in H;
      pose proof (stable_encode_call targets_test (model w)) as Hst;
      destruct (models.call_method "_encode_target"
                  (models._encode_target targets_test) (model w))
        as [rt mt] eqn:Ht;
      cbn [snd] in Hst; subst mt; injection H as -> <-
  end.
  match goal with
  | H : on_model (models.call_method _ (models._encode_target outputs_test)) _ = _
    |- _ =>
      unfold on_model in H; cbn [model trace] in H;
      pose proof (stable_encode_call outputs_test (model w)) as Hso;
      destruct (models.call_method "_encode_target"
                  (models._encode_target outputs_test) (model w))
        as [ro mo] eqn:Ho;
      cbn [snd] in Hso; subst mo; injection H as -> <-
  end.
  apply call_method_Ok in Ht, Ho. by eexists _, _.
Qed.

Lemma body_scored self run_id w l w' scorer rest :
  training.scorers self = scorer :: rest ->
  training.body self run_id w = (Ok l, w') ->
  let m1 := (models.fit (training.inputs_train l) (training.targets_train l)
               (model w)).2 in
  exists tc oc,
    models._encode_target (training.targets_test l) m1 = (Ok tc, m1)
    /\ models._encode_target (training.outputs_test l) m1 = (Ok oc, m1).
Proof.
  intros Hscorers. unfold training.body, training.model_fit, training.model_predict.
  rewrite Hscorers. cbv zeta. intros Hbody. invert_all.
  unfold ret in Hbody. injection Hbody as <- _.
  cbn [training.inputs_train training.targets_train training.targets_test
       training.outputs_test].
  invert_world.
  repeat match goal with u : () |- _ => destruct u end.
  match goal with
  | H : training.score_all _ _ _ _ _ = _ |- _ =>
      apply score_all_encodes in H as (tc & oc & Ht & Ho);
      cbn [model trace] in Ht, Ho
  end.
  match goal with
  | Hp : models.predict ?rows _ = (Ok _, ?m'), Hf : models.fit _ _ _ = (Ok _, ?m)
    |- _ =>
      cbn [model trace] in Hp, Hf;
      pose proof (models_facts.stable_predict rows m) as Hst;
      rewrite Hp in Hst; cbn [snd] in Hst; subst m';
      rewrite Hf; cbn [snd]
  end.
  exists tc, oc. split; [exact Ht|exact Ho].
Qed.

Lemma encoded_labels_seen m targets p y codes :
  models._encode_target y (fitted_with m targets p)
  = (Ok codes, fitted_with m targets p) ->
  Forall (fun s => s ∈ targets) y.
Proof.
  rewrite encode_target_fitted. intros [= Ht].
  destruct (decide (Forall (fun s => s ∈ models.LabelEncoder.unique targets) y))
    as [Hy|Hn].
  - eapply Forall_impl; [exact Hy|]. intros s Hs. by apply elem_of_unique.
  - by rewrite (transform_Raise _ _ Hn) in Ht.
Qed.

End TestLabels.


